(** * Strobed display refresh, deflicker timers and keypad decoding

    A shallow embedding of the display and keypad handlers of two drivers,
    [src/mame/drivers/intellect02.cpp] (Intellect-02) and
    [src/mame/drivers/mk1.cpp] (CompuChess / Chess Champion MK I), together
    with the properties their specification states about them.

    Conventions.  An [u8] member is a [Z] in [0, 256) and its wrap-around on
    assignment is written with [u8].  The outputs [m_out_digit] and
    [m_out_led] are lists updated by index.  Time is counted in
    microseconds; a one-shot timer is [None] when idle and [Some deadline]
    when armed. *)

From Stdlib Require Import ZArith Lia List Bool.
From stdpp Require Import base list.
Import ListNotations.

Local Open Scope Z_scope.

(** ** Machine integers and the emulator's bit helpers *)

Definition u8 (x : Z) : Z := x mod 256.
Definition u32 (x : Z) : Z := x mod 2 ^ 32.

(** A C condition: any non-zero value is true. *)
Definition truthy (x : Z) : bool := negb (x =? 0).

(** Modelled from the spec: the emulator core's [BIT(x, n)] helper is not
    part of the driver sources; it is the usual bit extraction
    [(x >> n) & 1], the "bit i is set" test the specification uses
    throughout. *)
Definition BIT (x : Z) (n : nat) : Z := Z.land (Z.shiftr x (Z.of_nat n)) 1.

(** Modelled from the spec: the emulator core's [bitswap<8>] helper is not
    part of the driver sources; its arguments list, from output bit 7 down
    to output bit 0, which input bit feeds it (the "literal bit-order
    table" of the segment decoder). *)
Definition bitswap8 (val : Z) (b7 b6 b5 b4 b3 b2 b1 b0 : nat) : Z :=
  Z.lor (Z.shiftl (BIT val b7) 7)
 (Z.lor (Z.shiftl (BIT val b6) 6)
 (Z.lor (Z.shiftl (BIT val b5) 5)
 (Z.lor (Z.shiftl (BIT val b4) 4)
 (Z.lor (Z.shiftl (BIT val b3) 3)
 (Z.lor (Z.shiftl (BIT val b2) 2)
 (Z.lor (Z.shiftl (BIT val b1) 1)
        (BIT val b0))))))).

(** The wiring the two drivers pass to [bitswap<8>], read as tables: entry
    [k] is the data-port bit that drives segment bit [k]
    ([bitswap<8>(data,7,0,1,2,3,4,5,6)] in intellect02.cpp and
    [bitswap<8>(m_digit_data,0,2,1,3,4,5,6,7)] in mk1.cpp). *)
Definition intellect02_wiring : list nat := [6; 5; 4; 3; 2; 1; 0; 7]%nat.
Definition mk1_wiring : list nat := [7; 6; 5; 4; 3; 1; 2; 0]%nat.

(** Modelled from the spec: the emulator core's [count_leading_zeros] is not
    part of the driver sources.  It is the leading-zero count of a 32-bit
    value, written here as the portable shift loop, with the value 32 for
    an all-zero input (the "deterministic sentinel" of Policy A). *)
Fixpoint clz_loop (fuel : nat) (val count : Z) : Z :=
  match fuel with
  | O => count
  | S fuel' =>
      if Z.testbit val 31 then count
      else clz_loop fuel' (u32 (Z.shiftl val 1)) (count + 1)
  end.

Definition count_leading_zeros (val : Z) : Z :=
  if val =? 0 then 32 else clz_loop 32 val 0.

(** Modelled from the spec: [timer_device] is not part of the driver
    sources.  Following the data model ("states {idle, armed(deadline)}"),
    a one-shot timer is [None] when idle and [Some d] when armed to fire at
    time [d]: [adjust] (re)arms it relative to the current time, [enabled]
    tells whether it is armed, and it fires exactly when the clock reaches
    its deadline, becoming idle before its callback runs. *)
Definition timer : Type := option Z.

Definition adjust (now delay : Z) : timer := Some (now + delay).

Definition enabled (t : timer) : bool :=
  match t with Some _ => true | None => false end.

(** No armed timer of [ts] expires before time [t]. *)
Definition none_before (t : Z) (ts : list timer) : bool :=
  forallb (fun x => match x with Some d => t <=? d | None => true end) ts.

(** ** Intellect-02 *)

Module Intellect02.

Record state : Type := mkState {
  m_digit_data : Z;
  m_led_select : Z;
  m_led_active : Z;
  m_out_digit : list Z;
  m_out_led : list Z;
  m_delay_update : timer;
  m_delay_display : list timer;
  m_beeper : bool;
  m_reset_line : bool;
  now : Z
}.

Definition set_digit_data (s : state) (v : Z) : state :=
  mkState v (m_led_select s) (m_led_active s) (m_out_digit s) (m_out_led s)
    (m_delay_update s) (m_delay_display s) (m_beeper s) (m_reset_line s) (now s).

Definition set_led_select (s : state) (v : Z) : state :=
  mkState (m_digit_data s) v (m_led_active s) (m_out_digit s) (m_out_led s)
    (m_delay_update s) (m_delay_display s) (m_beeper s) (m_reset_line s) (now s).

Definition set_led_active (s : state) (v : Z) : state :=
  mkState (m_digit_data s) (m_led_select s) v (m_out_digit s) (m_out_led s)
    (m_delay_update s) (m_delay_display s) (m_beeper s) (m_reset_line s) (now s).

Definition set_out_digit (s : state) (i : nat) (v : Z) : state :=
  mkState (m_digit_data s) (m_led_select s) (m_led_active s)
    (<[i := v]> (m_out_digit s)) (m_out_led s)
    (m_delay_update s) (m_delay_display s) (m_beeper s) (m_reset_line s) (now s).

Definition set_out_led (s : state) (i : nat) (v : Z) : state :=
  mkState (m_digit_data s) (m_led_select s) (m_led_active s)
    (m_out_digit s) (<[i := v]> (m_out_led s))
    (m_delay_update s) (m_delay_display s) (m_beeper s) (m_reset_line s) (now s).

Definition set_delay_update (s : state) (t : timer) : state :=
  mkState (m_digit_data s) (m_led_select s) (m_led_active s) (m_out_digit s) (m_out_led s)
    t (m_delay_display s) (m_beeper s) (m_reset_line s) (now s).

Definition set_delay_display (s : state) (i : nat) (t : timer) : state :=
  mkState (m_digit_data s) (m_led_select s) (m_led_active s) (m_out_digit s) (m_out_led s)
    (m_delay_update s) (<[i := t]> (m_delay_display s)) (m_beeper s) (m_reset_line s) (now s).

Definition set_beeper (s : state) (b : bool) : state :=
  mkState (m_digit_data s) (m_led_select s) (m_led_active s) (m_out_digit s) (m_out_led s)
    (m_delay_update s) (m_delay_display s) b (m_reset_line s) (now s).

Definition set_reset_line (s : state) (b : bool) : state :=
  mkState (m_digit_data s) (m_led_select s) (m_led_active s) (m_out_digit s) (m_out_led s)
    (m_delay_update s) (m_delay_display s) (m_beeper s) b (now s).

Definition set_now (s : state) (t : Z) : state :=
  mkState (m_digit_data s) (m_led_select s) (m_led_active s) (m_out_digit s) (m_out_led s)
    (m_delay_update s) (m_delay_display s) (m_beeper s) (m_reset_line s) t.

(** [machine_start]: outputs resolved (all off), members zero-filled, every
    timer idle. *)
Definition machine_start : state :=
  mkState 0 0 0 [0; 0; 0; 0] [0; 0] None (replicate 6 None) false false 0.

(** [reset_button]: the button only drives the CPU's RESET pin. *)
Definition reset_button (s : state) (newval : Z) : state :=
  set_reset_line s (truthy newval).

(** One iteration of the digit loop of [update_display]. *)
Definition update_digit (s : state) (i : nat) : state :=
  if truthy (BIT (m_led_select s) i) then set_out_digit s i (m_digit_data s)
  else if negb (truthy (BIT (m_led_active s) i)) then set_out_digit s i 0
  else s.

Definition update_display (s : state) : state :=
  let s := foldl update_digit s (seq 0 4) in
  let s := set_out_led s 0 (BIT (m_led_active s) 4) in
  set_out_led s 1 (BIT (m_led_active s) 5).

(** Timer callbacks. *)
Definition delay_update (s : state) : state := update_display s.

Definition delay_display (s : state) (param : nat) : state :=
  let mask := u8 (Z.shiftl 1 (Z.of_nat param)) in
  let s := set_led_active s
             (u8 (Z.lor (Z.land (m_led_active s) (Z.lnot mask))
                        (Z.land (m_led_select s) mask))) in
  update_display s.

(** [input_r]: [k0] and [k1] are the values read from the ports IN.0 and
    IN.1. *)
Definition input_r (k0 k1 : Z) : Z :=
  let data := u8 (count_leading_zeros k0 - 17) in
  u8 (Z.lor data (Z.land (u32 (Z.shiftl (u32 (Z.lnot k1)) 4)) 0xf0)).

Definition digit_w (s : state) (data : Z) : state :=
  let s := set_digit_data s (bitswap8 data 7 0 1 2 3 4 5 6) in
  update_display s.

(** One iteration of the select loop of [control_w]. *)
Definition control_bit (data : Z) (s : state) (i : nat) : state :=
  if truthy (BIT data i) then
    set_led_active s (u8 (Z.lor (m_led_active s) (Z.shiftl 1 (Z.of_nat i))))
  else if truthy (BIT (m_led_select s) i) then
    set_delay_display s i (adjust (now s) 25000)
  else s.

Definition control_w (s : state) (data : Z) : state :=
  let s := foldl (control_bit data) s (seq 0 6) in
  let s := set_led_select s data in
  let s := if negb (enabled (m_delay_update s))
           then set_delay_update s (adjust (now s) 15)
           else s in
  set_beeper s (truthy (BIT data 7)).

(** *** Events

    Port writes and the reset button happen at the current time.  [Wait dt]
    lets time pass, but never beyond the deadline of an armed timer;
    [FireUpdate] and [FireDisplay i] run a timer's callback when the clock
    has reached its deadline. *)
Inductive event : Type :=
| ControlW (data : Z)
| DigitW (data : Z)
| ResetButton (newval : Z)
| Wait (dt : Z)
| FireUpdate
| FireDisplay (i : nat).

Definition timers (s : state) : list timer :=
  m_delay_update s :: m_delay_display s.

Definition step (s : state) (e : event) : option state :=
  match e with
  | ControlW data => Some (control_w s data)
  | DigitW data => Some (digit_w s data)
  | ResetButton newval => Some (reset_button s newval)
  | Wait dt =>
      if (0 <=? dt) && none_before (now s + dt) (timers s)
      then Some (set_now s (now s + dt)) else None
  | FireUpdate =>
      match m_delay_update s with
      | Some d =>
          if d =? now s then Some (delay_update (set_delay_update s None))
          else None
      | None => None
      end
  | FireDisplay i =>
      match m_delay_display s !! i with
      | Some (Some d) =>
          if d =? now s then Some (delay_display (set_delay_display s i None) i)
          else None
      | _ => None
      end
  end.

Fixpoint run (s : state) (es : list event) : option state :=
  match es with
  | [] => Some s
  | e :: es' =>
      match step s e with
      | Some s' => run s' es'
      | None => None
      end
  end.

Definition reachable (s : state) : Prop :=
  exists es, run machine_start es = Some s.

(** The value shown by digit [i] (0 when out of range). *)
Definition digit (s : state) (i : nat) : Z := default 0 (m_out_digit s !! i).
Definition led (s : state) (i : nat) : Z := default 0 (m_out_led s !! i).

(** Bit [i] of the select mask and of the active mask. *)
Definition sel (s : state) (i : nat) : bool := Z.testbit (m_led_select s) (Z.of_nat i).
Definition act (s : state) (i : nat) : bool := Z.testbit (m_led_active s) (Z.of_nat i).

(** The deflicker timer of line [i]. *)
Definition timer_of (s : state) (i : nat) : option timer := m_delay_display s !! i.

(** The write [e] selects line [i] again. *)
Definition reselects (i : nat) (e : event) : bool :=
  match e with ControlW data => Z.testbit data (Z.of_nat i) | _ => false end.

(** The event leaves line [i] selected. *)
Definition keeps_selected (i : nat) (e : event) : bool :=
  match e with ControlW data => Z.testbit data (Z.of_nat i) | _ => true end.

(** The event runs [update_display]. *)
Definition is_refresh (e : event) : bool :=
  match e with DigitW _ | FireUpdate | FireDisplay _ => true | _ => false end.

(** Timer events: time passing and timers firing, no port write. *)
Definition is_timer_event (e : event) : bool :=
  match e with Wait _ | FireUpdate | FireDisplay _ => true | _ => false end.

End Intellect02.

(** ** CompuChess / Chess Champion MK I *)

Module MK1.

Record state : Type := mkState {
  m_digit_select : Z;
  m_digit_data : Z;
  m_blink : bool;
  m_out_digit : list Z;
  m_delay_display : list timer;
  m_reset_line : bool;
  now : Z
}.

Definition set_digit_select (s : state) (v : Z) : state :=
  mkState v (m_digit_data s) (m_blink s) (m_out_digit s)
    (m_delay_display s) (m_reset_line s) (now s).

Definition set_digit_data (s : state) (v : Z) : state :=
  mkState (m_digit_select s) v (m_blink s) (m_out_digit s)
    (m_delay_display s) (m_reset_line s) (now s).

Definition set_blink (s : state) (b : bool) : state :=
  mkState (m_digit_select s) (m_digit_data s) b (m_out_digit s)
    (m_delay_display s) (m_reset_line s) (now s).

Definition set_out_digit (s : state) (i : nat) (v : Z) : state :=
  mkState (m_digit_select s) (m_digit_data s) (m_blink s)
    (<[i := v]> (m_out_digit s))
    (m_delay_display s) (m_reset_line s) (now s).

Definition set_delay_display (s : state) (i : nat) (t : timer) : state :=
  mkState (m_digit_select s) (m_digit_data s) (m_blink s) (m_out_digit s)
    (<[i := t]> (m_delay_display s)) (m_reset_line s) (now s).

Definition set_reset_line (s : state) (b : bool) : state :=
  mkState (m_digit_select s) (m_digit_data s) (m_blink s) (m_out_digit s)
    (m_delay_display s) b (now s).

Definition set_now (s : state) (t : Z) : state :=
  mkState (m_digit_select s) (m_digit_data s) (m_blink s) (m_out_digit s)
    (m_delay_display s) (m_reset_line s) t.

Definition machine_start : state :=
  mkState 0 0 false [0; 0; 0; 0] (replicate 4 None) false 0.

(** [reset_switch]: drives the CPU's RESET pin and, when switched on,
    clears the display. *)
Definition reset_switch (s : state) (newval : Z) : state :=
  let s := set_reset_line s (truthy newval) in
  if truthy newval then
    let s := set_digit_select s 0xff in
    foldl (fun s i => set_out_digit s i 0) s (seq 0 4)
  else s.

Definition delay_display (s : state) (param : nat) : state :=
  if truthy (BIT (m_digit_select s) param) then set_out_digit s param 0
  else s.

(** The segment pattern [update_display] computes for a selected digit: the
    mask is chosen by the two conditional expressions, then applied to the
    permuted data byte. *)
Definition segments (blink : bool) (digit_data : Z) : Z :=
  let mask := if digit_data =? 1 then 0x80 else 0x7f in
  let mask := if blink && truthy (Z.land digit_data 1) then 0 else mask in
  Z.land (bitswap8 digit_data 0 2 1 3 4 5 6 7) mask.

(** One iteration of the digit loop of [update_display]. *)
Definition update_digit (s : state) (i : nat) : state :=
  if negb (truthy (BIT (m_digit_select s) i))
  then set_out_digit s i (segments (m_blink s) (m_digit_data s))
  else s.

Definition update_display (s : state) : state :=
  foldl update_digit s (seq 0 4).

(** The periodic blink timer's callback. *)
Definition blink (s : state) : state :=
  update_display (set_blink s (negb (m_blink s))).

Definition digit_data_w (s : state) (data : Z) : state :=
  update_display (set_digit_data s data).

(** One iteration of the select loop of [digit_select_w]. *)
Definition select_bit (data : Z) (s : state) (i : nat) : state :=
  if truthy (BIT (Z.land (Z.lnot (m_digit_select s)) data) i)
  then set_delay_display s i (adjust (now s) 20000)
  else s.

Definition digit_select_w (s : state) (data : Z) : state :=
  let s := foldl (select_bit data) s (seq 0 4) in
  let s := set_digit_select s data in
  update_display s.

(** [input_r]: [keypad i] is the value read from input line [i]
    (LINE1..LINE4); the handler returns the byte read together with the
    driver state it leaves behind. *)
Definition input_r (s : state) (keypad : nat -> Z) : Z * state :=
  let data := m_digit_data s in
  let data :=
    foldl (fun data i =>
             if truthy (Z.land (m_digit_data s) (keypad i))
             then u8 (Z.lor data (Z.shiftl 1 (Z.of_nat i)))
             else data)
          data (seq 0 4) in
  let data :=
    foldl (fun data i =>
             if truthy (BIT (m_digit_data s) i)
             then u8 (Z.lor data (keypad i))
             else data)
          data (seq 0 4) in
  (data, s).

(** *** Events

    As for the Intellect-02; the blink timer is periodic and its phase plays
    no part in the claims, so [Blink] may happen at any time. *)
Inductive event : Type :=
| DigitDataW (data : Z)
| DigitSelectW (data : Z)
| ResetSwitch (newval : Z)
| InputR (keypad : nat -> Z)
| Blink
| Wait (dt : Z)
| FireDisplay (i : nat).

Definition step (s : state) (e : event) : option state :=
  match e with
  | DigitDataW data => Some (digit_data_w s data)
  | DigitSelectW data => Some (digit_select_w s data)
  | ResetSwitch newval => Some (reset_switch s newval)
  | InputR keypad => Some (snd (input_r s keypad))
  | Blink => Some (blink s)
  | Wait dt =>
      if (0 <=? dt) && none_before (now s + dt) (m_delay_display s)
      then Some (set_now s (now s + dt)) else None
  | FireDisplay i =>
      match m_delay_display s !! i with
      | Some (Some d) =>
          if d =? now s then Some (delay_display (set_delay_display s i None) i)
          else None
      | _ => None
      end
  end.

Fixpoint run (s : state) (es : list event) : option state :=
  match es with
  | [] => Some s
  | e :: es' =>
      match step s e with
      | Some s' => run s' es'
      | None => None
      end
  end.

Definition reachable (s : state) : Prop :=
  exists es, run machine_start es = Some s.

Definition digit (s : state) (i : nat) : Z := default 0 (m_out_digit s !! i).

(** Digit [i] is strobed: its select line is active low. *)
Definition selected (s : state) (i : nat) : bool :=
  negb (truthy (BIT (m_digit_select s) i)).

(** The deflicker timer of digit [i]. *)
Definition timer_of (s : state) (i : nat) : option timer := m_delay_display s !! i.

(** The event neither selects digit [i] again nor switches the reset on. *)
Definition quiet (i : nat) (e : event) : bool :=
  match e with
  | DigitSelectW data => Z.testbit data (Z.of_nat i)
  | ResetSwitch newval => newval =? 0
  | _ => true
  end.

(** A write to the data port, the only event that changes [m_digit_data]. *)
Definition is_data_write (e : event) : bool :=
  match e with DigitDataW _ => true | _ => false end.

(** A port write; the CPU issues none while it is held in reset. *)
Definition is_port_write (e : event) : bool :=
  match e with DigitDataW _ | DigitSelectW _ => true | _ => false end.

End MK1.

(** * Properties *)

(** ** Bit-level facts *)

Section BitFacts.

Lemma BIT_b2z (x : Z) (n : nat) : BIT x n = Z.b2z (Z.testbit x (Z.of_nat n)).
Proof.
  unfold BIT. rewrite Z.testbit_odd.
  change 1 with (Z.ones 1). rewrite Z.land_ones by lia.
  change (2 ^ 1) with 2. rewrite <- Z.bit0_mod. now rewrite Z.bit0_odd.
Qed.

Lemma truthy_b2z (b : bool) : truthy (Z.b2z b) = b.
Proof. now destruct b. Qed.

Lemma truthy_BIT (x : Z) (n : nat) : truthy (BIT x n) = Z.testbit x (Z.of_nat n).
Proof. now rewrite BIT_b2z, truthy_b2z. Qed.

Lemma BIT_range (x : Z) (n : nat) : 0 <= BIT x n <= 1.
Proof. rewrite BIT_b2z. destruct (Z.testbit _ _); simpl; lia. Qed.

Lemma testbit_u8 (x j : Z) :
  0 <= j -> Z.testbit (u8 x) j = (j <? 8) && Z.testbit x j.
Proof.
  intros Hj. unfold u8. change 256 with (2 ^ 8).
  destruct (j <? 8) eqn:E; simpl.
  - apply Z.mod_pow2_bits_low. lia.
  - apply Z.mod_pow2_bits_high. lia.
Qed.

Lemma u8_range (x : Z) : 0 <= u8 x < 256.
Proof. unfold u8. apply Z.mod_pos_bound. lia. Qed.

Lemma u8_small (x : Z) : 0 <= x < 256 -> u8 x = x.
Proof. intros H. unfold u8. now apply Z.mod_small. Qed.

Lemma testbit_bit (i j : Z) :
  0 <= i -> 0 <= j -> Z.testbit (Z.shiftl 1 i) j = (i =? j).
Proof.
  intros Hi Hj. rewrite Z.shiftl_1_l. now apply Z.pow2_bits_eqb.
Qed.

Lemma testbit_high (x j : Z) : 0 <= x < 256 -> 8 <= j -> Z.testbit x j = false.
Proof.
  intros Hx Hj. rewrite <- (u8_small x Hx), testbit_u8 by lia.
  replace (j <? 8) with false by lia. reflexivity.
Qed.

End BitFacts.

(** ** Loops that write an array by index *)

Section IndexedWrites.

Context {A : Type}.

(** [f i] is the value iteration [i] writes at index [i], if it writes. *)
Variable f : nat -> option A.

Definition write_at (out : list A) (i : nat) : list A :=
  match f i with Some v => <[i := v]> out | None => out end.

Lemma write_at_length (idxs : list nat) (out : list A) :
  length (foldl write_at out idxs) = length out.
Proof.
  revert out; induction idxs as [|i idxs IH]; intros out; simpl; [done|].
  rewrite IH. unfold write_at. destruct (f i); [apply length_insert | done].
Qed.

Lemma write_at_other (idxs : list nat) (out : list A) (j : nat) :
  j ∉ idxs -> foldl write_at out idxs !! j = out !! j.
Proof.
  revert out; induction idxs as [|i idxs IH]; intros out Hj; simpl; [done|].
  apply not_elem_of_cons in Hj as [Hne Hj].
  rewrite IH by done. unfold write_at.
  destruct (f i); [by apply list_lookup_insert_ne | done].
Qed.

Lemma write_at_skip (idxs : list nat) (out : list A) (j : nat) :
  f j = None -> foldl write_at out idxs !! j = out !! j.
Proof.
  intros Hf. revert out; induction idxs as [|i idxs IH]; intros out; simpl; [done|].
  rewrite IH. unfold write_at.
  destruct (f i) eqn:E; [|done].
  apply list_lookup_insert_ne. intros ->. congruence.
Qed.

Lemma write_at_hit (idxs : list nat) (out : list A) (j : nat) (v : A) :
  j ∈ idxs -> f j = Some v -> (j < length out)%nat ->
  foldl write_at out idxs !! j = Some v.
Proof.
  intros Hin Hf. revert out; induction idxs as [|i idxs IH]; intros out Hlen; simpl.
  - by apply elem_of_nil in Hin.
  - destruct (decide (j ∈ idxs)) as [Hin'|Hnin].
    + apply IH; [done|]. unfold write_at.
      destruct (f i); [by rewrite length_insert | done].
    + apply elem_of_cons in Hin as [->|]; [|done].
      rewrite write_at_other by done. unfold write_at. rewrite Hf.
      by apply list_lookup_insert_eq.
Qed.

Lemma write_at_lookup (idxs : list nat) (out : list A) (j : nat) :
  foldl write_at out idxs !! j =
  if decide (j ∈ idxs ∧ (j < length out)%nat)
  then match f j with Some v => Some v | None => out !! j end
  else out !! j.
Proof.
  destruct (decide _) as [[Hin Hlt]|Hn].
  - destruct (f j) as [v|] eqn:E.
    + by apply write_at_hit.
    + by apply write_at_skip.
  - destruct (decide (j ∈ idxs)) as [Hin|Hnin].
    + assert (length out <= j)%nat as Hge by (apply Nat.nlt_ge; intros ?; apply Hn; done).
      rewrite (lookup_ge_None_2 out j Hge).
      apply lookup_ge_None_2. by rewrite write_at_length.
    + by apply write_at_other.
Qed.

End IndexedWrites.

Lemma none_before_lookup (t : Z) (ts : list timer) (i : nat) (d : Z) :
  none_before t ts = true -> ts !! i = Some (Some d) -> t <= d.
Proof.
  unfold none_before. rewrite forallb_forall. intros Hall Hi.
  apply list_elem_of_lookup_2, list_elem_of_In, Hall in Hi. lia.
Qed.

(** ** Intellect-02: what the handlers compute *)

Module Intellect02_Facts.
Import Intellect02.

(** What iteration [i] of the digit loop writes. *)
Definition digit_write (s : state) (i : nat) : option Z :=
  if sel s i then Some (m_digit_data s)
  else if negb (act s i) then Some 0
  else None.

Lemma update_digits_eq (l : list nat) (s : state) :
  foldl update_digit s l =
  mkState (m_digit_data s) (m_led_select s) (m_led_active s)
    (foldl (write_at (digit_write s)) (m_out_digit s) l) (m_out_led s)
    (m_delay_update s) (m_delay_display s) (m_beeper s) (m_reset_line s) (now s).
Proof.
  revert s; induction l as [|i l IH]; intros s; simpl.
  - now destruct s.
  - rewrite IH. unfold update_digit, write_at, digit_write, sel, act.
    rewrite !truthy_BIT.
    destruct (Z.testbit (m_led_select s) (Z.of_nat i));
      [|destruct (Z.testbit (m_led_active s) (Z.of_nat i))]; reflexivity.
Qed.

Lemma update_display_eq (s : state) :
  update_display s =
  mkState (m_digit_data s) (m_led_select s) (m_led_active s)
    (foldl (write_at (digit_write s)) (m_out_digit s) (seq 0 4))
    (<[1%nat := Z.b2z (act s 5)]> (<[0%nat := Z.b2z (act s 4)]> (m_out_led s)))
    (m_delay_update s) (m_delay_display s) (m_beeper s) (m_reset_line s) (now s).
Proof.
  unfold update_display. rewrite update_digits_eq.
  unfold set_out_led; cbn [m_digit_data m_led_select m_led_active m_out_digit
    m_out_led m_delay_update m_delay_display m_beeper m_reset_line now].
  now rewrite !BIT_b2z.
Qed.

(** The refresh rule, digit by digit. *)
Lemma update_display_digit (s : state) (i : nat) :
  (i < 4)%nat -> length (m_out_digit s) = 4%nat ->
  digit (update_display s) i =
  if sel s i then m_digit_data s
  else if act s i then digit s i
  else 0.
Proof.
  intros Hi Hlen. rewrite update_display_eq. unfold digit; cbn [m_out_digit].
  assert (Hin : i ∈ seq 0 4) by (apply elem_of_seq; lia).
  destruct (sel s i) eqn:Es; [|destruct (act s i) eqn:Ea].
  - erewrite write_at_hit; [done|done| |lia]. unfold digit_write. now rewrite Es.
  - rewrite write_at_skip; [done|]. unfold digit_write. now rewrite Es, Ea.
  - erewrite write_at_hit; [done|done| |lia]. unfold digit_write. now rewrite Es, Ea.
Qed.

Lemma update_display_led (s : state) (k : nat) :
  (k < 2)%nat -> length (m_out_led s) = 2%nat ->
  led (update_display s) k = Z.b2z (act s (4 + k)).
Proof.
  intros Hk Hlen. rewrite update_display_eq. unfold led; cbn [m_out_led].
  destruct (m_out_led s) as [|a [|b [|c l]]]; try discriminate.
  destruct k as [|[|k]]; [reflexivity|reflexivity|lia].
Qed.

(** The select loop of [control_w]: the mask it accumulates and the timers
    it arms. *)
Definition active_bit (data : Z) (a : Z) (i : nat) : Z :=
  if Z.testbit data (Z.of_nat i) then u8 (Z.lor a (Z.shiftl 1 (Z.of_nat i))) else a.

Definition timer_write (data : Z) (s : state) (i : nat) : option timer :=
  if Z.testbit data (Z.of_nat i) then None
  else if sel s i then Some (adjust (now s) 25000)
  else None.

Lemma control_bits_eq (data : Z) (l : list nat) (s : state) :
  foldl (control_bit data) s l =
  mkState (m_digit_data s) (m_led_select s)
    (foldl (active_bit data) (m_led_active s) l)
    (m_out_digit s) (m_out_led s) (m_delay_update s)
    (foldl (write_at (timer_write data s)) (m_delay_display s) l)
    (m_beeper s) (m_reset_line s) (now s).
Proof.
  revert s; induction l as [|i l IH]; intros s; simpl.
  - now destruct s.
  - rewrite IH. unfold control_bit, write_at, timer_write, active_bit, sel.
    rewrite !truthy_BIT.
    destruct (Z.testbit data (Z.of_nat i));
      [|destruct (Z.testbit (m_led_select s) (Z.of_nat i))]; reflexivity.
Qed.

Lemma control_w_eq (s : state) (data : Z) :
  control_w s data =
  mkState (m_digit_data s) data
    (foldl (active_bit data) (m_led_active s) (seq 0 6))
    (m_out_digit s) (m_out_led s)
    (if enabled (m_delay_update s) then m_delay_update s else adjust (now s) 15)
    (foldl (write_at (timer_write data s)) (m_delay_display s) (seq 0 6))
    (Z.testbit data 7) (m_reset_line s) (now s).
Proof.
  unfold control_w. rewrite control_bits_eq, truthy_BIT.
  unfold set_led_select, set_delay_update, set_beeper;
  cbn [m_digit_data m_led_select m_led_active m_out_digit
    m_out_led m_delay_update m_delay_display m_beeper m_reset_line now].
  now destruct (enabled (m_delay_update s)).
Qed.

Lemma active_bits_testbit (data : Z) (l : list nat) (a : Z) (j : nat) :
  (j < 8)%nat ->
  Z.testbit (foldl (active_bit data) a l) (Z.of_nat j) =
  Z.testbit a (Z.of_nat j) || (Z.testbit data (Z.of_nat j) && bool_decide (j ∈ l)).
Proof.
  intros Hj. revert a; induction l as [|i l IH]; intros a; simpl.
  - now rewrite andb_false_r, orb_false_r.
  - rewrite IH. unfold active_bit.
    destruct (decide (j = i)) as [->|Hne].
    + rewrite (bool_decide_eq_true_2 (i ∈ i :: l)) by (apply elem_of_cons; now left).
      destruct (Z.testbit data (Z.of_nat i)) eqn:Ed; simpl.
      * rewrite testbit_u8, Z.lor_spec, testbit_bit, Z.eqb_refl by lia.
        replace (Z.of_nat i <? 8) with true by lia.
        now rewrite orb_true_r.
      * reflexivity.
    + assert (Hb : bool_decide (j ∈ i :: l) = bool_decide (j ∈ l)).
      { apply bool_decide_ext. rewrite elem_of_cons.
        split; [intros [?|?]; [contradiction|assumption] | now right]. }
      rewrite Hb.
      destruct (Z.testbit data (Z.of_nat i)); [|reflexivity].
      rewrite testbit_u8, Z.lor_spec, testbit_bit by lia.
      replace (Z.of_nat j <? 8) with true by lia.
      replace (Z.of_nat i =? Z.of_nat j) with false by lia.
      now rewrite orb_false_r.
Qed.

Lemma active_bits_range (data : Z) (l : list nat) (a : Z) :
  0 <= a < 256 -> 0 <= foldl (active_bit data) a l < 256.
Proof.
  revert a; induction l as [|i l IH]; intros a Ha; simpl; [done|].
  apply IH. unfold active_bit.
  destruct (Z.testbit data (Z.of_nat i)); [apply u8_range | done].
Qed.

(** The mask update of [delay_display]: only bit [param] changes, and it
    takes the value of the select bit. *)
Definition clear_or_keep (s : state) (param : nat) : state :=
  set_led_active s
    (u8 (Z.lor (Z.land (m_led_active s) (Z.lnot (u8 (Z.shiftl 1 (Z.of_nat param)))))
               (Z.land (m_led_select s) (u8 (Z.shiftl 1 (Z.of_nat param)))))).

Lemma delay_display_eq (s : state) (param : nat) :
  delay_display s param = update_display (clear_or_keep s param).
Proof. reflexivity. Qed.

Lemma delay_display_mask (a b : Z) (param j : nat) :
  (param < 8)%nat -> (j < 8)%nat ->
  Z.testbit (u8 (Z.lor (Z.land a (Z.lnot (u8 (Z.shiftl 1 (Z.of_nat param)))))
                       (Z.land b (u8 (Z.shiftl 1 (Z.of_nat param))))))
            (Z.of_nat j) =
  if decide (j = param) then Z.testbit b (Z.of_nat j) else Z.testbit a (Z.of_nat j).
Proof.
  intros Hp Hj.
  rewrite testbit_u8, Z.lor_spec, !Z.land_spec, Z.lnot_spec, testbit_u8, testbit_bit by lia.
  replace (Z.of_nat j <? 8) with true by lia. simpl.
  destruct (decide (j = param)) as [->|Hne].
  - rewrite Z.eqb_refl. simpl. now rewrite andb_false_r, andb_true_r.
  - replace (Z.of_nat param =? Z.of_nat j) with false by lia.
    simpl. now rewrite andb_true_r, andb_false_r, orb_false_r.
Qed.

Lemma clear_or_keep_act (s : state) (param j : nat) :
  (param < 8)%nat -> (j < 8)%nat ->
  act (clear_or_keep s param) j = if decide (j = param) then sel s j else act s j.
Proof.
  intros Hp Hj. unfold act, sel, clear_or_keep. cbn [set_led_active m_led_active].
  now apply delay_display_mask.
Qed.

Lemma run_app (es1 es2 : list event) (s : state) :
  run s (es1 ++ es2) =
  match run s es1 with Some s1 => run s1 es2 | None => None end.
Proof.
  revert s; induction es1 as [|e es1 IH]; intros s; cbn [run app]; [done|].
  destruct (step s e); [apply IH | done].
Qed.

End Intellect02_Facts.

(** ** Intellect-02: the invariant of the reachable states *)

Module Intellect02_Inv.
Import Intellect02 Intellect02_Facts.

(** The arrays have their declared sizes, the active mask is a byte that
    covers the select lines d0-d5, and no armed timer is overdue. *)
Record wf (s : state) : Prop := mkWf {
  wf_digits : length (m_out_digit s) = 4%nat;
  wf_leds : length (m_out_led s) = 2%nat;
  wf_timers : length (m_delay_display s) = 6%nat;
  wf_active : 0 <= m_led_active s < 256;
  wf_subset : forall i, (i < 6)%nat -> sel s i = true -> act s i = true;
  wf_update : forall d, m_delay_update s = Some d -> now s <= d;
  wf_display : forall i d, m_delay_display s !! i = Some (Some d) -> now s <= d
}.

Lemma wf_start : wf machine_start.
Proof.
  split; try reflexivity; simpl; try lia.
  - intros i _. unfold sel; simpl. now rewrite Z.bits_0.
  - discriminate.
  - intros i d H. do 6 (destruct i as [|i]; [discriminate|]). discriminate.
Qed.

Lemma wf_update_display (s : state) : wf s -> wf (update_display s).
Proof.
  intros [H1 H2 H3 H4 H5 H6 H7]. rewrite update_display_eq.
  split; unfold sel, act in *; cbn [m_digit_data m_led_select m_led_active m_out_digit
    m_out_led m_delay_update m_delay_display m_beeper m_reset_line now]; try assumption.
  - now rewrite write_at_length.
  - now rewrite !length_insert.
Qed.

Lemma wf_control_w (s : state) (data : Z) : wf s -> wf (control_w s data).
Proof.
  intros [H1 H2 H3 H4 H5 H6 H7]. rewrite control_w_eq.
  split; unfold sel, act in *; cbn [m_digit_data m_led_select m_led_active m_out_digit
    m_out_led m_delay_update m_delay_display m_beeper m_reset_line now]; try assumption.
  - now rewrite write_at_length.
  - now apply active_bits_range.
  - intros i Hi Hd. rewrite active_bits_testbit by lia. rewrite Hd.
    rewrite bool_decide_eq_true_2 by (apply elem_of_seq; lia).
    apply orb_true_r.
  - intros d. destruct (m_delay_update s) as [d'|] eqn:E; simpl.
    + intros [= <-]. now apply H6.
    + unfold adjust. intros [= <-]. lia.
  - intros i d. rewrite write_at_lookup.
    destruct (decide _) as [_|_]; [|apply H7].
    unfold timer_write, adjust.
    destruct (Z.testbit data (Z.of_nat i)); [apply H7|].
    destruct (sel s i); [|apply H7]. intros [= <-]. lia.
Qed.

Lemma wf_clear_or_keep (s : state) (i : nat) :
  (i < 6)%nat -> wf s -> wf (clear_or_keep s i).
Proof.
  intros Hi Hwf. pose proof (clear_or_keep_act s i) as Ha.
  destruct Hwf as [H1 H2 H3 H4 H5 H6 H7].
  split; try assumption.
  - apply u8_range.
  - intros j Hj Hs. rewrite Ha by lia.
    destruct (decide (j = i)); [exact Hs | now apply H5].
Qed.

Lemma wf_disarm (s : state) (i : nat) : wf s -> wf (set_delay_display s i None).
Proof.
  intros [H1 H2 H3 H4 H5 H6 H7]. split; try assumption.
  - cbn [set_delay_display m_delay_display]. now rewrite length_insert.
  - intros j d'. cbn [set_delay_display m_delay_display now].
    rewrite list_lookup_insert_Some.
    intros [(_ & [=] & _)|[_ Hj]]. now apply (H7 j).
Qed.

Lemma wf_delay_display (s : state) (i : nat) :
  (i < 6)%nat -> wf s -> wf (delay_display s i).
Proof.
  intros Hi Hwf. rewrite delay_display_eq.
  now apply wf_update_display, wf_clear_or_keep.
Qed.

Lemma wf_step (s s' : state) (e : event) :
  wf s -> step s e = Some s' -> wf s'.
Proof.
  intros Hwf. destruct e as [data|data|newval|dt| |i]; cbn [step].
  - intros [= <-]. now apply wf_control_w.
  - intros [= <-]. unfold digit_w. apply wf_update_display.
    destruct Hwf; split; assumption.
  - intros [= <-]. destruct Hwf; split; assumption.
  - destruct (0 <=? dt) eqn:Edt; [|discriminate].
    destruct (none_before _ (timers s)) eqn:Ens; [|discriminate].
    intros [= <-]; destruct Hwf as [H1 H2 H3 H4 H5 H6 H7].
    split; unfold sel, act in *; cbn [set_now m_digit_data m_led_select m_led_active
        m_out_digit m_out_led m_delay_update m_delay_display m_beeper m_reset_line now];
      try assumption.
    + intros d Hd. apply (none_before_lookup _ _ 0%nat d Ens).
      unfold timers. now rewrite Hd.
    + intros i d Hd. apply (none_before_lookup _ _ (S i) d Ens). exact Hd.
  - destruct (m_delay_update s) as [d|] eqn:Eu; [|discriminate].
    destruct (d =? now s); [|discriminate]. intros [= <-].
    apply wf_update_display.
    destruct Hwf; split; try assumption. discriminate.
  - destruct (m_delay_display s !! i) as [[d|]|] eqn:Ei; try discriminate.
    destruct (d =? now s); [|discriminate]. intros [= <-].
    pose proof (lookup_lt_Some _ _ _ Ei) as Hlt.
    assert (Hi6 : (i < 6)%nat) by (rewrite <- (wf_timers s Hwf); exact Hlt).
    now apply wf_delay_display, wf_disarm.
Qed.

Lemma wf_run (es : list event) (s s' : state) :
  wf s -> run s es = Some s' -> wf s'.
Proof.
  revert s; induction es as [|e es IH]; intros s Hwf; simpl.
  - now intros [= <-].
  - destruct (step s e) as [s1|] eqn:E; [|discriminate].
    apply IH. eapply wf_step; eassumption.
Qed.

Lemma wf_reachable (s : state) : reachable s -> wf s.
Proof. intros [es Hes]. eapply wf_run; [apply wf_start | eassumption]. Qed.

End Intellect02_Inv.

(** ** Intellect-02: a deselected line is held until its timer fires *)

Module Intellect02_Hold.
Import Intellect02 Intellect02_Facts Intellect02_Inv.

Section Hold.

(** Line [i] was deselected by a write that armed its timer for time [T].
    [obs] is the output the line drives (a digit or an LED) and [v] the
    value it shows while held. *)
Variables (i : nat) (T v : Z) (obs : state -> Z).
Hypothesis Hi : (i < 6)%nat.
Hypothesis obs_ext : forall s s',
  m_out_digit s = m_out_digit s' -> m_out_led s = m_out_led s' -> obs s = obs s'.
Hypothesis obs_refresh : forall s,
  wf s -> sel s i = false -> (act s i = true -> obs s = v) ->
  obs (update_display s) = if act s i then v else 0.

(** The line is deselected and either its timer is still armed for [T] and
    its active bit set, or the timer has fired at [T] and cleared the bit. *)
Definition pending (s : state) : Prop :=
  timer_of s i = Some (Some T) /\ act s i = true /\ now s <= T.

Definition expired (s : state) : Prop :=
  timer_of s i = Some None /\ act s i = false /\ T <= now s.

Definition core (s : state) : Prop :=
  sel s i = false /\ (pending s \/ expired s).

Definition held (s : state) : Prop :=
  core s /\ obs s = if act s i then v else 0.

Lemma core_ext (s s' : state) :
  m_led_select s' = m_led_select s -> m_led_active s' = m_led_active s ->
  timer_of s' i = timer_of s i -> now s' = now s ->
  core s -> core s'.
Proof.
  intros E1 E2 E3 E4. unfold core, pending, expired, sel, act.
  now rewrite E1, E2, E3, E4.
Qed.

Lemma held_ext (s s' : state) :
  m_led_select s' = m_led_select s -> m_led_active s' = m_led_active s ->
  m_out_digit s' = m_out_digit s -> m_out_led s' = m_out_led s ->
  timer_of s' i = timer_of s i -> now s' = now s ->
  held s -> held s'.
Proof.
  intros E1 E2 E3 E4 E5 E6 [Hc Ho]. split.
  - now apply (core_ext s).
  - rewrite (obs_ext s' s) by done. unfold act in *. now rewrite E2.
Qed.

Lemma held_refresh (s : state) :
  wf s -> core s -> (act s i = true -> obs s = v) -> held (update_display s).
Proof.
  intros Hwf Hc Hv. split.
  - apply (core_ext s); try done; now rewrite update_display_eq.
  - rewrite obs_refresh; [|done|apply Hc|done].
    unfold act. now rewrite update_display_eq.
Qed.

Lemma held_on (s : state) : held s -> act s i = true -> obs s = v.
Proof. intros [_ Ho] Ha. now rewrite Ha in Ho. Qed.

Lemma held_step (s s' : state) (e : event) :
  wf s -> held s -> step s e = Some s' -> reselects i e = false -> held s'.
Proof.
  intros Hwf Hh. destruct e as [data|data|newval|dt| |j]; cbn [step reselects].
  - (* control_w with bit i clear *)
    intros [= <-] Hd. rewrite control_w_eq.
    destruct Hh as [[Hs H] Ho].
    assert (Ha : Z.testbit (foldl (active_bit data) (m_led_active s) (seq 0 6))
                   (Z.of_nat i) = act s i).
    { rewrite active_bits_testbit, Hd by lia. apply orb_false_r. }
    assert (Ht : foldl (write_at (timer_write data s)) (m_delay_display s) (seq 0 6) !! i
                 = timer_of s i).
    { rewrite write_at_lookup. unfold timer_write at 1. rewrite Hd, Hs.
      now destruct (decide _). }
    split; [split|].
    + exact Hd.
    + unfold pending, expired, timer_of, act in *.
      cbn [m_led_active m_delay_display now]. now rewrite Ha, Ht.
    + rewrite (obs_ext _ s) by done. unfold act at 1. cbn [m_led_active].
      now rewrite Ha.
  - (* digit_w *)
    intros [= <-] _. unfold digit_w. apply held_refresh.
    + destruct Hwf; split; assumption.
    + apply (core_ext s); try done. apply Hh.
    + intros Ha. rewrite (obs_ext _ s) by done. now apply held_on.
  - (* reset_button *)
    intros [= <-] _. eapply held_ext; [..|exact Hh]; reflexivity.
  - (* time passes *)
    destruct (0 <=? dt) eqn:Edt; [|discriminate].
    destruct (none_before _ (timers s)) eqn:Ens; [|discriminate].
    intros [= <-] _. destruct Hh as [[Hs H] Ho].
    split; [split; [exact Hs|] | rewrite (obs_ext _ s) by done; exact Ho].
    destruct H as [(Ht&?&?)|(?&?&?)]; [left|right]; repeat split; try done.
    + cbn [set_now now]. apply (none_before_lookup _ _ (S i) T Ens). exact Ht.
    + cbn [set_now now]. lia.
  - (* the coalesced refresh *)
    destruct (m_delay_update s) as [d|] eqn:Eu; [|discriminate].
    destruct (d =? now s); [|discriminate]. intros [= <-] _.
    unfold delay_update. apply held_refresh.
    + destruct Hwf; split; try assumption. discriminate.
    + apply (core_ext s); try done. apply Hh.
    + intros Ha. rewrite (obs_ext _ s) by done. now apply held_on.
  - (* a deflicker timer fires *)
    destruct (m_delay_display s !! j) as [[d|]|] eqn:Ej; try discriminate.
    destruct (d =? now s) eqn:Ed; [|discriminate]. intros [= <-] _.
    apply Z.eqb_eq in Ed. subst d.
    assert (Hj : (j < 6)%nat).
    { rewrite <- (wf_timers s Hwf). exact (lookup_lt_Some _ _ _ Ej). }
    rewrite delay_display_eq.
    pose proof (held_on s Hh) as Hon.
    destruct Hh as [[Hs H] Ho].
    pose proof (clear_or_keep_act (set_delay_display s j None) j i) as Ha.
    apply held_refresh.
    + now apply wf_clear_or_keep, wf_disarm.
    + split; [exact Hs|]. unfold pending, expired.
      rewrite Ha by lia.
      destruct (decide (i = j)) as [Heq|Hne]; [subst j|].
      * right. destruct H as [(Ht&?&?)|(Ht&?&?)].
        -- assert (HT : Some (Some T) = Some (Some (now s))) by (rewrite <- Ht; exact Ej).
           injection HT as HT. unfold timer_of.
           cbn [clear_or_keep set_led_active set_delay_display m_delay_display now].
           rewrite list_lookup_insert_eq by (rewrite (wf_timers s Hwf); done).
           split; [reflexivity|]. split; [exact Hs | lia].
        -- assert (HT : Some None = Some (Some (now s))) by (rewrite <- Ht; exact Ej).
           discriminate.
      * unfold timer_of in *.
        cbn [clear_or_keep set_led_active set_delay_display m_delay_display now].
        rewrite list_lookup_insert_ne by done. exact H.
    + rewrite Ha by lia. rewrite (obs_ext _ s) by done.
      destruct (decide (i = j)) as [Heq|Hne]; [subst j|].
      * change (sel (set_delay_display s i None) i) with (sel s i).
        rewrite Hs. discriminate.
      * exact Hon.
Qed.

Lemma held_run (es : list event) (s s' : state) :
  wf s -> held s -> run s es = Some s' ->
  forallb (fun e => negb (reselects i e)) es = true -> held s'.
Proof.
  revert s; induction es as [|e es IH]; intros s Hwf Hh; cbn [run forallb].
  - now intros [= <-].
  - destruct (step s e) as [s1|] eqn:E; [|discriminate]. intros Hrun Hes.
    apply andb_true_iff in Hes as [He Hes]. apply negb_true_iff in He.
    apply (IH s1); try done.
    + eapply wf_step; eassumption.
    + eapply held_step; eassumption.
Qed.

(** The deselecting write itself: the active bit stays set, the timer is
    armed for 25 ms later and the output is untouched. *)
Lemma held_enter (s : state) (data : Z) :
  wf s -> sel s i = true -> Z.testbit data (Z.of_nat i) = false ->
  T = now s + 25000 -> obs s = v -> held (control_w s data).
Proof.
  intros Hwf Hs Hd HT Hv. rewrite control_w_eq.
  assert (Ha : Z.testbit (foldl (active_bit data) (m_led_active s) (seq 0 6))
                 (Z.of_nat i) = true).
  { rewrite active_bits_testbit, Hd by lia. rewrite orb_false_r.
    now apply (wf_subset s Hwf). }
  split; [split|].
  - exact Hd.
  - left. unfold pending, timer_of, act.
    cbn [m_led_active m_delay_display now]. split; [|split; [exact Ha | lia]].
    erewrite write_at_hit; [rewrite HT; reflexivity | apply elem_of_seq; lia | |].
    + unfold timer_write. now rewrite Hd, Hs.
    + now rewrite (wf_timers s Hwf).
  - rewrite (obs_ext _ s) by done. unfold act. cbn [m_led_active].
    now rewrite Ha.
Qed.

End Hold.

(** A deselected digit shows its last value while its timer is armed and is
    blank once the timer has fired. *)
Lemma digit_held (s s' : state) (i : nat) (data : Z) (es : list event) :
  wf s -> (i < 4)%nat -> sel s i = true -> Z.testbit data (Z.of_nat i) = false ->
  run (control_w s data) es = Some s' ->
  forallb (fun e => negb (reselects i e)) es = true ->
  sel s' i = false /\
  ((timer_of s' i = Some (Some (now s + 25000)) /\ now s' <= now s + 25000 /\
    digit s' i = digit s i) \/
   (timer_of s' i = Some None /\ now s + 25000 <= now s' /\ digit s' i = 0)).
Proof.
  intros Hwf Hi Hs Hd Hrun Hes.
  assert (Hext : forall s1 s2 : state,
    m_out_digit s1 = m_out_digit s2 -> m_out_led s1 = m_out_led s2 ->
    digit s1 i = digit s2 i).
  { intros s1 s2 E _. unfold digit. now rewrite E. }
  assert (Hh : held i (now s + 25000) (digit s i) (fun s => digit s i) s').
  { apply (held_run i _ _ _ ltac:(lia) Hext) with (es := es) (s := control_w s data);
      [|now apply wf_control_w| |exact Hrun|exact Hes].
    - intros s1 Hwf1 Hs1 Hv. rewrite update_display_digit, Hs1 by (lia || apply Hwf1).
      destruct (act s1 i) eqn:Ea; [now apply Hv | reflexivity].
    - apply held_enter; try done; lia. }
  destruct Hh as [[Hs' [(Ht&Ha&Hn)|(Ht&Ha&Hn)]] Ho]; rewrite Ha in Ho;
    (split; [exact Hs'|]); [left|right]; done.
Qed.

(** The same for the two LED lines d4 and d5. *)
Lemma led_held (s s' : state) (k : nat) (data : Z) (es : list event) :
  wf s -> (k < 2)%nat -> sel s (4 + k) = true -> led s k = 1 ->
  Z.testbit data (Z.of_nat (4 + k)) = false ->
  run (control_w s data) es = Some s' ->
  forallb (fun e => negb (reselects (4 + k) e)) es = true ->
  sel s' (4 + k) = false /\
  ((timer_of s' (4 + k) = Some (Some (now s + 25000)) /\ now s' <= now s + 25000 /\
    led s' k = 1) \/
   (timer_of s' (4 + k) = Some None /\ now s + 25000 <= now s' /\ led s' k = 0)).
Proof.
  intros Hwf Hk Hs Hl Hd Hrun Hes.
  assert (Hext : forall s1 s2 : state,
    m_out_digit s1 = m_out_digit s2 -> m_out_led s1 = m_out_led s2 ->
    led s1 k = led s2 k).
  { intros s1 s2 _ E. unfold led. now rewrite E. }
  assert (Hh : held (4 + k) (now s + 25000) 1 (fun s => led s k) s').
  { apply (held_run (4 + k) _ _ _ ltac:(lia) Hext) with (es := es) (s := control_w s data);
      [|now apply wf_control_w| |exact Hrun|exact Hes].
    - intros s1 Hwf1 Hs1 Hv. rewrite update_display_led by (lia || apply Hwf1).
      now destruct (act s1 (4 + k)).
    - apply held_enter; try done; lia. }
  destruct Hh as [[Hs' [(Ht&Ha&Hn)|(Ht&Ha&Hn)]] Ho]; rewrite Ha in Ho;
    (split; [exact Hs'|]); [left|right]; done.
Qed.

(** When the clock has reached the deadline of the pending timer, the timer
    fires and the held digit goes blank. *)
Lemma digit_fire (s s' : state) (i : nat) (data : Z) (es : list event) :
  wf s -> (i < 4)%nat -> sel s i = true -> Z.testbit data (Z.of_nat i) = false ->
  run (control_w s data) es = Some s' ->
  forallb (fun e => negb (reselects i e)) es = true ->
  timer_of s' i = Some (Some (now s + 25000)) -> now s' = now s + 25000 ->
  exists s'', step s' (FireDisplay i) = Some s'' /\ digit s'' i = 0 /\ now s'' = now s'.
Proof.
  intros Hwf Hi Hs Hd Hrun Hes Ht Hnow.
  exists (delay_display (set_delay_display s' i None) i).
  assert (Hstep : step s' (FireDisplay i) =
                  Some (delay_display (set_delay_display s' i None) i)).
  { cbn [step]. change (m_delay_display s' !! i) with (timer_of s' i).
    rewrite Ht, Hnow, Z.eqb_refl. reflexivity. }
  split; [exact Hstep|].
  assert (Hrun' : run (control_w s data) (es ++ [FireDisplay i]) =
                  Some (delay_display (set_delay_display s' i None) i)).
  { rewrite run_app, Hrun. cbn [run]. now rewrite Hstep. }
  assert (Hes' : forallb (fun e => negb (reselects i e)) (es ++ [FireDisplay i]) = true).
  { rewrite forallb_app, Hes. reflexivity. }
  destruct (digit_held s _ i data _ Hwf Hi Hs Hd Hrun' Hes') as [_ [(Ht' & _)|(_ & _ & H0)]].
  - exfalso. revert Ht'. unfold timer_of.
    rewrite delay_display_eq, update_display_eq.
    cbn [clear_or_keep set_led_active set_delay_display m_delay_display].
    rewrite list_lookup_insert_eq by exact (lookup_lt_Some _ _ _ Ht). discriminate.
  - split; [exact H0|]. now rewrite delay_display_eq, update_display_eq.
Qed.

End Intellect02_Hold.

(** ** Intellect-02: a selected digit follows the data byte *)

Module Intellect02_Lit.
Import Intellect02 Intellect02_Facts Intellect02_Inv.

Lemma refresh_selected (s : state) (i : nat) :
  wf s -> (i < 4)%nat -> sel s i = true ->
  digit (update_display s) i = m_digit_data (update_display s).
Proof.
  intros Hwf Hi Hs. rewrite update_display_digit, Hs by (lia || apply Hwf).
  now rewrite update_display_eq.
Qed.

Lemma selected_step (s s' : state) (i : nat) (e : event) :
  wf s -> (i < 4)%nat -> sel s i = true -> step s e = Some s' ->
  keeps_selected i e = true ->
  sel s' i = true /\
  (if is_refresh e then digit s' i = m_digit_data s'
   else digit s' i = digit s i /\ m_digit_data s' = m_digit_data s).
Proof.
  intros Hwf Hi Hs. destruct e as [data|data|newval|dt| |j]; cbn [step keeps_selected is_refresh].
  - intros [= <-] Hd. rewrite control_w_eq. unfold sel, digit. cbn [m_led_select m_out_digit
      m_digit_data]. done.
  - intros [= <-] _. unfold digit_w. split.
    + unfold sel. now rewrite update_display_eq.
    + apply refresh_selected; [|done|done]. destruct Hwf; split; assumption.
  - intros [= <-] _. done.
  - destruct (_ && _); [|discriminate]. intros [= <-] _. done.
  - destruct (m_delay_update s) as [d|] eqn:Eu; [|discriminate].
    destruct (d =? now s); [|discriminate]. intros [= <-] _.
    unfold delay_update. split.
    + unfold sel. now rewrite update_display_eq.
    + apply refresh_selected; [|done|done].
      destruct Hwf; split; try assumption. discriminate.
  - destruct (m_delay_display s !! j) as [[d|]|] eqn:Ej; try discriminate.
    destruct (d =? now s); [|discriminate]. intros [= <-] _.
    assert (Hj : (j < 6)%nat).
    { rewrite <- (wf_timers s Hwf). exact (lookup_lt_Some _ _ _ Ej). }
    rewrite delay_display_eq. split.
    + unfold sel. now rewrite update_display_eq.
    + apply refresh_selected; [|done|done]. now apply wf_clear_or_keep, wf_disarm.
Qed.

Lemma selected_run (es : list event) (s s' : state) (i : nat) :
  wf s -> (i < 4)%nat -> sel s i = true -> run s es = Some s' ->
  forallb (keeps_selected i) es = true ->
  sel s' i = true /\
  (if existsb is_refresh es then digit s' i = m_digit_data s'
   else digit s' i = digit s i /\ m_digit_data s' = m_digit_data s).
Proof.
  intros Hwf Hi. revert s Hwf.
  induction es as [|e es IH]; intros s Hwf Hs; cbn [run forallb existsb].
  - now intros [= <-] _.
  - destruct (step s e) as [s1|] eqn:E; [|discriminate]. intros Hrun Hes.
    apply andb_true_iff in Hes as [He Hes].
    destruct (selected_step s s1 i e Hwf Hi Hs E He) as [Hs1 H1].
    destruct (IH s1 (wf_step _ _ _ Hwf E) Hs1 Hrun Hes) as [Hs' H']. split; [exact Hs'|].
    destruct (is_refresh e), (existsb is_refresh es); cbn [orb]; try done.
    + destruct H' as [-> ->]. exact H1.
    + destruct H' as [-> ->]. exact H1.
Qed.

(** In a reachable state a selected digit shows the current data byte,
    unless the write that selected it still waits for its coalesced
    refresh. *)
Definition up_to_date (s : state) : Prop :=
  forall i, (i < 4)%nat -> sel s i = true ->
  digit s i = m_digit_data s \/ enabled (m_delay_update s) = true.

Lemma up_to_date_refresh (s : state) : wf s -> up_to_date (update_display s).
Proof.
  intros Hwf i Hi Hs. left. apply refresh_selected; try done.
  unfold sel in *. now rewrite update_display_eq in Hs.
Qed.

Lemma up_to_date_step (s s' : state) (e : event) :
  wf s -> up_to_date s -> step s e = Some s' -> up_to_date s'.
Proof.
  intros Hwf Hu. destruct e as [data|data|newval|dt| |j]; cbn [step].
  - intros [= <-] i Hi _. right. rewrite control_w_eq. cbn [m_delay_update].
    now destruct (m_delay_update s).
  - intros [= <-]. apply up_to_date_refresh. destruct Hwf; split; assumption.
  - intros [= <-]. exact Hu.
  - destruct (_ && _); [|discriminate]. intros [= <-]. exact Hu.
  - destruct (m_delay_update s) as [d|] eqn:Eu; [|discriminate].
    destruct (d =? now s); [|discriminate]. intros [= <-].
    apply up_to_date_refresh. destruct Hwf; split; try assumption. discriminate.
  - destruct (m_delay_display s !! j) as [[d|]|] eqn:Ej; try discriminate.
    destruct (d =? now s); [|discriminate]. intros [= <-].
    assert (Hj : (j < 6)%nat).
    { rewrite <- (wf_timers s Hwf). exact (lookup_lt_Some _ _ _ Ej). }
    rewrite delay_display_eq. apply up_to_date_refresh.
    now apply wf_clear_or_keep, wf_disarm.
Qed.

Lemma up_to_date_run (es : list event) (s s' : state) :
  wf s -> up_to_date s -> run s es = Some s' -> up_to_date s'.
Proof.
  revert s; induction es as [|e es IH]; intros s Hwf Hu; cbn [run].
  - now intros [= <-].
  - destruct (step s e) as [s1|] eqn:E; [|discriminate].
    apply IH; [eapply wf_step | eapply up_to_date_step]; eassumption.
Qed.

Lemma up_to_date_reachable (s : state) : reachable s -> up_to_date s.
Proof.
  intros [es Hes]. apply (up_to_date_run es machine_start s wf_start); [|exact Hes].
  intros i Hi Hs. left. do 4 (destruct i as [|i]; [reflexivity|]). lia.
Qed.

End Intellect02_Lit.

(** ** MK I: what the handlers compute *)

Module MK1_Facts.
Import MK1.

Lemma selected_testbit (s : state) (i : nat) :
  selected s i = negb (Z.testbit (m_digit_select s) (Z.of_nat i)).
Proof. unfold selected. now rewrite truthy_BIT. Qed.

(** What iteration [i] of the digit loop writes. *)
Definition digit_write (s : state) (i : nat) : option Z :=
  if selected s i then Some (segments (m_blink s) (m_digit_data s)) else None.

Lemma mk1_update_digits_eq (l : list nat) (s : state) :
  foldl update_digit s l =
  mkState (m_digit_select s) (m_digit_data s) (m_blink s)
    (foldl (write_at (digit_write s)) (m_out_digit s) l)
    (m_delay_display s) (m_reset_line s) (now s).
Proof.
  revert s; induction l as [|i l IH]; intros s; simpl.
  - now destruct s.
  - rewrite IH. unfold update_digit, write_at, digit_write, selected.
    destruct (negb (truthy (BIT (m_digit_select s) i))); reflexivity.
Qed.

Lemma mk1_update_display_eq (s : state) :
  update_display s =
  mkState (m_digit_select s) (m_digit_data s) (m_blink s)
    (foldl (write_at (digit_write s)) (m_out_digit s) (seq 0 4))
    (m_delay_display s) (m_reset_line s) (now s).
Proof. apply mk1_update_digits_eq. Qed.

Lemma mk1_update_display_digit (s : state) (i : nat) :
  length (m_out_digit s) = 4%nat ->
  digit (update_display s) i =
  if (i <? 4)%nat && selected s i then segments (m_blink s) (m_digit_data s)
  else digit s i.
Proof.
  intros Hlen. rewrite mk1_update_display_eq. unfold digit; cbn [m_out_digit].
  rewrite write_at_lookup.
  destruct (decide _) as [[Hin Hlt]|Hn].
  - apply elem_of_seq in Hin.
    replace (i <? 4)%nat with true by (symmetry; apply Nat.ltb_lt; lia).
    unfold digit_write. now destruct (selected s i).
  - destruct (i <? 4)%nat eqn:Ei; [|reflexivity].
    exfalso. apply Hn. apply Nat.ltb_lt in Ei.
    split; [apply elem_of_seq; lia | lia].
Qed.

(** The select loop of [digit_select_w] arms the timer of every digit whose
    line goes from low (selected) to high. *)
Definition timer_write (data : Z) (s : state) (i : nat) : option timer :=
  if selected s i && Z.testbit data (Z.of_nat i) then Some (adjust (now s) 20000)
  else None.

Lemma select_bits_eq (data : Z) (l : list nat) (s : state) :
  foldl (select_bit data) s l =
  mkState (m_digit_select s) (m_digit_data s) (m_blink s) (m_out_digit s)
    (foldl (write_at (timer_write data s)) (m_delay_display s) l)
    (m_reset_line s) (now s).
Proof.
  revert s; induction l as [|i l IH]; intros s; simpl.
  - now destruct s.
  - rewrite IH. unfold select_bit, write_at, timer_write.
    rewrite selected_testbit, truthy_BIT, Z.land_spec, Z.lnot_spec by lia.
    destruct (negb _ && _); reflexivity.
Qed.

Lemma digit_select_w_eq (s : state) (data : Z) :
  digit_select_w s data =
  update_display
    (mkState data (m_digit_data s) (m_blink s) (m_out_digit s)
       (foldl (write_at (timer_write data s)) (m_delay_display s) (seq 0 4))
       (m_reset_line s) (now s)).
Proof. unfold digit_select_w. now rewrite select_bits_eq. Qed.

(** [reset_switch] switched on: every digit is written with 0. *)
Lemma reset_switch_on (s : state) (newval : Z) :
  newval <> 0 ->
  reset_switch s newval =
  mkState 0xff (m_digit_data s) (m_blink s)
    (foldl (write_at (fun _ => Some 0)) (m_out_digit s) (seq 0 4))
    (m_delay_display s) true (now s).
Proof.
  intros Hn.
  assert (H : forall l s1, foldl (fun s i => set_out_digit s i 0) s1 l =
    mkState (m_digit_select s1) (m_digit_data s1) (m_blink s1)
      (foldl (write_at (fun _ => Some 0)) (m_out_digit s1) l)
      (m_delay_display s1) (m_reset_line s1) (now s1)).
  { induction l as [|i l IH]; intros s1; simpl; [now destruct s1|]. now rewrite IH. }
  unfold reset_switch, truthy.
  rewrite (proj2 (Z.eqb_neq newval 0) Hn). cbn [negb].
  now rewrite H.
Qed.

Lemma reset_switch_off (s : state) : reset_switch s 0 = set_reset_line s false.
Proof. reflexivity. Qed.

Lemma mk1_delay_display_eq (s : state) (param : nat) :
  delay_display s param = if selected s param then s else set_out_digit s param 0.
Proof. unfold delay_display, selected. now destruct (truthy _). Qed.

Lemma mk1_run_app (es1 es2 : list event) (s : state) :
  run s (es1 ++ es2) =
  match run s es1 with Some s1 => run s1 es2 | None => None end.
Proof.
  revert s; induction es1 as [|e es1 IH]; intros s; cbn [run app]; [done|].
  destruct (step s e); [apply IH | done].
Qed.

End MK1_Facts.

(** ** MK I: invariants of the display *)

Module MK1_Inv.
Import MK1 MK1_Facts.

Record wf (s : state) : Prop := mkWf {
  wf_digits : length (m_out_digit s) = 4%nat;
  wf_timers : length (m_delay_display s) = 4%nat;
  wf_display : forall i d, timer_of s i = Some (Some d) -> now s <= d
}.

Lemma mk1_wf_start : wf machine_start.
Proof.
  split; try reflexivity.
  intros i d H. unfold timer_of in H; simpl in H.
  do 4 (destruct i as [|i]; [discriminate|]). discriminate.
Qed.

Lemma mk1_wf_update_display (s : state) : wf s -> wf (update_display s).
Proof.
  intros [H1 H2 H3]. rewrite mk1_update_display_eq. split; try assumption.
  cbn [m_out_digit]. now rewrite write_at_length.
Qed.

Lemma mk1_wf_disarm (s : state) (i : nat) : wf s -> wf (set_delay_display s i None).
Proof.
  intros [H1 H2 H3]. split; try assumption.
  - cbn [set_delay_display m_delay_display]. now rewrite length_insert.
  - intros j d'. unfold timer_of. cbn [set_delay_display m_delay_display now].
    rewrite list_lookup_insert_Some.
    intros [(_ & [=] & _)|[_ Hj]]. now apply (H3 j).
Qed.

Lemma mk1_wf_delay_display (s : state) (i : nat) : wf s -> wf (delay_display s i).
Proof.
  intros Hwf. rewrite mk1_delay_display_eq. destruct (selected s i); [exact Hwf|].
  destruct Hwf as [H1 H2 H3]. split; try assumption.
  cbn [set_out_digit m_out_digit]. now rewrite length_insert.
Qed.

Lemma wf_select (s : state) (data : Z) :
  wf s ->
  wf (mkState data (m_digit_data s) (m_blink s) (m_out_digit s)
        (foldl (write_at (timer_write data s)) (m_delay_display s) (seq 0 4))
        (m_reset_line s) (now s)).
Proof.
  intros [H1 H2 H3]. split; try assumption.
  - cbn [m_delay_display]. now rewrite write_at_length.
  - intros i d. unfold timer_of. cbn [m_delay_display now].
    rewrite write_at_lookup. destruct (decide _) as [_|_]; [|apply H3].
    unfold timer_write, adjust. destruct (_ && _); [|apply H3].
    intros [= <-]. lia.
Qed.

Lemma mk1_wf_step (s s' : state) (e : event) :
  wf s -> step s e = Some s' -> wf s'.
Proof.
  intros Hwf. destruct e as [data|data|newval|keypad| |dt|i]; cbn [step].
  - intros [= <-]. unfold digit_data_w. apply mk1_wf_update_display.
    destruct Hwf; split; assumption.
  - intros [= <-]. rewrite digit_select_w_eq.
    now apply mk1_wf_update_display, wf_select.
  - intros [= <-]. destruct (Z.eq_dec newval 0) as [->|Hn].
    + rewrite reset_switch_off. destruct Hwf; split; assumption.
    + rewrite reset_switch_on by done. destruct Hwf as [H1 H2 H3].
      split; try assumption. cbn [m_out_digit]. now rewrite write_at_length.
  - intros [= <-]. exact Hwf.
  - intros [= <-]. unfold blink. apply mk1_wf_update_display.
    destruct Hwf; split; assumption.
  - destruct (0 <=? dt) eqn:Edt; [|discriminate].
    destruct (none_before _ (m_delay_display s)) eqn:Ens; [|discriminate].
    intros [= <-]. destruct Hwf as [H1 H2 H3]. split; try assumption.
    intros i d Hd. cbn [set_now now]. now apply (none_before_lookup _ _ i d Ens).
  - destruct (m_delay_display s !! i) as [[d|]|] eqn:Ei; try discriminate.
    destruct (d =? now s); [|discriminate]. intros [= <-].
    now apply mk1_wf_delay_display, mk1_wf_disarm.
Qed.

Lemma mk1_wf_run (es : list event) (s s' : state) :
  wf s -> run s es = Some s' -> wf s'.
Proof.
  revert s; induction es as [|e es IH]; intros s Hwf; simpl.
  - now intros [= <-].
  - destruct (step s e) as [s1|] eqn:E; [|discriminate].
    apply IH. eapply mk1_wf_step; eassumption.
Qed.

Lemma mk1_wf_reachable (s : state) : reachable s -> wf s.
Proof. intros [es Hes]. eapply mk1_wf_run; [apply mk1_wf_start | eassumption]. Qed.

Lemma digit_set_out_digit (s : state) (i j : nat) (v : Z) :
  digit (set_out_digit s j v) i =
  if decide (j = i /\ (j < length (m_out_digit s))%nat) then v else digit s i.
Proof.
  unfold digit. cbn [set_out_digit m_out_digit]. rewrite list_lookup_insert.
  now destruct (decide _).
Qed.

(** *** A selected digit shows the decoded data byte *)

Definition shows (s : state) : Prop :=
  forall i, (i < 4)%nat -> selected s i = true ->
  digit s i = segments (m_blink s) (m_digit_data s).

Lemma shows_update_display (s : state) : wf s -> shows (update_display s).
Proof.
  intros Hwf i Hi Hs. rewrite mk1_update_display_digit by apply Hwf.
  rewrite mk1_update_display_eq in *. unfold selected in *. cbn [m_digit_select m_blink
    m_digit_data] in *.
  apply Nat.ltb_lt in Hi. now rewrite Hi, Hs.
Qed.

Lemma selected_ff (s : state) (i : nat) :
  (i < 4)%nat -> m_digit_select s = 0xff -> selected s i = false.
Proof.
  intros Hi E. rewrite selected_testbit, E.
  do 4 (destruct i as [|i]; [reflexivity|]). lia.
Qed.

Lemma shows_step (s s' : state) (e : event) :
  wf s -> shows s -> step s e = Some s' -> shows s'.
Proof.
  intros Hwf Hsh. destruct e as [data|data|newval|keypad| |dt|i]; cbn [step].
  - intros [= <-]. apply shows_update_display. destruct Hwf; split; assumption.
  - intros [= <-]. rewrite digit_select_w_eq.
    now apply shows_update_display, wf_select.
  - intros [= <-]. destruct (Z.eq_dec newval 0) as [->|Hn].
    + exact Hsh.
    + rewrite reset_switch_on by done. intros i Hi Hs.
      now rewrite (selected_ff _ i Hi) in Hs.
  - intros [= <-]. exact Hsh.
  - intros [= <-]. apply shows_update_display. destruct Hwf; split; assumption.
  - destruct (_ && _); [|discriminate]. intros [= <-]. exact Hsh.
  - destruct (m_delay_display s !! i) as [[d|]|] eqn:Ei; try discriminate.
    destruct (d =? now s); [|discriminate]. intros [= <-].
    rewrite mk1_delay_display_eq.
    change (selected (set_delay_display s i None) i) with (selected s i).
    destruct (selected s i) eqn:Es; [exact Hsh|].
    intros k Hk Hsk. rewrite digit_set_out_digit.
    destruct (decide _) as [[<- _]|_].
    + change (selected s i = true) in Hsk. congruence.
    + now apply Hsh.
Qed.

Lemma shows_run (es : list event) (s s' : state) :
  wf s -> shows s -> run s es = Some s' -> shows s'.
Proof.
  revert s; induction es as [|e es IH]; intros s Hwf Hsh; cbn [run].
  - now intros [= <-].
  - destruct (step s e) as [s1|] eqn:E; [|discriminate].
    apply IH; [eapply mk1_wf_step | eapply shows_step]; eassumption.
Qed.

Lemma shows_reachable (s : state) : reachable s -> shows s.
Proof.
  intros [es Hes]. apply (shows_run es machine_start s mk1_wf_start); [|exact Hes].
  intros i Hi Hs. do 4 (destruct i as [|i]; [reflexivity|]). lia.
Qed.

End MK1_Inv.

(** ** MK I: a deselected digit is held until its timer fires *)

Module MK1_Hold.
Import MK1 MK1_Facts MK1_Inv.

Section Hold.

Variables (i : nat) (T v : Z).
Hypothesis Hi : (i < 4)%nat.

Definition held (s : state) : Prop :=
  selected s i = false /\
  ((timer_of s i = Some (Some T) /\ now s <= T /\ digit s i = v) \/
   (timer_of s i = Some None /\ T <= now s /\ digit s i = 0)).

Lemma mk1_held_ext (s s' : state) :
  m_digit_select s' = m_digit_select s -> m_out_digit s' = m_out_digit s ->
  timer_of s' i = timer_of s i -> now s' = now s ->
  held s -> held s'.
Proof.
  intros E1 E2 E3 E4. unfold held, selected, digit. now rewrite E1, E2, E3, E4.
Qed.

Lemma mk1_held_refresh (s : state) : wf s -> held s -> held (update_display s).
Proof.
  intros Hwf Hh.
  assert (Hd : digit (update_display s) i = digit s i).
  { rewrite mk1_update_display_digit by apply Hwf.
    destruct Hh as [-> _]. now rewrite andb_false_r. }
  revert Hh. unfold held. rewrite Hd. rewrite mk1_update_display_eq.
  unfold selected, timer_of. cbn [m_digit_select m_delay_display now]. done.
Qed.

Lemma mk1_held_step (s s' : state) (e : event) :
  wf s -> held s -> step s e = Some s' -> quiet i e = true -> held s'.
Proof.
  intros Hwf Hh. destruct e as [data|data|newval|keypad| |dt|j]; cbn [step quiet].
  - intros [= <-] _. unfold digit_data_w. apply mk1_held_refresh.
    + destruct Hwf; split; assumption.
    + eapply mk1_held_ext; [..|exact Hh]; reflexivity.
  - intros [= <-] Hd. rewrite digit_select_w_eq. apply mk1_held_refresh.
    + now apply wf_select.
    + destruct Hh as [Hs H]. split.
      * rewrite selected_testbit. cbn [m_digit_select]. now rewrite Hd.
      * assert (Ht : foldl (write_at (timer_write data s)) (m_delay_display s) (seq 0 4) !! i
                     = timer_of s i).
        { rewrite write_at_lookup. unfold timer_write at 1. rewrite Hs. cbn [andb].
          now destruct (decide _). }
        unfold timer_of, digit in *. cbn [m_delay_display now m_out_digit].
        now rewrite Ht.
  - intros [= <-] Hn. apply Z.eqb_eq in Hn. subst newval. rewrite reset_switch_off.
    eapply mk1_held_ext; [..|exact Hh]; reflexivity.
  - intros [= <-] _. exact Hh.
  - intros [= <-] _. unfold blink. apply mk1_held_refresh.
    + destruct Hwf; split; assumption.
    + eapply mk1_held_ext; [..|exact Hh]; reflexivity.
  - destruct (0 <=? dt) eqn:Edt; [|discriminate].
    destruct (none_before _ (m_delay_display s)) eqn:Ens; [|discriminate].
    intros [= <-] _. destruct Hh as [Hs H]. split; [exact Hs|].
    destruct H as [(Ht&?&?)|(?&?&?)]; [left|right]; repeat split; try done.
    + cbn [set_now now]. apply (none_before_lookup _ _ i T Ens). exact Ht.
    + cbn [set_now now]. lia.
  - destruct (m_delay_display s !! j) as [[d|]|] eqn:Ej; try discriminate.
    destruct (d =? now s) eqn:Ed; [|discriminate]. intros [= <-] _.
    apply Z.eqb_eq in Ed. subst d.
    rewrite mk1_delay_display_eq.
    change (selected (set_delay_display s j None) j) with (selected s j).
    destruct Hh as [Hs H].
    destruct (decide (i = j)) as [Heq|Hne]; [subst j|].
    + rewrite Hs. split; [exact Hs|]. right.
      destruct H as [(Ht&?&?)|(Ht&?&?)].
      * assert (HT : Some (Some T) = Some (Some (now s))) by (rewrite <- Ht; exact Ej).
        injection HT as HT.
        unfold timer_of. cbn [set_out_digit set_delay_display m_delay_display now].
        rewrite list_lookup_insert_eq by (rewrite (wf_timers s Hwf); done).
        split; [reflexivity|]. split; [lia|].
        rewrite digit_set_out_digit.
        cbn [set_delay_display m_out_digit]. rewrite (wf_digits s Hwf).
        now rewrite decide_True.
      * assert (HT : Some None = Some (Some (now s))) by (rewrite <- Ht; exact Ej).
        discriminate.
    + assert (Hk : held (set_delay_display s j None)).
      { split; [exact Hs|]. unfold timer_of, digit in *.
        cbn [set_delay_display m_delay_display m_out_digit now].
        now rewrite list_lookup_insert_ne by done. }
      destruct (selected s j); [exact Hk|].
      revert Hk. unfold held. rewrite digit_set_out_digit.
      rewrite decide_False by (intros [? _]; congruence). done.
Qed.

Lemma mk1_held_run (es : list event) (s s' : state) :
  wf s -> held s -> run s es = Some s' ->
  forallb (quiet i) es = true -> held s'.
Proof.
  revert s; induction es as [|e es IH]; intros s Hwf Hh; cbn [run forallb].
  - now intros [= <-].
  - destruct (step s e) as [s1|] eqn:E; [|discriminate]. intros Hrun Hes.
    apply andb_true_iff in Hes as [He Hes].
    apply (IH s1); try done.
    + eapply mk1_wf_step; eassumption.
    + eapply mk1_held_step; eassumption.
Qed.

Lemma mk1_held_enter (s : state) (data : Z) :
  wf s -> selected s i = true -> Z.testbit data (Z.of_nat i) = true ->
  T = now s + 20000 -> digit s i = v -> held (digit_select_w s data).
Proof.
  intros Hwf Hs Hd HT Hv. rewrite digit_select_w_eq. apply mk1_held_refresh.
  - now apply wf_select.
  - split.
    + rewrite selected_testbit. cbn [m_digit_select]. now rewrite Hd.
    + left. unfold timer_of, digit in *. cbn [m_delay_display now m_out_digit].
      split; [|split; [lia | exact Hv]].
      erewrite write_at_hit; [rewrite HT; reflexivity | apply elem_of_seq; lia | |].
      * unfold timer_write. now rewrite Hs, Hd.
      * now rewrite (wf_timers s Hwf).
Qed.

End Hold.

Lemma mk1_digit_held (s s' : state) (i : nat) (data : Z) (es : list event) :
  wf s -> (i < 4)%nat -> selected s i = true -> Z.testbit data (Z.of_nat i) = true ->
  run (digit_select_w s data) es = Some s' ->
  forallb (quiet i) es = true ->
  selected s' i = false /\
  ((timer_of s' i = Some (Some (now s + 20000)) /\ now s' <= now s + 20000 /\
    digit s' i = digit s i) \/
   (timer_of s' i = Some None /\ now s + 20000 <= now s' /\ digit s' i = 0)).
Proof.
  intros Hwf Hi Hs Hd Hrun Hes.
  apply (mk1_held_run i _ _ Hi es (digit_select_w s data) s'); try done.
  - apply (mk1_wf_step s _ (DigitSelectW data) Hwf eq_refl).
  - now apply mk1_held_enter.
Qed.

Lemma mk1_digit_fire (s s' : state) (i : nat) (data : Z) (es : list event) :
  wf s -> (i < 4)%nat -> selected s i = true -> Z.testbit data (Z.of_nat i) = true ->
  run (digit_select_w s data) es = Some s' ->
  forallb (quiet i) es = true ->
  timer_of s' i = Some (Some (now s + 20000)) -> now s' = now s + 20000 ->
  exists s'', step s' (FireDisplay i) = Some s'' /\ digit s'' i = 0 /\ now s'' = now s'.
Proof.
  intros Hwf Hi Hs Hd Hrun Hes Ht Hnow.
  exists (delay_display (set_delay_display s' i None) i).
  assert (Hstep : step s' (FireDisplay i) =
                  Some (delay_display (set_delay_display s' i None) i)).
  { cbn [step]. change (m_delay_display s' !! i) with (timer_of s' i).
    rewrite Ht, Hnow, Z.eqb_refl. reflexivity. }
  split; [exact Hstep|].
  assert (Hrun' : run (digit_select_w s data) (es ++ [FireDisplay i]) =
                  Some (delay_display (set_delay_display s' i None) i)).
  { rewrite mk1_run_app, Hrun. cbn [run]. now rewrite Hstep. }
  assert (Hes' : forallb (quiet i) (es ++ [FireDisplay i]) = true).
  { rewrite forallb_app, Hes. reflexivity. }
  destruct (mk1_digit_held s _ i data _ Hwf Hi Hs Hd Hrun' Hes')
    as [_ [(Ht' & _)|(_ & _ & H0)]].
  - exfalso. revert Ht'. unfold timer_of. rewrite mk1_delay_display_eq.
    destruct (selected (set_delay_display s' i None) i).
    all: cbn [set_out_digit set_delay_display m_delay_display].
    all: rewrite list_lookup_insert_eq by exact (lookup_lt_Some _ _ _ Ht); discriminate.
  - split; [exact H0|]. rewrite mk1_delay_display_eq.
    now destruct (selected (set_delay_display s' i None) i).
Qed.

End MK1_Hold.

(** ** Intellect-02: how one event changes the masks, the data and a digit *)

Module Intellect02_Step.
Import Intellect02 Intellect02_Facts Intellect02_Inv Intellect02_Lit.

Lemma step_sel (s s' : state) (e : event) (i : nat) :
  step s e = Some s' ->
  sel s' i = match e with ControlW data => Z.testbit data (Z.of_nat i) | _ => sel s i end.
Proof.
  destruct e as [data|data|newval|dt| |j]; cbn [step].
  - intros [= <-]. now rewrite control_w_eq.
  - intros [= <-]. unfold digit_w, sel. now rewrite update_display_eq.
  - now intros [= <-].
  - destruct (_ && _); [|discriminate]. now intros [= <-].
  - destruct (m_delay_update s) as [d|]; [|discriminate].
    destruct (d =? now s); [|discriminate]. intros [= <-].
    unfold delay_update, sel. now rewrite update_display_eq.
  - destruct (m_delay_display s !! j) as [[d|]|]; try discriminate.
    destruct (d =? now s); [|discriminate]. intros [= <-].
    unfold sel. now rewrite delay_display_eq, update_display_eq.
Qed.

Lemma step_act (s s' : state) (e : event) (i : nat) :
  wf s -> (i < 8)%nat -> step s e = Some s' ->
  act s' i =
  match e with
  | ControlW data => act s i || (Z.testbit data (Z.of_nat i) && bool_decide (i < 6)%nat)
  | FireDisplay j => if decide (i = j) then sel s i else act s i
  | _ => act s i
  end.
Proof.
  intros Hwf Hi. destruct e as [data|data|newval|dt| |j]; cbn [step].
  - intros [= <-]. rewrite control_w_eq. unfold act. cbn [m_led_active].
    rewrite active_bits_testbit by done. do 2 f_equal.
    apply bool_decide_ext. rewrite elem_of_seq. lia.
  - intros [= <-]. unfold digit_w, act. now rewrite update_display_eq.
  - now intros [= <-].
  - destruct (_ && _); [|discriminate]. now intros [= <-].
  - destruct (m_delay_update s) as [d|]; [|discriminate].
    destruct (d =? now s); [|discriminate]. intros [= <-].
    unfold delay_update, act. now rewrite update_display_eq.
  - destruct (m_delay_display s !! j) as [[d|]|] eqn:Ej; try discriminate.
    destruct (d =? now s); [|discriminate]. intros [= <-].
    assert (Hj : (j < 6)%nat).
    { rewrite <- (wf_timers s Hwf). exact (lookup_lt_Some _ _ _ Ej). }
    rewrite delay_display_eq.
    transitivity (act (clear_or_keep (set_delay_display s j None) j) i).
    + unfold act. now rewrite update_display_eq.
    + now rewrite clear_or_keep_act by lia.
Qed.

Lemma step_data (s s' : state) (e : event) :
  step s e = Some s' ->
  m_digit_data s' =
  match e with DigitW data => bitswap8 data 7 0 1 2 3 4 5 6 | _ => m_digit_data s end.
Proof.
  destruct e as [data|data|newval|dt| |j]; cbn [step].
  - intros [= <-]. now rewrite control_w_eq.
  - intros [= <-]. unfold digit_w. now rewrite update_display_eq.
  - now intros [= <-].
  - destruct (_ && _); [|discriminate]. now intros [= <-].
  - destruct (m_delay_update s) as [d|]; [|discriminate].
    destruct (d =? now s); [|discriminate]. intros [= <-].
    unfold delay_update. now rewrite update_display_eq.
  - destruct (m_delay_display s !! j) as [[d|]|]; try discriminate.
    destruct (d =? now s); [|discriminate]. intros [= <-].
    now rewrite delay_display_eq, update_display_eq.
Qed.

(** Every event either leaves a digit alone or applies the refresh rule to
    it, with the masks and the data byte the event leaves behind. *)
Lemma step_digit (s s' : state) (e : event) (i : nat) :
  wf s -> (i < 4)%nat -> step s e = Some s' ->
  digit s' i =
  if is_refresh e then
    if sel s' i then m_digit_data s' else if act s' i then digit s i else 0
  else digit s i.
Proof.
  intros Hwf Hi. destruct e as [data|data|newval|dt| |j]; cbn [step is_refresh].
  - intros [= <-]. now rewrite control_w_eq.
  - intros [= <-]. unfold digit_w. rewrite update_display_digit by (done || apply Hwf).
    unfold sel, act. now rewrite update_display_eq.
  - now intros [= <-].
  - destruct (_ && _); [|discriminate]. now intros [= <-].
  - destruct (m_delay_update s) as [d|]; [|discriminate].
    destruct (d =? now s); [|discriminate]. intros [= <-].
    unfold delay_update. rewrite update_display_digit by (done || apply Hwf).
    unfold sel, act. now rewrite update_display_eq.
  - destruct (m_delay_display s !! j) as [[d|]|]; try discriminate.
    destruct (d =? now s); [|discriminate]. intros [= <-].
    rewrite delay_display_eq. rewrite update_display_digit; [|done|].
    + unfold sel, act. now rewrite update_display_eq.
    + cbn [clear_or_keep set_led_active set_delay_display m_out_digit]. apply Hwf.
Qed.

(** A digit that is neither selected nor active stays blank until a write
    selects it. *)
Definition dark (s : state) (i : nat) : Prop :=
  sel s i = false /\ act s i = false /\ digit s i = 0.

Lemma dark_step (s s' : state) (e : event) (i : nat) :
  wf s -> (i < 4)%nat -> dark s i -> step s e = Some s' ->
  Intellect02.reselects i e = false -> dark s' i.
Proof.
  intros Hwf Hi (Hs & Ha & Hd) Hstep Hq.
  pose proof (step_sel s s' e i Hstep) as Es.
  pose proof (step_act s s' e i Hwf ltac:(lia) Hstep) as Ea.
  pose proof (step_digit s s' e i Hwf Hi Hstep) as Ed.
  assert (Hs' : sel s' i = false).
  { rewrite Es. destruct e; try exact Hs. exact Hq. }
  assert (Ha' : act s' i = false).
  { rewrite Ea. destruct e as [data|data|newval|dt| |j]; try exact Ha.
    - cbn in Hq. now rewrite Ha, Hq.
    - now destruct (decide (i = j)). }
  repeat split; try done.
  rewrite Ed, Hs', Ha', Hd. now destruct (is_refresh e).
Qed.

Lemma dark_run (es : list event) (s s' : state) (i : nat) :
  wf s -> (i < 4)%nat -> dark s i -> run s es = Some s' ->
  forallb (fun e => negb (Intellect02.reselects i e)) es = true -> dark s' i.
Proof.
  intros Hwf Hi. revert s Hwf.
  induction es as [|e es IH]; intros s Hwf Hd; cbn [run forallb].
  - now intros [= <-].
  - destruct (step s e) as [s1|] eqn:E; [|discriminate]. intros Hrun Hes.
    apply andb_true_iff in Hes as [He Hes]. apply negb_true_iff in He.
    apply (IH s1); try done.
    + eapply wf_step; eassumption.
    + eapply dark_step; eassumption.
Qed.

Lemma forallb_weaken {A : Type} (p q : A -> bool) (l : list A) :
  (forall x, p x = true -> q x = true) -> forallb p l = true -> forallb q l = true.
Proof.
  intros Hpq. induction l as [|x l IH]; cbn [forallb]; [done|].
  intros [Hx Hl]%andb_true_iff. rewrite (Hpq x Hx). now apply IH.
Qed.

Lemma timers_keep_data (es : list event) (s s' : state) :
  forallb is_timer_event es = true -> run s es = Some s' ->
  m_digit_data s' = m_digit_data s.
Proof.
  revert s; induction es as [|e es IH]; intros s; cbn [run forallb].
  - now intros _ [= <-].
  - intros [He Hes]%andb_true_iff.
    destruct (step s e) as [s1|] eqn:E; [|discriminate]. intros Hrun.
    rewrite (IH s1 Hes Hrun), (step_data s s1 e E). now destruct e.
Qed.

End Intellect02_Step.

(** * The claims *)

Section Claims_Intellect02.
Import Intellect02 Intellect02_Facts Intellect02_Inv Intellect02_Step.

(** C3 (ActiveMask invariant).  In every reachable state of the Intellect-02
    driver each of the select lines d0-d5 that is set in [m_led_select] is
    also set in [m_led_active] (the mask form: the select mask restricted
    to d0-d5 is contained in the active mask), and whenever an event clears
    bit [i] of [m_led_active], that event is the firing of deflicker timer
    [i]: no port write ever clears a bit. *)
Theorem C3_active_mask_invariant (s : state) (Hreach : reachable s) :
  (forall i, (i < 6)%nat -> sel s i = true -> act s i = true) /\
  Z.land (Z.land (m_led_select s) 0x3f) (m_led_active s) = Z.land (m_led_select s) 0x3f /\
  (forall e s' i, step s e = Some s' -> act s i = true -> act s' i = false ->
     e = FireDisplay i).
Proof.
  apply wf_reachable in Hreach as Hwf. split; [apply Hwf|]. split.
  - apply Z.bits_inj'. intros n Hn. rewrite !Z.land_spec.
    change 63 with (Z.ones 6). rewrite Z.testbit_ones by lia.
    destruct (Z.leb_spec 0 n); [|lia]. cbn [andb].
    destruct (Z.ltb_spec n 6); [|now rewrite !andb_false_r].
    rewrite andb_true_r.
    destruct (Z.testbit (m_led_select s) n) eqn:Es; [|reflexivity].
    pose proof (wf_subset s Hwf (Z.to_nat n) ltac:(lia)) as H6.
    unfold sel, act in H6. rewrite Z2Nat.id in H6 by lia. now rewrite H6.
  - intros e s' i Hstep Ha Ha'.
    assert (Hi : (i < 8)%nat).
    { destruct (Nat.lt_ge_cases i 8) as [|Hge]; [done|].
      unfold act in Ha. rewrite testbit_high in Ha by (apply Hwf || lia). discriminate. }
    pose proof (step_act s s' e i Hwf Hi Hstep) as Ea. rewrite Ha' in Ea.
    destruct e as [data|data|newval|dt| |j]; try congruence.
    + rewrite Ha in Ea. discriminate.
    + destruct (decide (i = j)); congruence.
Qed.

(** Bits 6 and 7 of the byte kept in [m_led_select] are no select lines (d6
    is not connected, d7 enables the beeper) and have no active bit. *)
Example beeper_bit_has_no_active_bit :
  sel (control_w machine_start 0x80) 7 = true /\
  m_led_active (control_w machine_start 0x80) = 0 /\
  m_beeper (control_w machine_start 0x80) = true.
Proof. repeat split. Qed.

Lemma C3_witness :
  act (control_w machine_start 0x21) 5 = true /\
  Z.land (Z.land (m_led_select (control_w machine_start 0x21)) 0x3f)
         (m_led_active (control_w machine_start 0x21)) =
  Z.land (m_led_select (control_w machine_start 0x21)) 0x3f.
Proof.
  assert (H : reachable (control_w machine_start 0x21))
    by (exists [ControlW 0x21]; vm_compute; reflexivity).
  destruct (C3_active_mask_invariant _ H) as (H1 & H2 & _).
  split; [apply H1; [lia | reflexivity] | exact H2].
Defined.

(** The worked example of the refresh rule, for every schedule of the
    timers: [w1], [w2] and [w3] are arbitrary runs of timer events between
    and after the three writes. *)
Lemma refresh_example (w1 w2 : list event) (s2 : state) :
  forallb is_timer_event w1 = true -> forallb is_timer_event w2 = true ->
  run machine_start (ControlW 3 :: w1 ++ DigitW 0x41 :: w2) = Some s2 ->
  wf s2 /\ sel s2 0 = true /\ sel s2 1 = true /\
  m_digit_data s2 = bitswap8 0x41 7 0 1 2 3 4 5 6 /\
  digit s2 0 = m_digit_data s2 /\ digit s2 1 = m_digit_data s2 /\
  dark s2 2 /\ dark s2 3.
Proof.
  intros Hw1 Hw2 Hrun.
  assert (Hwf2 : wf s2) by (eapply wf_run; [apply wf_start | exact Hrun]).
  cbn [run step] in Hrun.
  set (sa := control_w machine_start 3) in *.
  assert (Hwfa : wf sa) by (apply wf_control_w, wf_start).
  assert (Hda : forall i, (2 <= i < 4)%nat -> dark sa i).
  { intros i Hi. apply (dark_step machine_start sa (ControlW 3) i wf_start); try lia.
    - repeat split; unfold sel, act; cbn; try apply Z.bits_0.
      do 4 (destruct i as [|i]; [reflexivity|]). lia.
    - reflexivity.
    - cbn. destruct i as [|[|[|[|i]]]]; try lia; reflexivity. }
  assert (Hall : forall (q : event -> bool),
    (forall e, is_timer_event e = true -> q e = true) -> q (DigitW 0x41) = true ->
    forallb q (w1 ++ DigitW 0x41 :: w2) = true).
  { intros q Hq Hqd. rewrite forallb_app. cbn [forallb]. rewrite Hqd.
    rewrite (forallb_weaken _ q w1 Hq Hw1), (forallb_weaken _ q w2 Hq Hw2). reflexivity. }
  assert (Hsel : forall i, (i < 2)%nat ->
    sel s2 i = true /\ digit s2 i = m_digit_data s2).
  { intros i Hi.
    destruct (Intellect02_Lit.selected_run (w1 ++ DigitW 0x41 :: w2) sa s2 i Hwfa ltac:(lia))
      as [Hs Hd];
      [ | exact Hrun | | ].
    - destruct i as [|[|i]]; try lia; reflexivity.
    - apply Hall; [|reflexivity]. now intros [].
    - split; [exact Hs|]. rewrite existsb_app in Hd. cbn [existsb Intellect02.is_refresh] in Hd.
      now rewrite orb_true_r in Hd. }
  assert (Hdark : forall i, (2 <= i < 4)%nat -> dark s2 i).
  { intros i Hi. apply (dark_run _ sa s2 i Hwfa ltac:(lia) (Hda i Hi) Hrun).
    apply Hall; [|reflexivity]. now intros []. }
  assert (Hdata : m_digit_data s2 = bitswap8 0x41 7 0 1 2 3 4 5 6).
  { rewrite run_app in Hrun. destruct (run sa w1) as [s1|]; [|discriminate].
    cbn [run step] in Hrun. rewrite (timers_keep_data w2 _ s2 Hw2 Hrun).
    apply (step_data s1 _ (DigitW 0x41) eq_refl). }
  destruct (Hsel 0%nat ltac:(lia)) as [? ?]. destruct (Hsel 1%nat ltac:(lia)) as [? ?].
  split; [exact Hwf2|]. repeat split; try done; apply Hdark; lia.
Qed.

(** C4 (refresh rule).  Every refresh of the Intellect-02 display sets digit
    [i] to the decoded data byte [m_digit_data] when bit [i] of the select
    mask is set, leaves it unchanged when only bit [i] of the active mask is
    set, and blanks it otherwise; [m_digit_data] is the decoded
    (bit-permuted) byte last written.  The example: after the writes
    select=0b0011, data=0x41, select=0b0001, under every schedule of the
    timers, digit 0 shows decoded(0x41), digits 2 and 3 are blank, and
    digit 1 shows decoded(0x41) as long as its deflicker timer, armed for 25
    ms after the last write, is pending and is blank once it has fired;
    digits 2 and 3 are blank after the first and the second write as well,
    and digits 0 and 1 show decoded(0x41) after the second. *)
Theorem C4_refresh_rule :
  (forall s, reachable s ->
     (forall i, (i < 4)%nat ->
        digit (update_display s) i =
        if sel s i then m_digit_data s else if act s i then digit s i else 0) /\
     (forall data, m_digit_data (digit_w s data) = bitswap8 data 7 0 1 2 3 4 5 6)) /\
  (forall w1 s1,
     forallb is_timer_event w1 = true ->
     run machine_start (ControlW 3 :: w1) = Some s1 ->
     digit s1 2 = 0 /\ digit s1 3 = 0) /\
  (forall w1 w2 s2,
     forallb is_timer_event w1 = true -> forallb is_timer_event w2 = true ->
     run machine_start (ControlW 3 :: w1 ++ DigitW 0x41 :: w2) = Some s2 ->
     digit s2 0 = bitswap8 0x41 7 0 1 2 3 4 5 6 /\
     digit s2 1 = bitswap8 0x41 7 0 1 2 3 4 5 6 /\
     digit s2 2 = 0 /\ digit s2 3 = 0) /\
  (forall w1 w2 w3 s2 s3,
     forallb is_timer_event w1 = true -> forallb is_timer_event w2 = true ->
     forallb is_timer_event w3 = true ->
     run machine_start (ControlW 3 :: w1 ++ DigitW 0x41 :: w2) = Some s2 ->
     run (control_w s2 1) w3 = Some s3 ->
     digit s3 0 = bitswap8 0x41 7 0 1 2 3 4 5 6 /\
     digit s3 2 = 0 /\ digit s3 3 = 0 /\
     ((Intellect02.timer_of s3 1 = Some (Some (now s2 + 25000)) /\
       now s3 <= now s2 + 25000 /\ digit s3 1 = bitswap8 0x41 7 0 1 2 3 4 5 6) \/
      (Intellect02.timer_of s3 1 = Some None /\
       now s2 + 25000 <= now s3 /\ digit s3 1 = 0))).
Proof.
  split.
  - intros s Hreach. apply wf_reachable in Hreach as Hwf. split.
    + intros i Hi. apply update_display_digit; [done | apply Hwf].
    + intros data. unfold digit_w. now rewrite update_display_eq.
  - split; [|split].
    { intros w1 s1 Hw1 Hrun1.
      assert (Hk : forall i, (2 <= i < 4)%nat -> dark s1 i).
      { intros i Hi. apply (dark_run (ControlW 3 :: w1) machine_start s1 i wf_start); try lia.
        - repeat split; unfold sel, act; cbn; try apply Z.bits_0.
          do 4 (destruct i as [|i]; [reflexivity|]). lia.
        - exact Hrun1.
        - cbn [forallb reselects].
          rewrite (forallb_weaken is_timer_event _ w1) by (done || now intros []).
          destruct i as [|[|[|[|i]]]]; try lia; reflexivity. }
      split; [apply (Hk 2%nat) | apply (Hk 3%nat)]; lia. }
    { intros w1 w2 s2 Hw1 Hw2 Hrun2.
      destruct (refresh_example w1 w2 s2 Hw1 Hw2 Hrun2)
        as (_ & _ & _ & Hdata & Hd0 & Hd1 & Hk2 & Hk3).
      rewrite Hd0, Hd1, Hdata. repeat split; [apply Hk2 | apply Hk3]. }
    intros w1 w2 w3 s2 s3 Hw1 Hw2 Hw3 Hrun2 Hrun3.
    destruct (refresh_example w1 w2 s2 Hw1 Hw2 Hrun2)
      as (Hwf2 & Hs0 & Hs1 & Hdata & Hd0 & Hd1 & Hk2 & Hk3).
    assert (Hq : forall (q : event -> bool),
      (forall e, is_timer_event e = true -> q e = true) -> forallb q w3 = true).
    { intros q Hq. exact (forallb_weaken _ q w3 Hq Hw3). }
    assert (Hwf3 : wf (control_w s2 1)) by now apply wf_control_w.
    assert (Hdata3 : m_digit_data s3 = m_digit_data s2).
    { rewrite (timers_keep_data w3 _ s3 Hw3 Hrun3). now rewrite control_w_eq. }
    split; [|split; [|split]].
    + destruct (Intellect02_Lit.selected_run w3 (control_w s2 1) s3 0 Hwf3 ltac:(lia))
        as [_ Hd]; [now rewrite control_w_eq | exact Hrun3 | apply Hq; now intros [] |].
      destruct (existsb _ w3).
      * now rewrite Hd, Hdata3.
      * destruct Hd as [-> _]. rewrite <- Hdata, <- Hd0. now rewrite control_w_eq.
    + apply (dark_run (ControlW 1 :: w3) s2 s3 2 Hwf2 ltac:(lia) Hk2 Hrun3).
      cbn [forallb]. rewrite Hq by now intros []. reflexivity.
    + apply (dark_run (ControlW 1 :: w3) s2 s3 3 Hwf2 ltac:(lia) Hk3 Hrun3).
      cbn [forallb]. rewrite Hq by now intros []. reflexivity.
    + destruct (Intellect02_Hold.digit_held s2 s3 1 1 w3 Hwf2 ltac:(lia) Hs1 eq_refl Hrun3)
        as [_ H]; [apply Hq; now intros []|].
      rewrite Hd1, Hdata in H. exact H.
Qed.

Lemma C4_witness :
  let w1 := [Wait 15; FireUpdate] in
  let w3 := [Wait 15; FireUpdate; Wait 24985; FireDisplay 1%nat] in
  let s2 := default machine_start (run machine_start (ControlW 3 :: w1 ++ [DigitW 0x41])) in
  let s3 := default machine_start (run (control_w s2 1) w3) in
  digit s3 0 = bitswap8 0x41 7 0 1 2 3 4 5 6 /\
  digit s3 2 = 0 /\ digit s3 3 = 0 /\
  ((Intellect02.timer_of s3 1 = Some (Some (now s2 + 25000)) /\
    now s3 <= now s2 + 25000 /\ digit s3 1 = bitswap8 0x41 7 0 1 2 3 4 5 6) \/
   (Intellect02.timer_of s3 1 = Some None /\
    now s2 + 25000 <= now s3 /\ digit s3 1 = 0)).
Proof.
  apply (proj2 (proj2 (proj2 C4_refresh_rule)) [Wait 15; FireUpdate] []
           [Wait 15; FireUpdate; Wait 24985; FireDisplay 1%nat]); vm_compute; reflexivity.
Defined.

(** C5 (indicator LEDs), as amended.  At each refresh the lose and win LEDs
    are set from bits 4 and 5 of the active mask, outside the digit loop; a
    write that sets select bit 4 or 5 sets the active bit at once, so the
    LED is on at the next refresh.  The active bits 4 and 5 are cleared by
    their deflicker timers like those of the digits, so the fall-off IS
    delayed: after a write clears the select bit of a lit LED, the LED stays
    on while its timer, armed for 25 ms later, is pending and is off once
    the timer has fired. *)
Theorem C5_indicator_leds (s : state) (Hreach : reachable s) :
  (forall k, (k < 2)%nat ->
     led (update_display s) k = BIT (m_led_active s) (4 + k)) /\
  (forall k data, (k < 2)%nat -> Z.testbit data (Z.of_nat (4 + k)) = true ->
     led (update_display (control_w s data)) k = 1) /\
  (forall k data es s', (k < 2)%nat ->
     sel s (4 + k) = true -> led s k = 1 ->
     Z.testbit data (Z.of_nat (4 + k)) = false ->
     run (control_w s data) es = Some s' ->
     forallb (fun e => negb (Intellect02.reselects (4 + k) e)) es = true ->
     sel s' (4 + k) = false /\
     ((Intellect02.timer_of s' (4 + k) = Some (Some (now s + 25000)) /\
       now s' <= now s + 25000 /\ led s' k = 1) \/
      (Intellect02.timer_of s' (4 + k) = Some None /\
       now s + 25000 <= now s' /\ led s' k = 0))).
Proof.
  apply wf_reachable in Hreach as Hwf. split; [|split].
  - intros k Hk. rewrite update_display_led by (done || apply Hwf).
    now rewrite BIT_b2z.
  - intros k data Hk Hd.
    pose proof (wf_control_w s data Hwf) as Hwf'.
    rewrite update_display_led by (done || apply Hwf').
    rewrite (step_act s _ (ControlW data) (4 + k) Hwf ltac:(lia) eq_refl), Hd.
    rewrite bool_decide_eq_true_2 by lia. now rewrite orb_true_r.
  - intros k data es s' Hk Hs Hl Hd Hrun Hes.
    now apply (Intellect02_Hold.led_held s s' k data es).
Qed.

Lemma C5_witness :
  let s := default machine_start (run machine_start [ControlW 0x10; Wait 15; FireUpdate]) in
  let s' := default machine_start (run (control_w s 0) [Wait 15; FireUpdate; Wait 24985]) in
  sel s' 4 = false /\
  ((Intellect02.timer_of s' 4 = Some (Some (now s + 25000)) /\
    now s' <= now s + 25000 /\ led s' 0 = 1) \/
   (Intellect02.timer_of s' 4 = Some None /\
    now s + 25000 <= now s' /\ led s' 0 = 0)).
Proof.
  assert (H : reachable
    (default machine_start (run machine_start [ControlW 0x10; Wait 15; FireUpdate])))
    by (exists [ControlW 0x10; Wait 15; FireUpdate]; vm_compute; reflexivity).
  apply (proj2 (proj2 (C5_indicator_leds _ H)) 0%nat 0 [Wait 15; FireUpdate; Wait 24985]);
    (lia || (vm_compute; reflexivity)).
Defined.

(** C5 as stated fails: 24.985 ms after the write that cleared select bit 4,
    and after the refresh that followed it, the lose LED is still on. *)
Lemma C5_counterexample :
  exists s,
    run machine_start
      [ControlW 0x10; Wait 15; FireUpdate; ControlW 0; Wait 15; FireUpdate; Wait 24970]
    = Some s /\
    BIT (m_led_select s) 4 = 0 /\ led s 0 = 1 /\ now s = 25000.
Proof. eexists. split; [vm_compute; reflexivity|]. repeat split. Qed.

End Claims_Intellect02.

Section Claims_Deflicker.

(** C2 (deflicker bound).  Intellect-02: when [control_w] clears the select
    bit of a selected digit [i] at time [now s], then, as long as no later
    write selects the digit again, the digit keeps the output it had while
    its timer, armed for exactly 25000 us later, is pending (the clock
    cannot pass that deadline without the timer firing), the timer fires
    when the clock reaches the deadline and blanks the digit, and the digit
    stays blank afterwards; if a write selects the digit again while the
    timer is pending, then for as long as it stays selected the digit shows
    either the held output or the decoded current data byte: it is never
    blanked.  MK I: the same with [digit_select_w] raising the (active-low)
    select line and a delay of 20000 us, for runs in which the reset switch
    is not switched on; after re-selection the digit shows the decoded data
    byte whenever it is selected. *)
Theorem C2_deflicker_bound :
  (forall (s s' : Intellect02.state) (i : nat) (data : Z) (es : list Intellect02.event),
     Intellect02.reachable s -> (i < 4)%nat ->
     Intellect02.sel s i = true -> Z.testbit data (Z.of_nat i) = false ->
     Intellect02.run (Intellect02.control_w s data) es = Some s' ->
     forallb (fun e => negb (Intellect02.reselects i e)) es = true ->
     Intellect02.sel s' i = false /\
     ((Intellect02.timer_of s' i = Some (Some (Intellect02.now s + 25000)) /\
       Intellect02.now s' <= Intellect02.now s + 25000 /\
       Intellect02.digit s' i = Intellect02.digit s i) \/
      (Intellect02.timer_of s' i = Some None /\
       Intellect02.now s + 25000 <= Intellect02.now s' /\
       Intellect02.digit s' i = 0)) /\
     (Intellect02.timer_of s' i = Some (Some (Intellect02.now s + 25000)) ->
      Intellect02.now s' = Intellect02.now s + 25000 ->
      exists s'', Intellect02.step s' (Intellect02.FireDisplay i) = Some s'' /\
                  Intellect02.digit s'' i = 0 /\ Intellect02.now s'' = Intellect02.now s') /\
     (forall (data' : Z) (es' : list Intellect02.event) (s'' : Intellect02.state),
        Intellect02.timer_of s' i = Some (Some (Intellect02.now s + 25000)) ->
        Z.testbit data' (Z.of_nat i) = true ->
        Intellect02.run (Intellect02.control_w s' data') es' = Some s'' ->
        forallb (Intellect02.keeps_selected i) es' = true ->
        Intellect02.sel s'' i = true /\
        (Intellect02.digit s'' i = Intellect02.digit s i \/
         Intellect02.digit s'' i = Intellect02.m_digit_data s''))) /\
  (forall (s s' : MK1.state) (i : nat) (data : Z) (es : list MK1.event),
     MK1.reachable s -> (i < 4)%nat ->
     MK1.selected s i = true -> Z.testbit data (Z.of_nat i) = true ->
     MK1.run (MK1.digit_select_w s data) es = Some s' ->
     forallb (MK1.quiet i) es = true ->
     MK1.selected s' i = false /\
     ((MK1.timer_of s' i = Some (Some (MK1.now s + 20000)) /\
       MK1.now s' <= MK1.now s + 20000 /\
       MK1.digit s' i = MK1.digit s i) \/
      (MK1.timer_of s' i = Some None /\
       MK1.now s + 20000 <= MK1.now s' /\
       MK1.digit s' i = 0)) /\
     (MK1.timer_of s' i = Some (Some (MK1.now s + 20000)) ->
      MK1.now s' = MK1.now s + 20000 ->
      exists s'', MK1.step s' (MK1.FireDisplay i) = Some s'' /\
                  MK1.digit s'' i = 0 /\ MK1.now s'' = MK1.now s') /\
     (forall (data' : Z) (es' : list MK1.event) (s'' : MK1.state),
        MK1.timer_of s' i = Some (Some (MK1.now s + 20000)) ->
        Z.testbit data' (Z.of_nat i) = false ->
        MK1.run (MK1.digit_select_w s' data') es' = Some s'' ->
        MK1.selected s'' i = true ->
        MK1.digit s'' i = MK1.segments (MK1.m_blink s'') (MK1.m_digit_data s''))).
Proof.
  split.
  - intros s s' i data es Hreach Hi Hs Hd Hrun Hes.
    apply Intellect02_Inv.wf_reachable in Hreach as Hwf.
    destruct (Intellect02_Hold.digit_held s s' i data es Hwf Hi Hs Hd Hrun Hes) as [Hs' H].
    split; [exact Hs'|]. split; [exact H|].
    split; [now apply (Intellect02_Hold.digit_fire s s' i data es)|].
    intros data' es' s'' Ht Hd' Hrun' Hes'.
    destruct H as [(_ & _ & Hdig)|(Ht' & _)]; [|rewrite Ht in Ht'; discriminate].
    assert (Hwf' : Intellect02_Inv.wf s').
    { eapply Intellect02_Inv.wf_run; [|exact Hrun]. now apply Intellect02_Inv.wf_control_w. }
    destruct (Intellect02_Lit.selected_run es' (Intellect02.control_w s' data') s'' i)
      as [Hs'' Hdig'']; try done.
    + now apply Intellect02_Inv.wf_control_w.
    + now rewrite Intellect02_Facts.control_w_eq.
    + split; [exact Hs''|]. destruct (existsb _ es'); [now right|left].
      destruct Hdig'' as [-> _]. rewrite <- Hdig.
      now rewrite Intellect02_Facts.control_w_eq.
  - intros s s' i data es Hreach Hi Hs Hd Hrun Hes.
    apply MK1_Inv.mk1_wf_reachable in Hreach as Hwf.
    destruct (MK1_Hold.mk1_digit_held s s' i data es Hwf Hi Hs Hd Hrun Hes) as [Hs' H].
    split; [exact Hs'|]. split; [exact H|].
    split; [now apply (MK1_Hold.mk1_digit_fire s s' i data es)|].
    intros data' es' s'' _ _ Hrun' Hs''.
    assert (Hwf' : MK1_Inv.wf s').
    { eapply MK1_Inv.mk1_wf_run; [|exact Hrun].
      apply (MK1_Inv.mk1_wf_step s _ (MK1.DigitSelectW data) Hwf eq_refl). }
    apply (MK1_Inv.shows_run es' (MK1.digit_select_w s' data') s''); try done.
    + apply (MK1_Inv.mk1_wf_step s' _ (MK1.DigitSelectW data') Hwf' eq_refl).
    + rewrite MK1_Facts.digit_select_w_eq.
      now apply MK1_Inv.shows_update_display, MK1_Inv.wf_select.
Qed.

End Claims_Deflicker.

Lemma C2_witness :
  let s := default Intellect02.machine_start
             (Intellect02.run Intellect02.machine_start
                [Intellect02.ControlW 1; Intellect02.DigitW 0x41]) in
  let s' := default Intellect02.machine_start
              (Intellect02.run (Intellect02.control_w s 0)
                 [Intellect02.Wait 15; Intellect02.FireUpdate; Intellect02.Wait 24985;
                  Intellect02.FireDisplay 0%nat]) in
  let m := default MK1.machine_start
             (MK1.run MK1.machine_start [MK1.DigitDataW 0x60]) in
  let m' := default MK1.machine_start
              (MK1.run (MK1.digit_select_w m 0x01) [MK1.Wait 20000; MK1.FireDisplay 0%nat]) in
  (Intellect02.sel s' 0 = false /\
   ((Intellect02.timer_of s' 0 = Some (Some (Intellect02.now s + 25000)) /\
     Intellect02.now s' <= Intellect02.now s + 25000 /\
     Intellect02.digit s' 0 = Intellect02.digit s 0) \/
    (Intellect02.timer_of s' 0 = Some None /\
     Intellect02.now s + 25000 <= Intellect02.now s' /\
     Intellect02.digit s' 0 = 0))) /\
  (MK1.selected m' 0 = false /\
   ((MK1.timer_of m' 0 = Some (Some (MK1.now m + 20000)) /\
     MK1.now m' <= MK1.now m + 20000 /\
     MK1.digit m' 0 = MK1.digit m 0) \/
    (MK1.timer_of m' 0 = Some None /\
     MK1.now m + 20000 <= MK1.now m' /\
     MK1.digit m' 0 = 0))).
Proof.
  intros s s' m m'.
  assert (H : Intellect02.reachable s)
    by (exists [Intellect02.ControlW 1; Intellect02.DigitW 0x41]; vm_compute; reflexivity).
  assert (Hm : MK1.reachable m)
    by (exists [MK1.DigitDataW 0x60]; vm_compute; reflexivity).
  split.
  - destruct (proj1 C2_deflicker_bound s s' 0%nat 0
                [Intellect02.Wait 15; Intellect02.FireUpdate; Intellect02.Wait 24985;
                 Intellect02.FireDisplay 0%nat] H) as (H1 & H2 & _);
      try (vm_compute; reflexivity); try lia.
    split; [exact H1 | exact H2].
  - destruct (proj2 C2_deflicker_bound m m' 0%nat 0x01
                [MK1.Wait 20000; MK1.FireDisplay 0%nat] Hm) as (H1 & H2 & _);
      try (vm_compute; reflexivity); try lia.
    split; [exact H1 | exact H2].
Defined.

Section Claims_Hold.

(** C1 (hold invariant), as amended.  A digit whose select bit stays set is
    never blanked.  MK I: in every reachable state a selected digit shows
    the decoded current data byte, and a deflicker timer that fires while
    its digit is selected changes nothing but its own armed flag.
    Intellect-02: a digit that stays selected keeps the output it had until
    the first refresh and from then on shows the decoded current data byte
    (in a reachable state it shows that byte unless the coalesced refresh
    is still pending); a deflicker timer that fires while its digit is
    selected re-runs the refresh, so the digit then shows the decoded
    current data byte, which leaves the output as it was only when the
    digit was already up to date. *)
Theorem C1_hold_invariant :
  (forall s : MK1.state, MK1.reachable s ->
     (forall i, (i < 4)%nat -> MK1.selected s i = true ->
        MK1.digit s i = MK1.segments (MK1.m_blink s) (MK1.m_digit_data s)) /\
     (forall i s', MK1.selected s i = true ->
        MK1.step s (MK1.FireDisplay i) = Some s' ->
        s' = MK1.set_delay_display s i None)) /\
  (forall s : Intellect02.state, Intellect02.reachable s ->
     (forall i, (i < 4)%nat -> Intellect02.sel s i = true ->
        Intellect02.digit s i = Intellect02.m_digit_data s \/
        enabled (Intellect02.m_delay_update s) = true) /\
     (forall i es s', (i < 4)%nat -> Intellect02.sel s i = true ->
        Intellect02.run s es = Some s' ->
        forallb (Intellect02.keeps_selected i) es = true ->
        Intellect02.sel s' i = true /\
        (if existsb Intellect02.is_refresh es
         then Intellect02.digit s' i = Intellect02.m_digit_data s'
         else Intellect02.digit s' i = Intellect02.digit s i /\
              Intellect02.m_digit_data s' = Intellect02.m_digit_data s)) /\
     (forall i s', (i < 4)%nat -> Intellect02.sel s i = true ->
        Intellect02.step s (Intellect02.FireDisplay i) = Some s' ->
        Intellect02.digit s' i = Intellect02.m_digit_data s /\
        Intellect02.m_digit_data s' = Intellect02.m_digit_data s) /\
     (forall e s', Intellect02.step s e = Some s' ->
        Intellect02.m_digit_data s' =
        match e with
        | Intellect02.DigitW data => bitswap8 data 7 0 1 2 3 4 5 6
        | _ => Intellect02.m_digit_data s
        end)).
Proof.
  split.
  - intros s Hreach. split.
    + now apply MK1_Inv.shows_reachable.
    + intros i s' Hs. cbn [MK1.step].
      destruct (MK1.m_delay_display s !! i) as [[d|]|]; try discriminate.
      destruct (d =? MK1.now s); [|discriminate]. intros [= <-].
      rewrite MK1_Facts.mk1_delay_display_eq.
      change (MK1.selected (MK1.set_delay_display s i None) i) with (MK1.selected s i).
      now rewrite Hs.
  - intros s Hreach. apply Intellect02_Inv.wf_reachable in Hreach as Hwf.
    split; [|split; [|split]].
    + now apply Intellect02_Lit.up_to_date_reachable.
    + intros i es s' Hi Hs Hrun Hes.
      now apply (Intellect02_Lit.selected_run es s s' i).
    + intros i s' Hi Hs Hstep.
      destruct (Intellect02_Lit.selected_step s s' i _ Hwf Hi Hs Hstep eq_refl) as [_ Hd].
      cbn in Hd. pose proof (Intellect02_Step.step_data s s' _ Hstep) as Hdata.
      cbn in Hdata. now rewrite Hd, Hdata.
    + intros e s' Hstep. now apply Intellect02_Step.step_data.
Qed.

Lemma C1_witness :
  let m := default MK1.machine_start
             (MK1.run MK1.machine_start
                [MK1.DigitSelectW 0xfe; MK1.DigitSelectW 0xfd; MK1.DigitDataW 0x60]) in
  let s := default Intellect02.machine_start
             (Intellect02.run Intellect02.machine_start
                [Intellect02.DigitW 0x41; Intellect02.ControlW 2]) in
  MK1.digit m 1 = MK1.segments (MK1.m_blink m) (MK1.m_digit_data m) /\
  (Intellect02.digit s 1 = Intellect02.m_digit_data s \/
   enabled (Intellect02.m_delay_update s) = true).
Proof.
  intros m s.
  assert (Hm : MK1.reachable m)
    by (exists [MK1.DigitSelectW 0xfe; MK1.DigitSelectW 0xfd; MK1.DigitDataW 0x60];
        vm_compute; reflexivity).
  assert (Hs : Intellect02.reachable s)
    by (exists [Intellect02.DigitW 0x41; Intellect02.ControlW 2]; vm_compute; reflexivity).
  split.
  - apply (proj1 (proj1 C1_hold_invariant m Hm) 1%nat); [lia | vm_compute; reflexivity].
  - apply (proj1 (proj2 C1_hold_invariant s Hs) 1%nat); [lia | vm_compute; reflexivity].
Defined.

(** C1 as stated fails on the Intellect-02.  Digit 0 is deselected while it
    shows 0x41, the byte 0x42 (decoded 0x21) is written, and the digit is
    selected again 5 us before its deflicker timer expires.  The digit is
    then selected but still shows 0x41, not the decoded byte present at its
    selection; when the timer fires, the callback refreshes the display and
    the digit changes to 0x21: the firing is not a no-op on its output. *)
Lemma C1_counterexample :
  exists s s',
    Intellect02.run Intellect02.machine_start
      [Intellect02.ControlW 1; Intellect02.DigitW 0x41; Intellect02.ControlW 0;
       Intellect02.DigitW 0x42; Intellect02.Wait 15; Intellect02.FireUpdate;
       Intellect02.Wait 24980; Intellect02.ControlW 1; Intellect02.Wait 5] = Some s /\
    BIT (Intellect02.m_led_select s) 0 = 1 /\
    Intellect02.m_digit_data s = bitswap8 0x42 7 0 1 2 3 4 5 6 /\
    Intellect02.digit s 0 = 0x41 /\
    Intellect02.step s (Intellect02.FireDisplay 0) = Some s' /\
    BIT (Intellect02.m_led_select s') 0 = 1 /\
    Intellect02.digit s' 0 = 0x21.
Proof.
  do 2 eexists. split; [vm_compute; reflexivity|].
  split; [reflexivity|]. split; [reflexivity|]. split; [reflexivity|].
  split; [vm_compute; reflexivity|]. split; reflexivity.
Qed.

End Claims_Hold.

(** ** Keypad decoding *)

Section Keypad.

Lemma u8_land (x : Z) : u8 x = Z.land x 255.
Proof. unfold u8. change 255 with (Z.ones 8). now rewrite Z.land_ones by lia. Qed.

Lemma land_small (x : Z) (n : Z) : 0 <= n -> 0 <= x < 2 ^ n -> Z.land x (Z.ones n) = x.
Proof. intros Hn Hx. rewrite Z.land_ones by lia. now apply Z.mod_small. Qed.

Lemma clz_loop_upper (fuel : nat) (val c : Z) :
  c <= clz_loop fuel val c <= c + Z.of_nat fuel.
Proof.
  revert val c; induction fuel as [|fuel IH]; intros val c; cbn [clz_loop]; [lia|].
  destruct (Z.testbit val 31); [lia|].
  specialize (IH (u32 (Z.shiftl val 1)) (c + 1)). lia.
Qed.

Lemma clz_loop_lower (m fuel : nat) (val c : Z) :
  (m <= fuel)%nat -> (m <= 32)%nat -> 0 <= val < 2 ^ (32 - Z.of_nat m) ->
  c + Z.of_nat m <= clz_loop fuel val c.
Proof.
  revert fuel val c; induction m as [|m IH]; intros fuel val c Hm Hm32 Hval.
  - pose proof (clz_loop_upper fuel val c). lia.
  - destruct fuel as [|fuel]; [lia|]. cbn [clz_loop].
    assert (Hlt : val < 2 ^ 31).
    { eapply Z.lt_le_trans; [apply Hval|]. apply Z.pow_le_mono_r; lia. }
    assert (Hb : Z.testbit val 31 = false).
    { rewrite <- (Z.mod_small val (2 ^ 31)) by lia. apply Z.mod_pow2_bits_high. lia. }
    rewrite Hb.
    assert (Hd : 2 * val < 2 ^ (32 - Z.of_nat m)).
    { replace (32 - Z.of_nat m) with (1 + (32 - Z.of_nat (S m))) by lia.
      rewrite Z.pow_add_r by lia. change (2 ^ 1) with 2. lia. }
    assert (Hu : u32 (Z.shiftl val 1) = 2 * val).
    { unfold u32. rewrite Z.shiftl_mul_pow2 by lia. change (2 ^ 1) with 2.
      rewrite Z.mod_small; [lia|]. split; [lia|].
      eapply Z.lt_le_trans; [rewrite Z.mul_comm; apply Hd|]. apply Z.pow_le_mono_r; lia. }
    rewrite Hu. specialize (IH fuel (2 * val) (c + 1)). lia.
Qed.

(** On the fifteen button lines of IN.0 the count lies between 17 and 32. *)
Lemma clz_range (k0 : Z) : 0 <= k0 < 2 ^ 15 -> 17 <= count_leading_zeros k0 <= 32.
Proof.
  intros Hk. unfold count_leading_zeros. destruct (k0 =? 0); [lia|].
  pose proof (clz_loop_upper 32 k0 0).
  pose proof (clz_loop_lower 17 32 k0 0 ltac:(lia) ltac:(lia) Hk). lia.
Qed.

Lemma clz_single_key (i : nat) :
  (i < 15)%nat -> count_leading_zeros (2 ^ Z.of_nat i) = 31 - Z.of_nat i.
Proof.
  intros Hi. do 15 (destruct i as [|i]; [vm_compute; reflexivity|]). lia.
Qed.

(** The direct lines: truncating the inverted value to 32 bits before and
    after the shift does not show in bits 4-7. *)
Lemma direct_lines (k1 : Z) :
  Z.land (u32 (Z.shiftl (u32 (Z.lnot k1)) 4)) 0xf0 = Z.land (Z.shiftl (Z.lnot k1) 4) 0xf0.
Proof.
  apply Z.bits_inj'. intros n Hn. rewrite !Z.land_spec.
  destruct (Z.testbit 240 n) eqn:E; [|now rewrite !andb_false_r].
  assert (Hn8 : n < 8).
  { destruct (Z.ltb_spec n 8); [done|].
    rewrite (testbit_high 240 n) in E by lia. discriminate. }
  rewrite !andb_true_r. unfold u32.
  rewrite Z.mod_pow2_bits_low by lia.
  destruct (Z.ltb_spec n 4).
  - now rewrite !Z.shiftl_spec_low by lia.
  - rewrite !Z.shiftl_spec by lia. apply Z.mod_pow2_bits_low. lia.
Qed.

Lemma input_r_nibbles (k0 k1 : Z) :
  0 <= k0 < 2 ^ 15 ->
  0 <= Intellect02.input_r k0 k1 < 256 /\
  Z.land (Intellect02.input_r k0 k1) 0x0f = count_leading_zeros k0 - 17 /\
  Z.land (Intellect02.input_r k0 k1) 0xf0 = Z.land (Z.shiftl (Z.lnot k1) 4) 0xf0.
Proof.
  intros Hk. pose proof (clz_range k0 Hk) as Hc.
  unfold Intellect02.input_r. rewrite direct_lines.
  set (c := count_leading_zeros k0 - 17) in *.
  set (h := Z.shiftl (Z.lnot k1) 4).
  split; [apply u8_range|].
  assert (Hc15 : Z.land c 15 = c) by (apply (land_small c 4); lia).
  rewrite (u8_small c) by lia. rewrite u8_land.
  split.
  - rewrite <- Z.land_assoc. change (Z.land 255 15) with 15.
    rewrite Z.land_lor_distr_l, <- Z.land_assoc. change (Z.land 240 15) with 0.
    now rewrite Z.land_0_r, Z.lor_0_r.
  - rewrite <- Z.land_assoc. change (Z.land 255 240) with 240.
    rewrite Z.land_lor_distr_l, <- (Z.land_assoc h). change (Z.land 240 240) with 240.
    rewrite <- Hc15, <- Z.land_assoc. change (Z.land 15 240) with 0.
    now rewrite Z.land_0_r, Z.lor_0_l.
Qed.

End Keypad.

(** C6 (scancode totality and injectivity, Policy A).  The Intellect-02
    keypad read is a function of the two port values alone.  For every
    value of the fifteen button lines of IN.0, the all-zero one included,
    the result is a byte whose low nibble is [count_leading_zeros] of the
    button field minus 17 and whose high nibble is the inverted direct
    lines shifted left by 4; with no button pressed the low nibble is 15, a
    code no single button produces; and two single-button masks that give
    the same result are the same mask. *)
Theorem C6_scancode (k0 k1 : Z) (Hk0 : 0 <= k0 < 2 ^ 15) :
  0 <= Intellect02.input_r k0 k1 < 256 /\
  Z.land (Intellect02.input_r k0 k1) 0x0f = count_leading_zeros k0 - 17 /\
  Z.land (Intellect02.input_r k0 k1) 0xf0 = Z.land (Z.shiftl (Z.lnot k1) 4) 0xf0 /\
  Z.land (Intellect02.input_r 0 k1) 0x0f = 15 /\
  (forall i, (i < 15)%nat ->
     Z.land (Intellect02.input_r (2 ^ Z.of_nat i) k1) 0x0f = 14 - Z.of_nat i) /\
  (forall i j k1', (i < 15)%nat -> (j < 15)%nat ->
     Intellect02.input_r (2 ^ Z.of_nat i) k1 = Intellect02.input_r (2 ^ Z.of_nat j) k1' ->
     i = j).
Proof.
  assert (Hp : forall i, (i < 15)%nat -> 0 <= 2 ^ Z.of_nat i < 2 ^ 15).
  { intros i Hi. split; [apply Z.pow_nonneg; lia|]. apply Z.pow_lt_mono_r; lia. }
  assert (Hkey : forall i k, (i < 15)%nat ->
    Z.land (Intellect02.input_r (2 ^ Z.of_nat i) k) 0x0f = 14 - Z.of_nat i).
  { intros i k Hi. destruct (input_r_nibbles (2 ^ Z.of_nat i) k (Hp i Hi)) as (_ & -> & _).
    rewrite clz_single_key by done. lia. }
  destruct (input_r_nibbles k0 k1 Hk0) as (H1 & H2 & H3).
  repeat split; try done; try apply H1.
  - destruct (input_r_nibbles 0 k1 ltac:(lia)) as (_ & -> & _). reflexivity.
  - intros i Hi. now apply Hkey.
  - intros i j k1' Hi Hj E.
    pose proof (Hkey i k1 Hi) as Ei. pose proof (Hkey j k1' Hj) as Ej.
    rewrite E in Ei. lia.
Qed.

Lemma C6_witness :
  Z.land (Intellect02.input_r 0x0040 0x2) 0x0f = count_leading_zeros 0x0040 - 17 /\
  Z.land (Intellect02.input_r 0x0040 0x2) 0xf0 = Z.land (Z.shiftl (Z.lnot 0x2) 4) 0xf0.
Proof.
  destruct (C6_scancode 0x0040 0x2 ltac:(lia)) as (_ & H1 & H2 & _).
  split; [exact H1 | exact H2].
Defined.

Section Multiplex.
Import MK1 MK1_Facts.

Lemma mk1_step_data (s s' : state) (e : event) :
  step s e = Some s' ->
  m_digit_data s' = match e with DigitDataW data => data | _ => m_digit_data s end.
Proof.
  destruct e as [data|data|newval|keypad| |dt|i]; cbn [step].
  - intros [= <-]. unfold digit_data_w. now rewrite mk1_update_display_eq.
  - intros [= <-]. now rewrite digit_select_w_eq, mk1_update_display_eq.
  - intros [= <-]. destruct (Z.eq_dec newval 0) as [->|Hn].
    + reflexivity.
    + now rewrite reset_switch_on.
  - now intros [= <-].
  - intros [= <-]. unfold blink. now rewrite mk1_update_display_eq.
  - destruct (_ && _); [|discriminate]. now intros [= <-].
  - destruct (m_delay_display s !! i) as [[d|]|]; try discriminate.
    destruct (d =? now s); [|discriminate]. intros [= <-].
    rewrite mk1_delay_display_eq. now destruct (selected _ _).
Qed.

Lemma mk1_run_data (es : list event) (s s' : state) :
  existsb is_data_write es = false -> run s es = Some s' ->
  m_digit_data s' = m_digit_data s.
Proof.
  revert s; induction es as [|e es IH]; intros s; cbn [run existsb].
  - now intros _ [= <-].
  - intros [He Hes]%orb_false_iff.
    destruct (step s e) as [s1|] eqn:E; [|discriminate]. intros Hrun.
    rewrite (IH s1 Hes Hrun), (mk1_step_data s s1 e E). now destruct e.
Qed.

Lemma input_r_ext (s1 s2 : state) (keypad1 keypad2 : nat -> Z) :
  m_digit_data s1 = m_digit_data s2 ->
  (forall i, (i < 4)%nat -> keypad1 i = keypad2 i) ->
  fst (input_r s1 keypad1) = fst (input_r s2 keypad2).
Proof.
  intros Hd Hk. unfold input_r. cbn [fst foldl seq].
  now rewrite Hd, !Hk by lia.
Qed.

(** C7 (multiplex read determinism, Policy B).  The MK I keypad read leaves
    the driver state as it found it and its value depends only on
    [m_digit_data] and on the four key lines: two states with the same data
    byte and key lines that agree give the same value, so a second read
    after any run of events without a data-port write (other reads, select
    writes, timers, the blink and the reset switch included) returns what
    the first one returned when the key lines are unchanged. *)
Theorem C7_multiplex_read (s : state) (keypad : nat -> Z) :
  snd (input_r s keypad) = s /\
  (forall s2 keypad2,
     m_digit_data s2 = m_digit_data s ->
     (forall i, (i < 4)%nat -> keypad2 i = keypad i) ->
     fst (input_r s2 keypad2) = fst (input_r s keypad)) /\
  (forall es s' keypad',
     run (snd (input_r s keypad)) es = Some s' ->
     existsb is_data_write es = false ->
     (forall i, (i < 4)%nat -> keypad' i = keypad i) ->
     fst (input_r s' keypad') = fst (input_r s keypad)).
Proof.
  split; [reflexivity|]. split.
  - intros s2 keypad2 Hd Hk. now apply input_r_ext.
  - intros es s' keypad' Hrun Hes Hk. apply input_r_ext; [|exact Hk].
    now apply (mk1_run_data es s s').
Qed.

Lemma includes_written (d x y : Z) :
  0 <= d < 256 -> Z.land x d = d -> Z.land (u8 (Z.lor x y)) d = d.
Proof.
  intros Hd Hx. rewrite u8_land, <- Z.land_assoc.
  replace (Z.land 255 d) with d
    by (rewrite Z.land_comm; symmetry; apply (land_small d 8); lia).
  rewrite Z.land_lor_distr_l, Hx.
  apply Z.bits_inj'. intros n _. rewrite Z.lor_spec, Z.land_spec.
  destruct (Z.testbit d n), (Z.testbit y n); reflexivity.
Qed.

(** C10 (the read includes the written byte).  After [digit_data_w] has
    written the byte [data], every keypad read returns a value that
    contains all bits of [data], whatever the key lines are; with no key
    pressed it returns exactly [data]. *)
Theorem C10_read_includes_written (s : state) (data : Z) (keypad : nat -> Z)
    (Hdata : 0 <= data < 256) :
  m_digit_data (digit_data_w s data) = data /\
  Z.land (fst (input_r (digit_data_w s data) keypad)) data = data /\
  ((forall i, (i < 4)%nat -> keypad i = 0) ->
   fst (input_r (digit_data_w s data) keypad) = data).
Proof.
  assert (Hd : m_digit_data (digit_data_w s data) = data).
  { unfold digit_data_w. now rewrite mk1_update_display_eq. }
  split; [exact Hd|]. unfold input_r. rewrite Hd. cbn [fst].
  split.
  - assert (H1 : forall l x, Z.land x data = data ->
      Z.land (foldl (fun acc i => if truthy (Z.land data (keypad i))
                                  then u8 (Z.lor acc (Z.shiftl 1 (Z.of_nat i)))
                                  else acc) x l) data = data).
    { induction l as [|i l IH]; intros x Hx; cbn [foldl]; [exact Hx|].
      apply IH. destruct (truthy _); [now apply includes_written | exact Hx]. }
    assert (H2 : forall l x, Z.land x data = data ->
      Z.land (foldl (fun acc i => if truthy (BIT data i)
                                  then u8 (Z.lor acc (keypad i))
                                  else acc) x l) data = data).
    { induction l as [|i l IH]; intros x Hx; cbn [foldl]; [exact Hx|].
      apply IH. destruct (truthy _); [now apply includes_written | exact Hx]. }
    apply H2, H1, Z.land_diag.
  - intros Hk. cbn [foldl seq]. rewrite !Hk by lia.
    rewrite Z.land_0_r. cbn [truthy Z.eqb negb]. rewrite !Z.lor_0_r.
    repeat (destruct (truthy (BIT data _)); rewrite ?(u8_small data Hdata)).
    all: reflexivity.
Qed.

Lemma C10_witness :
  Z.land (fst (input_r (digit_data_w machine_start 0x21)
                 (fun i => if (i =? 1)%nat then 0x40 else 0))) 0x21 = 0x21.
Proof.
  exact (proj1 (proj2 (C10_read_includes_written machine_start 0x21
           (fun i => if (i =? 1)%nat then 0x40 else 0) ltac:(lia)))).
Defined.

End Multiplex.

Section Claims_Reset.

Definition blanked (s : MK1.state) : Prop :=
  MK1.m_digit_select s = 0xff /\ forall i, (i < 4)%nat -> MK1.digit s i = 0.

Lemma blanked_reset (s : MK1.state) (newval : Z) :
  newval <> 0 -> blanked (MK1.reset_switch s newval).
Proof.
  intros Hn. rewrite MK1_Facts.reset_switch_on by done. split; [reflexivity|].
  intros i Hi. unfold MK1.digit. cbn [MK1.m_out_digit]. rewrite write_at_lookup.
  destruct (decide _) as [_|Hc]; [reflexivity|].
  rewrite lookup_ge_None_2; [reflexivity|].
  apply Nat.nlt_ge. intros Hlt. apply Hc. split; [apply elem_of_seq; lia | exact Hlt].
Qed.

Lemma blanked_step (s s' : MK1.state) (e : MK1.event) :
  MK1_Inv.wf s -> blanked s -> MK1.step s e = Some s' -> MK1.is_port_write e = false ->
  blanked s'.
Proof.
  intros Hwf [Hsel Hd]. destruct e as [data|data|newval|keypad| |dt|j];
    cbn [MK1.step MK1.is_port_write]; try discriminate.
  - intros [= <-] _. destruct (Z.eq_dec newval 0) as [->|Hn].
    + now split.
    + now apply blanked_reset.
  - intros [= <-] _. now split.
  - intros [= <-] _. unfold MK1.blink. rewrite MK1_Facts.mk1_update_display_eq.
    split; [exact Hsel|]. intros i Hi.
    unfold MK1.digit. cbn [MK1.m_out_digit]. rewrite write_at_skip; [now apply Hd|].
    unfold MK1_Facts.digit_write.
    change (MK1.selected (MK1.set_blink s (negb (MK1.m_blink s))) i) with (MK1.selected s i).
    now rewrite (MK1_Inv.selected_ff s i Hi Hsel).
  - destruct (_ && _); [|discriminate]. intros [= <-] _. now split.
  - destruct (MK1.m_delay_display s !! j) as [[d|]|]; try discriminate.
    destruct (d =? MK1.now s); [|discriminate]. intros [= <-] _.
    rewrite MK1_Facts.mk1_delay_display_eq. destruct (MK1.selected _ j); [now split|].
    split; [exact Hsel|]. intros i Hi. rewrite MK1_Inv.digit_set_out_digit.
    destruct (decide _); [reflexivity | now apply Hd].
Qed.

Lemma blanked_run (es : list MK1.event) (s s' : MK1.state) :
  MK1_Inv.wf s -> blanked s -> MK1.run s es = Some s' ->
  existsb MK1.is_port_write es = false -> blanked s'.
Proof.
  revert s; induction es as [|e es IH]; intros s Hwf Hb; cbn [MK1.run existsb].
  - now intros [= <-].
  - destruct (MK1.step s e) as [s1|] eqn:E; [|discriminate].
    intros Hrun [He Hes]%orb_false_iff.
    apply (IH s1); try done.
    + eapply MK1_Inv.mk1_wf_step; eassumption.
    + eapply blanked_step; eassumption.
Qed.

(** C8 (reset immediacy), as amended.  MK I: switching the reset on blanks
    the four digits in the same step and forces the select mask to 0xff,
    whatever the deflicker timers are doing; the timers stay armed, and as
    long as no port write follows, every later event (timers firing, the
    blink, reads, the switch itself) leaves the digits blank and the mask at
    0xff.  Intellect-02: the reset button only drives the CPU's RESET pin;
    it leaves the digit and LED outputs, both masks, the data byte and the
    timers as they are. *)
Theorem C8_reset_immediacy :
  (forall (s : MK1.state) (newval : Z), MK1.reachable s -> newval <> 0 ->
     (forall i, (i < 4)%nat -> MK1.digit (MK1.reset_switch s newval) i = 0) /\
     MK1.m_digit_select (MK1.reset_switch s newval) = 0xff /\
     MK1.m_reset_line (MK1.reset_switch s newval) = true /\
     MK1.m_delay_display (MK1.reset_switch s newval) = MK1.m_delay_display s /\
     (forall es s', MK1.run (MK1.reset_switch s newval) es = Some s' ->
        existsb MK1.is_port_write es = false ->
        MK1.m_digit_select s' = 0xff /\ forall i, (i < 4)%nat -> MK1.digit s' i = 0)) /\
  (forall (s : Intellect02.state) (newval : Z),
     Intellect02.m_reset_line (Intellect02.reset_button s newval) = truthy newval /\
     Intellect02.m_out_digit (Intellect02.reset_button s newval) = Intellect02.m_out_digit s /\
     Intellect02.m_out_led (Intellect02.reset_button s newval) = Intellect02.m_out_led s /\
     Intellect02.m_led_select (Intellect02.reset_button s newval) = Intellect02.m_led_select s /\
     Intellect02.m_led_active (Intellect02.reset_button s newval) = Intellect02.m_led_active s /\
     Intellect02.m_digit_data (Intellect02.reset_button s newval) = Intellect02.m_digit_data s /\
     Intellect02.timers (Intellect02.reset_button s newval) = Intellect02.timers s).
Proof.
  split.
  - intros s newval Hreach Hn. apply MK1_Inv.mk1_wf_reachable in Hreach as Hwf.
    pose proof (blanked_reset s newval Hn) as [Hsel Hd].
    split; [exact Hd|]. split; [exact Hsel|].
    rewrite MK1_Facts.reset_switch_on by done. split; [reflexivity|]. split; [reflexivity|].
    intros es s' Hrun Hes. rewrite <- MK1_Facts.reset_switch_on with (newval := newval) in Hrun
      by done.
    exact (blanked_run es (MK1.reset_switch s newval) s'
             (MK1_Inv.mk1_wf_step s _ (MK1.ResetSwitch newval) Hwf eq_refl)
             (conj Hsel Hd) Hrun Hes).
  - intros s newval. repeat split.
Qed.

Lemma C8_witness :
  let s := default MK1.machine_start
             (MK1.run MK1.machine_start
                [MK1.DigitDataW 0x60; MK1.DigitSelectW 0x01]) in
  MK1.digit s 1 = 6 /\
  (forall i, (i < 4)%nat -> MK1.digit (MK1.reset_switch s 1) i = 0) /\
  MK1.m_digit_select (MK1.reset_switch s 1) = 0xff.
Proof.
  intros s.
  assert (H : MK1.reachable s)
    by (exists [MK1.DigitDataW 0x60; MK1.DigitSelectW 0x01]; vm_compute; reflexivity).
  destruct (proj1 C8_reset_immediacy s 1 H ltac:(lia)) as (H1 & H2 & _).
  split; [vm_compute; reflexivity|]. split; [exact H1 | exact H2].
Defined.

(** C8 as stated fails on the Intellect-02: with digit 0 lit, pressing the
    reset button leaves it lit and the select mask at 1. *)
Lemma C8_counterexample :
  exists s,
    Intellect02.run Intellect02.machine_start
      [Intellect02.ControlW 1; Intellect02.DigitW 0x41] = Some s /\
    Intellect02.digit s 0 = 0x41 /\
    Intellect02.digit (Intellect02.reset_button s 1) 0 = 0x41 /\
    Intellect02.m_led_select (Intellect02.reset_button s 1) = 1 /\
    Intellect02.m_reset_line (Intellect02.reset_button s 1) = true.
Proof. eexists. split; [vm_compute; reflexivity|]. repeat split. Qed.

End Claims_Reset.

(** ** The segment decoders *)

Section Decoder.

Lemma testbit_shifted_bit (x : Z) (b : nat) (m k : Z) :
  0 <= m -> 0 <= k ->
  Z.testbit (Z.shiftl (BIT x b) m) k = (k =? m) && Z.testbit x (Z.of_nat b).
Proof.
  intros Hm Hk. rewrite BIT_b2z, Z.shiftl_spec by lia.
  destruct (Z.eqb_spec k m) as [->|Hne].
  - rewrite Z.sub_diag. now rewrite Z.b2z_bit0.
  - cbn [andb]. destruct (Z.testbit x (Z.of_nat b)); cbn [Z.b2z].
    + destruct (Z.ltb_spec k m).
      * apply Z.testbit_neg_r. lia.
      * change 1 with (2 ^ 0). rewrite Z.pow2_bits_eqb by lia.
        apply Z.eqb_neq. lia.
    + apply Z.bits_0.
Qed.

(** Output bit [k] of [bitswap8] is the input bit its argument list names,
    and there is no output bit above 7. *)
Lemma bitswap8_testbit (val : Z) (b7 b6 b5 b4 b3 b2 b1 b0 : nat) (k : nat) :
  Z.testbit (bitswap8 val b7 b6 b5 b4 b3 b2 b1 b0) (Z.of_nat k) =
  match nth_error [b0; b1; b2; b3; b4; b5; b6; b7] k with
  | Some b => Z.testbit val (Z.of_nat b)
  | None => false
  end.
Proof.
  unfold bitswap8. rewrite <- (Z.shiftl_0_r (BIT val b0)).
  rewrite !Z.lor_spec, !testbit_shifted_bit by lia.
  do 8 (destruct k as [|k]; [cbn; now rewrite ?orb_false_r|]).
  cbn [nth_error].
  repeat match goal with
  | |- context [Z.of_nat ?n =? ?m] =>
      replace (Z.of_nat n =? m) with false by (symmetry; apply Z.eqb_neq; lia)
  end.
  now destruct k.
Qed.

Lemma bitswap8_range (val : Z) (b7 b6 b5 b4 b3 b2 b1 b0 : nat) :
  0 <= bitswap8 val b7 b6 b5 b4 b3 b2 b1 b0 < 256.
Proof.
  unfold bitswap8. rewrite !BIT_b2z.
  destruct (Z.testbit val (Z.of_nat b7)), (Z.testbit val (Z.of_nat b6)),
    (Z.testbit val (Z.of_nat b5)), (Z.testbit val (Z.of_nat b4)),
    (Z.testbit val (Z.of_nat b3)), (Z.testbit val (Z.of_nat b2)),
    (Z.testbit val (Z.of_nat b1)), (Z.testbit val (Z.of_nat b0));
    vm_compute; split; congruence.
Qed.

(** A byte is determined by its eight bits. *)
Lemma byte_eq (a b : Z) :
  0 <= a < 256 -> 0 <= b < 256 ->
  (forall j, (j < 8)%nat -> Z.testbit a (Z.of_nat j) = Z.testbit b (Z.of_nat j)) ->
  a = b.
Proof.
  intros Ha Hb H. apply Z.bits_inj'. intros n Hn.
  destruct (Z.ltb_spec n 8).
  - specialize (H (Z.to_nat n) ltac:(lia)). now rewrite Z2Nat.id in H by lia.
  - now rewrite !testbit_high by lia.
Qed.

Lemma segments_cases (blink : bool) (raw : Z) :
  MK1.segments blink raw =
  if blink && Z.odd raw then 0
  else if raw =? 1 then 0x80
  else Z.land (bitswap8 raw 0 2 1 3 4 5 6 7) 0x7f.
Proof.
  unfold MK1.segments.
  assert (Ho : truthy (Z.land raw 1) = Z.odd raw).
  { change 1 with (Z.ones 1). rewrite Z.land_ones by lia. change (2 ^ 1) with 2.
    rewrite <- Z.bit0_mod, Z.bit0_odd. apply truthy_b2z. }
  rewrite Ho. destruct (blink && Z.odd raw).
  - apply Z.land_0_r.
  - destruct (Z.eqb_spec raw 1) as [->|]; reflexivity.
Qed.

End Decoder.

(** Finds the segment bit a given data bit drives. *)
Ltac find_segment :=
  let try_at k := (exists k; split; [lia | reflexivity]) in
  first [ try_at 0%nat | try_at 1%nat | try_at 2%nat | try_at 3%nat
        | try_at 4%nat | try_at 5%nat | try_at 6%nat | try_at 7%nat ].

(** C9 (segment decoder), as amended.  Both decoders are total and apply a
    fixed permutation of the eight data bits: segment bit [k] is the data
    bit the wiring table names, the result is a byte, and distinct bytes
    decode differently.  The Intellect-02 stores the permuted byte as it
    is.  The MK I decode also depends on the blink phase: while the phase
    is off, raw value 1 decodes to the decimal point alone (0x80) and every
    other raw value to its permutation without the decimal point (masked
    with 0x7f); while the phase is on, every raw value with bit 0 set,
    value 1 included, decodes to blank, and the others as before.  This is
    the value [update_display] writes to every selected digit. *)
Theorem C9_segment_decoder :
  (forall raw k, (k < 8)%nat ->
     Z.testbit (bitswap8 raw 7 0 1 2 3 4 5 6) (Z.of_nat k) =
     Z.testbit raw (Z.of_nat (nth k intellect02_wiring 0%nat)) /\
     Z.testbit (bitswap8 raw 0 2 1 3 4 5 6 7) (Z.of_nat k) =
     Z.testbit raw (Z.of_nat (nth k mk1_wiring 0%nat))) /\
  (forall raw,
     0 <= bitswap8 raw 7 0 1 2 3 4 5 6 < 256 /\
     0 <= bitswap8 raw 0 2 1 3 4 5 6 7 < 256) /\
  (forall a b, 0 <= a < 256 -> 0 <= b < 256 ->
     (bitswap8 a 7 0 1 2 3 4 5 6 = bitswap8 b 7 0 1 2 3 4 5 6 -> a = b) /\
     (bitswap8 a 0 2 1 3 4 5 6 7 = bitswap8 b 0 2 1 3 4 5 6 7 -> a = b)) /\
  (forall (s : Intellect02.state) raw,
     Intellect02.m_digit_data (Intellect02.digit_w s raw) = bitswap8 raw 7 0 1 2 3 4 5 6) /\
  (forall blink raw,
     MK1.segments blink raw =
     if blink && Z.odd raw then 0
     else if raw =? 1 then 0x80
     else Z.land (bitswap8 raw 0 2 1 3 4 5 6 7) 0x7f) /\
  (forall (s : MK1.state) i, MK1.reachable s -> (i < 4)%nat ->
     MK1.selected s i = true ->
     MK1.digit (MK1.update_display s) i = MK1.segments (MK1.m_blink s) (MK1.m_digit_data s)).
Proof.
  assert (Hbits : forall raw k, (k < 8)%nat ->
     Z.testbit (bitswap8 raw 7 0 1 2 3 4 5 6) (Z.of_nat k) =
     Z.testbit raw (Z.of_nat (nth k intellect02_wiring 0%nat)) /\
     Z.testbit (bitswap8 raw 0 2 1 3 4 5 6 7) (Z.of_nat k) =
     Z.testbit raw (Z.of_nat (nth k mk1_wiring 0%nat))).
  { intros raw k Hk. rewrite !bitswap8_testbit.
    do 8 (destruct k as [|k]; [split; reflexivity|]). lia. }
  split; [exact Hbits|]. split; [intros raw; split; apply bitswap8_range|].
  split; [|split; [|split]].
  - intros a b Ha Hb. split; intros E; apply byte_eq; try done; intros j Hj.
    + (* data bit j drives the segment bit found in the table *)
      assert (Hk : exists k, (k < 8)%nat /\ nth k intellect02_wiring 0%nat = j).
      { do 8 (destruct j as [|j];
          [find_segment|]).
        lia. }
      destruct Hk as (k & Hk & <-).
      rewrite <- (proj1 (Hbits a k Hk)), <- (proj1 (Hbits b k Hk)). now rewrite E.
    + assert (Hk : exists k, (k < 8)%nat /\ nth k mk1_wiring 0%nat = j).
      { do 8 (destruct j as [|j];
          [find_segment|]).
        lia. }
      destruct Hk as (k & Hk & <-).
      rewrite <- (proj2 (Hbits a k Hk)), <- (proj2 (Hbits b k Hk)). now rewrite E.
  - intros s raw. unfold Intellect02.digit_w.
    now rewrite Intellect02_Facts.update_display_eq.
  - apply segments_cases.
  - intros s i Hreach Hi Hs. apply MK1_Inv.mk1_wf_reachable in Hreach as Hwf.
    rewrite MK1_Facts.mk1_update_display_digit by apply Hwf.
    apply Nat.ltb_lt in Hi. now rewrite Hi, Hs.
Qed.

(** C9 as stated fails on the MK I while the blink phase is on: the
    reserved raw value 1 decodes to blank instead of 0x80, and so does the
    raw value 3 instead of its permutation without the decimal point. *)
Lemma C9_counterexample :
  exists s,
    MK1.run MK1.machine_start [MK1.Blink; MK1.DigitDataW 1] = Some s /\
    MK1.m_blink s = true /\ MK1.m_digit_data s = 1 /\ MK1.selected s 0 = true /\
    MK1.digit s 0 = 0 /\
    MK1.segments true 1 = 0 /\
    MK1.segments true 3 = 0 /\ Z.land (bitswap8 3 0 2 1 3 4 5 6 7) 0x7f = 0x20.
Proof. eexists. split; [vm_compute; reflexivity|]. repeat split. Qed.

Lemma C9_witness :
  MK1.digit
    (MK1.update_display
       (default MK1.machine_start (MK1.run MK1.machine_start [MK1.DigitDataW 1]))) 0 =
  MK1.segments false 1.
Proof.
  assert (H : MK1.reachable
    (default MK1.machine_start (MK1.run MK1.machine_start [MK1.DigitDataW 1])))
    by (exists [MK1.DigitDataW 1]; vm_compute; reflexivity).
  exact (proj2 (proj2 (proj2 (proj2 (proj2 C9_segment_decoder))))
           _ 0%nat H ltac:(lia) eq_refl).
Defined.

(** * Further properties of the drivers *)

(** ** Intellect-02: timers, masks and outputs in the reachable states *)

Module Intellect02_More.
Import Intellect02 Intellect02_Facts Intellect02_Inv Intellect02_Step.

(** Induction over the reachable states. *)
Lemma reachable_invariant (P : state -> Prop) :
  P machine_start ->
  (forall s e s', wf s -> P s -> step s e = Some s' -> P s') ->
  forall s, reachable s -> P s.
Proof.
  intros H0 Hstep s [es0 Hes].
  assert (H : forall es s0, wf s0 -> P s0 -> run s0 es = Some s -> P s).
  { clear Hes. induction es as [|e es' IH]; intros s0 Hwf HP; cbn [run].
    - now intros [= <-].
    - destruct (step s0 e) as [s1|] eqn:E; [|discriminate].
      apply IH; [eapply wf_step | eapply Hstep]; eassumption. }
  exact (H es0 machine_start wf_start H0 Hes).
Qed.

Lemma step_now (s s' : state) (e : event) :
  step s e = Some s' ->
  now s' = match e with Wait dt => now s + dt | _ => now s end /\
  match e with Wait dt => 0 <= dt | _ => True end.
Proof.
  destruct e as [data|data|newval|dt| |j]; cbn [step].
  - intros [= <-]. now rewrite control_w_eq.
  - intros [= <-]. unfold digit_w. now rewrite update_display_eq.
  - now intros [= <-].
  - destruct (0 <=? dt) eqn:E; [|discriminate]. cbn [andb].
    destruct (none_before _ _); [|discriminate]. intros [= <-]. split; [reflexivity | lia].
  - destruct (m_delay_update s) as [d|]; [|discriminate].
    destruct (d =? now s); [|discriminate]. intros [= <-].
    unfold delay_update. now rewrite update_display_eq.
  - destruct (m_delay_display s !! j) as [[d|]|]; try discriminate.
    destruct (d =? now s); [|discriminate]. intros [= <-].
    now rewrite delay_display_eq, update_display_eq.
Qed.

Lemma step_update_timer (s s' : state) (e : event) :
  step s e = Some s' ->
  m_delay_update s' =
  match e with
  | ControlW _ => if enabled (m_delay_update s) then m_delay_update s
                  else Some (now s + 15)
  | FireUpdate => None
  | _ => m_delay_update s
  end.
Proof.
  destruct e as [data|data|newval|dt| |j]; cbn [step].
  - intros [= <-]. now rewrite control_w_eq.
  - intros [= <-]. unfold digit_w. now rewrite update_display_eq.
  - now intros [= <-].
  - destruct (_ && _); [|discriminate]. now intros [= <-].
  - destruct (m_delay_update s) as [d|]; [|discriminate].
    destruct (d =? now s); [|discriminate]. intros [= <-].
    unfold delay_update. now rewrite update_display_eq.
  - destruct (m_delay_display s !! j) as [[d|]|]; try discriminate.
    destruct (d =? now s); [|discriminate]. intros [= <-].
    now rewrite delay_display_eq, update_display_eq.
Qed.

Lemma step_timer (s s' : state) (e : event) (i : nat) :
  wf s -> (i < 6)%nat -> step s e = Some s' ->
  timer_of s' i =
  match e with
  | ControlW data =>
      if negb (Z.testbit data (Z.of_nat i)) && sel s i
      then Some (Some (now s + 25000)) else timer_of s i
  | FireDisplay j => if decide (j = i) then Some None else timer_of s i
  | _ => timer_of s i
  end.
Proof.
  intros Hwf Hi. destruct e as [data|data|newval|dt| |j]; cbn [step].
  - intros [= <-]. rewrite control_w_eq. unfold timer_of. cbn [m_delay_display].
    rewrite write_at_lookup.
    rewrite decide_True by (split; [apply elem_of_seq; lia | now rewrite (wf_timers s Hwf)]).
    unfold timer_write, adjust.
    destruct (Z.testbit data (Z.of_nat i)); cbn [negb andb]; [reflexivity|].
    now destruct (sel s i).
  - intros [= <-]. unfold digit_w, timer_of. now rewrite update_display_eq.
  - now intros [= <-].
  - destruct (_ && _); [|discriminate]. now intros [= <-].
  - destruct (m_delay_update s) as [d|]; [|discriminate].
    destruct (d =? now s); [|discriminate]. intros [= <-].
    unfold delay_update, timer_of. now rewrite update_display_eq.
  - destruct (m_delay_display s !! j) as [[d|]|] eqn:Ej; try discriminate.
    destruct (d =? now s); [|discriminate]. intros [= <-].
    unfold timer_of. rewrite delay_display_eq, update_display_eq.
    cbn [clear_or_keep set_led_active set_delay_display m_delay_display].
    rewrite list_lookup_insert.
    destruct (decide (j = i)) as [->|Hne].
    + rewrite decide_True; [reflexivity|]. split; [reflexivity|].
      exact (lookup_lt_Some _ _ _ Ej).
    + rewrite decide_False; [reflexivity|]. now intros [? _].
Qed.

Lemma step_led (s s' : state) (e : event) (k : nat) :
  wf s -> (k < 2)%nat -> step s e = Some s' ->
  led s' k = if is_refresh e then Z.b2z (act s' (4 + k)) else led s k.
Proof.
  intros Hwf Hk. destruct e as [data|data|newval|dt| |j]; cbn [step is_refresh].
  - intros [= <-]. now rewrite control_w_eq.
  - intros [= <-]. unfold digit_w. rewrite update_display_led by (done || apply Hwf).
    unfold act. now rewrite update_display_eq.
  - now intros [= <-].
  - destruct (_ && _); [|discriminate]. now intros [= <-].
  - destruct (m_delay_update s) as [d|]; [|discriminate].
    destruct (d =? now s); [|discriminate]. intros [= <-].
    unfold delay_update. rewrite update_display_led by (done || apply Hwf).
    unfold act. now rewrite update_display_eq.
  - destruct (m_delay_display s !! j) as [[d|]|]; try discriminate.
    destruct (d =? now s); [|discriminate]. intros [= <-].
    rewrite delay_display_eq. rewrite update_display_led; [|done|].
    + unfold act. now rewrite update_display_eq.
    + cbn [clear_or_keep set_led_active set_delay_display m_out_led]. apply Hwf.
Qed.

(** Every armed deflicker timer expires within 25 ms, and every line that
    is active without being selected has its timer armed. *)
Definition deadlines_bounded (s : state) : Prop :=
  forall i d, (i < 6)%nat -> timer_of s i = Some (Some d) -> d <= now s + 25000.

Definition held_lines_armed (s : state) : Prop :=
  forall i, (i < 6)%nat -> act s i = true -> sel s i = false ->
  exists d, timer_of s i = Some (Some d).

Lemma deadlines_bounded_reachable (s : state) : reachable s -> deadlines_bounded s.
Proof.
  revert s. apply reachable_invariant.
  - intros i d Hi H. unfold timer_of in H. cbn in H.
    do 6 (destruct i as [|i]; [discriminate|]). discriminate.
  - intros s e s' Hwf IH Hstep i d Hi. unfold deadlines_bounded in IH.
    rewrite (step_timer s s' e i Hwf Hi Hstep).
    destruct (step_now s s' e Hstep) as [Hn Hdt].
    destruct e as [data|data|newval|dt| |j]; rewrite Hn;
      try (intros H; pose proof (IH i d Hi H); lia).
    + destruct (negb _ && _).
      * intros [= <-]. lia.
      * intros H. exact (IH i d Hi H).
    + destruct (decide (j = i)); [discriminate|]. intros H. exact (IH i d Hi H).
Qed.

Lemma held_lines_armed_reachable (s : state) : reachable s -> held_lines_armed s.
Proof.
  revert s. apply reachable_invariant.
  - intros i Hi Ha. unfold act in Ha. cbn in Ha. now rewrite Z.bits_0 in Ha.
  - intros s e s' Hwf IH Hstep i Hi. unfold held_lines_armed in IH.
    rewrite (step_timer s s' e i Hwf Hi Hstep), (step_sel s s' e i Hstep),
      (step_act s s' e i Hwf ltac:(lia) Hstep).
    destruct e as [data|data|newval|dt| |j]; try (now apply IH).
    + intros Ha Hd. rewrite Hd in *. cbn [andb negb] in *. rewrite orb_false_r in Ha.
      destruct (sel s i) eqn:Es; [eauto | now apply IH].
    + destruct (decide (i = j)) as [->|Hne].
      * intros Ha Hs. congruence.
      * rewrite decide_False by congruence. now apply IH.
Qed.

(** No deflicker-timer deadline lies more than 25 ms ahead, and a line that
    is still active after its select bit was cleared always has its timer
    armed: nothing stays lit without a pending switch-off. *)
Theorem no_stuck_line (s : state) (i : nat)
    (Hreach : reachable s) (Hi : (i < 6)%nat)
    (Hact : act s i = true) (Hsel : sel s i = false) :
  exists d, timer_of s i = Some (Some d) /\ now s <= d <= now s + 25000.
Proof.
  destruct (held_lines_armed_reachable s Hreach i Hi Hact Hsel) as [d Hd].
  exists d. split; [exact Hd|]. split.
  - exact (wf_display s (wf_reachable s Hreach) i d Hd).
  - exact (deadlines_bounded_reachable s Hreach i d Hi Hd).
Qed.

Lemma no_stuck_line_witness :
  let s := default machine_start
             (run machine_start [ControlW 0x13; Wait 15; FireUpdate; ControlW 0x01; Wait 7]) in
  exists d, timer_of s 4 = Some (Some d) /\ now s <= d <= now s + 25000.
Proof.
  apply no_stuck_line; try reflexivity; try lia.
  exists [ControlW 0x13; Wait 15; FireUpdate; ControlW 0x01; Wait 7]. vm_compute; reflexivity.
Defined.

(** A pending refresh is never due later than 15 us from now. *)
Definition refresh_bounded (s : state) : Prop :=
  forall d, m_delay_update s = Some d -> d <= now s + 15.

Lemma refresh_bounded_reachable (s : state) : reachable s -> refresh_bounded s.
Proof.
  revert s. apply reachable_invariant.
  - discriminate.
  - intros s e s' Hwf IH Hstep d. unfold refresh_bounded in IH.
    rewrite (step_update_timer s s' e Hstep).
    destruct (step_now s s' e Hstep) as [Hn Hdt].
    destruct e as [data|data|newval|dt| |j]; rewrite Hn;
      try (intros H; pose proof (IH d H); lia); try discriminate.
    destruct (m_delay_update s) as [d0|] eqn:E; cbn [enabled].
    + intros [= <-]. now apply IH.
    + intros [= <-]. lia.
Qed.

(** The coalesced refresh: a pending refresh is due within 15 us, every
    control write leaves one pending, and a write that finds one pending
    does not postpone it. *)
Theorem refresh_latency (s : state) (Hreach : reachable s) :
  (forall d, m_delay_update s = Some d -> now s <= d <= now s + 15) /\
  (forall data,
     (exists d, m_delay_update (control_w s data) = Some d /\ now s <= d <= now s + 15) /\
     (enabled (m_delay_update s) = true ->
      m_delay_update (control_w s data) = m_delay_update s)).
Proof.
  pose proof (wf_reachable s Hreach) as Hwf.
  pose proof (refresh_bounded_reachable s Hreach) as Hb.
  split.
  - intros d Hd. split; [now apply (wf_update s Hwf) | now apply Hb].
  - intros data. rewrite control_w_eq. cbn [m_delay_update].
    destruct (m_delay_update s) as [d|] eqn:E; cbn [enabled]; split; try done.
    + exists d. split; [reflexivity|]. split; [now apply (wf_update s Hwf) | now apply Hb].
    + exists (now s + 15). split; [reflexivity | lia].
Qed.

Lemma refresh_latency_witness :
  let s := default machine_start (run machine_start [ControlW 1; Wait 10]) in
  m_delay_update (control_w s 3) = m_delay_update s /\
  m_delay_update s = Some 15.
Proof.
  intros s.
  assert (H : reachable s) by (exists [ControlW 1; Wait 10]; vm_compute; reflexivity).
  split; [|reflexivity].
  apply (proj2 (proj2 (refresh_latency s H) 3)). reflexivity.
Defined.

(** An output whose active bit is clear is off. *)
Definition inactive_off (s : state) : Prop :=
  (forall i, (i < 4)%nat -> act s i = false -> digit s i = 0) /\
  (forall k, (k < 2)%nat -> act s (4 + k) = false -> led s k = 0).

Lemma act_before (s s' : state) (e : event) (i : nat) :
  wf s -> (i < 8)%nat -> step s e = Some s' -> is_refresh e = false ->
  act s' i = false -> act s i = false.
Proof.
  intros Hwf Hi Hstep Hr. rewrite (step_act s s' e i Hwf Hi Hstep).
  destruct e; try discriminate; try done.
  now intros [? _]%orb_false_iff.
Qed.

Lemma inactive_off_reachable (s : state) : reachable s -> inactive_off s.
Proof.
  revert s. apply reachable_invariant.
  - split.
    + intros i Hi _. do 4 (destruct i as [|i]; [reflexivity|]). lia.
    + intros k Hk _. do 2 (destruct k as [|k]; [reflexivity|]). lia.
  - intros s e s' Hwf [IHd IHl] Hstep. pose proof (wf_step s s' e Hwf Hstep) as Hwf'. split.
    + intros i Hi Ha. rewrite (step_digit s s' e i Hwf Hi Hstep).
      destruct (is_refresh e) eqn:Er.
      * rewrite Ha. destruct (sel s' i) eqn:Es; [|reflexivity].
        rewrite (wf_subset s' Hwf' i ltac:(lia) Es) in Ha. discriminate.
      * apply IHd; [done|]. apply (act_before s s' e i); (done || lia).
    + intros k Hk Ha. rewrite (step_led s s' e k Hwf Hk Hstep).
      destruct (is_refresh e) eqn:Er.
      * now rewrite Ha.
      * apply IHl; [done|]. apply (act_before s s' e (4 + k)); (done || lia).
Qed.

(** In every reachable state a digit or LED whose active bit is clear is
    off: an output can only be lit while its line is active. *)
Theorem inactive_is_off (s : state) (Hreach : reachable s) :
  (forall i, (i < 4)%nat -> digit s i <> 0 -> act s i = true) /\
  (forall k, (k < 2)%nat -> led s k <> 0 -> act s (4 + k) = true).
Proof.
  destruct (inactive_off_reachable s Hreach) as [Hd Hl]. split.
  - intros i Hi Hne. destruct (act s i) eqn:Ea; [reflexivity|]. now apply Hd in Ea.
  - intros k Hk Hne. destruct (act s (4 + k)) eqn:Ea; [reflexivity|]. now apply Hl in Ea.
Qed.

Lemma inactive_is_off_witness :
  let s := default machine_start
             (run machine_start [ControlW 0x02; DigitW 0x7f; ControlW 0; Wait 15]) in
  digit s 1 = 0x7f /\ act s 1 = true.
Proof.
  intros s.
  assert (H : reachable s)
    by (exists [ControlW 0x02; DigitW 0x7f; ControlW 0; Wait 15]; vm_compute; reflexivity).
  split; [reflexivity|]. apply (proj1 (inactive_is_off s H)); [lia | discriminate].
Defined.

(** Only the select lines d0-d5 ever reach the active mask. *)
Definition high_bits_clear (s : state) : Prop :=
  act s 6 = false /\ act s 7 = false /\ m_beeper s = sel s 7.

Lemma high_bits_clear_reachable (s : state) : reachable s -> high_bits_clear s.
Proof.
  revert s. apply reachable_invariant.
  - repeat split.
  - intros s e s' Hwf (H6 & H7 & Hb) Hstep.
    unfold high_bits_clear.
    rewrite (step_sel s s' e 7 Hstep).
    rewrite (step_act s s' e 6 Hwf ltac:(lia) Hstep), (step_act s s' e 7 Hwf ltac:(lia) Hstep).
    destruct e as [data|data|newval|dt| |j]; cbn [step] in Hstep.
    + injection Hstep as <-. rewrite control_w_eq. cbn [m_beeper].
      rewrite H6, H7, !andb_false_r. done.
    + injection Hstep as <-. unfold digit_w. now rewrite update_display_eq.
    + now injection Hstep as <-.
    + destruct (_ && _); [|discriminate]. now injection Hstep as <-.
    + destruct (m_delay_update s) as [d|]; [|discriminate].
      destruct (d =? now s); [|discriminate]. injection Hstep as <-.
      unfold delay_update. now rewrite update_display_eq.
    + destruct (m_delay_display s !! j) as [[d|]|] eqn:Ej; try discriminate.
      destruct (d =? now s); [|discriminate]. injection Hstep as <-.
      assert (Hj : (j < 6)%nat).
      { rewrite <- (wf_timers s Hwf). exact (lookup_lt_Some _ _ _ Ej). }
      rewrite !decide_False by lia.
      now rewrite delay_display_eq, update_display_eq.
Qed.

(** In every reachable state the active mask is a six-bit value: bits 6 and
    7 of the control byte never reach it, whatever is written; bit 7 of the
    latched byte is the state of the beeper. *)
Theorem active_mask_six_bits (s : state) (Hreach : reachable s) :
  0 <= m_led_active s < 64 /\ m_beeper s = sel s 7.
Proof.
  destruct (high_bits_clear_reachable s Hreach) as (H6 & H7 & Hb).
  pose proof (wf_active s (wf_reachable s Hreach)) as Hr.
  split; [|exact Hb]. split; [lia|].
  assert (E : m_led_active s = Z.land (m_led_active s) (Z.ones 6)).
  { apply Z.bits_inj'. intros n Hn. rewrite Z.land_spec, Z.testbit_ones by lia.
    destruct (Z.leb_spec 0 n); [|lia]. cbn [andb].
    destruct (Z.ltb_spec n 6); [now rewrite andb_true_r|]. rewrite andb_false_r.
    destruct (Z.eq_dec n 6) as [->|]; [exact H6|].
    destruct (Z.eq_dec n 7) as [->|]; [exact H7|].
    apply testbit_high; lia. }
  rewrite E, Z.land_ones by lia. apply Z.mod_pos_bound. lia.
Qed.

Lemma active_mask_six_bits_witness :
  let s := default machine_start (run machine_start [ControlW 0xff]) in
  (0 <= m_led_active s < 64 /\ m_beeper s = sel s 7) /\ m_led_select s = 0xff.
Proof.
  intros s. split; [|reflexivity]. apply active_mask_six_bits.
  exists [ControlW 0xff]. vm_compute; reflexivity.
Defined.

(** Each LED shows its active bit, or a refresh is pending. *)
Definition leds_fresh (s : state) : Prop :=
  forall k, (k < 2)%nat ->
  led s k = Z.b2z (act s (4 + k)) \/ enabled (m_delay_update s) = true.

Lemma leds_fresh_reachable (s : state) : reachable s -> leds_fresh s.
Proof.
  revert s. apply reachable_invariant.
  - intros k Hk. left. do 2 (destruct k as [|k]; [reflexivity|]). lia.
  - intros s e s' Hwf IH Hstep k Hk. unfold leds_fresh in IH.
    rewrite (step_led s s' e k Hwf Hk Hstep), (step_update_timer s s' e Hstep).
    destruct (is_refresh e) eqn:Er; [now left|].
    rewrite (step_act s s' e (4 + k) Hwf ltac:(lia) Hstep).
    destruct e as [data|data|newval|dt| |j]; try discriminate; try exact (IH k Hk).
    right. now destruct (m_delay_update s).
Qed.

(** The LEDs show bits 4 and 5 of the active mask whenever no coalesced
    refresh is pending. *)
Theorem leds_follow_active (s : state) (k : nat)
    (Hreach : reachable s) (Hk : (k < 2)%nat)
    (Hidle : m_delay_update s = None) :
  led s k = BIT (m_led_active s) (4 + k).
Proof.
  destruct (leds_fresh_reachable s Hreach k Hk) as [H|H].
  - now rewrite BIT_b2z.
  - rewrite Hidle in H. discriminate.
Qed.

Lemma leds_follow_active_witness :
  let s := default machine_start
             (run machine_start [ControlW 0x20; Wait 15; FireUpdate; ControlW 0;
                                 Wait 15; FireUpdate]) in
  led s 1 = BIT (m_led_active s) 5 /\ led s 1 = 1 /\ sel s 5 = false.
Proof.
  intros s. split; [|split; reflexivity].
  apply (leds_follow_active s 1); [|lia|reflexivity].
  exists [ControlW 0x20; Wait 15; FireUpdate; ControlW 0; Wait 15; FireUpdate].
  vm_compute; reflexivity.
Defined.

End Intellect02_More.

(** ** Repeating a refresh or a write *)

Lemma write_at_idem {A : Type} (f : nat -> option A) (idxs : list nat) (out : list A) :
  foldl (write_at f) (foldl (write_at f) out idxs) idxs = foldl (write_at f) out idxs.
Proof.
  apply list_eq. intros j.
  rewrite (write_at_lookup f idxs (foldl (write_at f) out idxs) j).
  destruct (decide _) as [[Hin Hlt]|Hn]; [|reflexivity].
  rewrite write_at_length in Hlt.
  destruct (f j) as [v|] eqn:E; [|reflexivity].
  symmetry. now apply write_at_hit.
Qed.

Lemma write_at_none {A : Type} (f : nat -> option A) (idxs : list nat) (out : list A) :
  (forall i, f i = None) -> foldl (write_at f) out idxs = out.
Proof.
  intros Hf. apply list_eq. intros j. now apply write_at_skip.
Qed.

Module Intellect02_Idem.
Import Intellect02 Intellect02_Facts Intellect02_Inv.

(** Refreshing twice is refreshing once; so is writing the same data byte
    twice. *)
Theorem update_display_idempotent (s : state) (data : Z) :
  update_display (update_display s) = update_display s /\
  digit_w (digit_w s data) data = digit_w s data.
Proof.
  assert (H : forall s0, update_display (update_display s0) = update_display s0).
  { intros s0. rewrite (update_display_eq (update_display s0)).
    rewrite !(update_display_eq s0).
    unfold digit_write, sel, act.
    cbn [m_digit_data m_led_select m_led_active m_out_digit m_out_led m_delay_update
      m_delay_display m_beeper m_reset_line now].
    f_equal.
    - apply (write_at_idem (fun i =>
        if Z.testbit (m_led_select s0) (Z.of_nat i) then Some (m_digit_data s0)
        else if negb (Z.testbit (m_led_active s0) (Z.of_nat i)) then Some 0 else None)).
    - now destruct (m_out_led s0) as [|x [|y l]]. }
  split; [apply H|].
  unfold digit_w. set (s1 := set_digit_data s (bitswap8 data 7 0 1 2 3 4 5 6)).
  assert (E : set_digit_data (update_display s1) (bitswap8 data 7 0 1 2 3 4 5 6)
              = update_display s1) by (rewrite update_display_eq; reflexivity).
  rewrite E. apply H.
Qed.

Lemma active_bits_idem (data a : Z) (l : list nat) :
  0 <= a < 256 ->
  foldl (active_bit data) (foldl (active_bit data) a l) l = foldl (active_bit data) a l.
Proof.
  intros Ha. pose proof (active_bits_range data l a Ha) as H1.
  apply byte_eq; [now apply active_bits_range | exact H1 |].
  intros j Hj. rewrite !active_bits_testbit by exact Hj.
  destruct (Z.testbit a (Z.of_nat j)), (Z.testbit data (Z.of_nat j) && _); reflexivity.
Qed.

(** Writing the same control byte a second time changes nothing: it arms no
    timer again, does not postpone the pending refresh and leaves the masks
    as they are. *)
Theorem control_w_idempotent (s : state) (data : Z) (Hreach : reachable s) :
  control_w (control_w s data) data = control_w s data.
Proof.
  pose proof (wf_reachable s Hreach) as Hwf.
  rewrite (control_w_eq (control_w s data)). rewrite !(control_w_eq s).
  cbn [m_digit_data m_led_select m_led_active m_out_digit m_out_led m_delay_update
    m_delay_display m_beeper m_reset_line now].
  f_equal.
  - apply active_bits_idem, Hwf.
  - now destruct (m_delay_update s).
  - apply write_at_none. intros i. unfold timer_write, sel. cbn [m_led_select].
    now destruct (Z.testbit data (Z.of_nat i)).
Qed.

Lemma control_w_idempotent_witness :
  let s := default machine_start
             (run machine_start [ControlW 0x0f; Wait 15; FireUpdate; Wait 100]) in
  control_w (control_w s 0x05) 0x05 = control_w s 0x05.
Proof.
  apply control_w_idempotent.
  exists [ControlW 0x0f; Wait 15; FireUpdate; Wait 100]. vm_compute; reflexivity.
Defined.

End Intellect02_Idem.

(** ** Intellect-02: the priority encoder and the segment wiring *)

Section Priority.

Lemma below_bit31 (val : Z) :
  0 <= val < 2 ^ 32 -> Z.testbit val 31 = false -> val < 2 ^ 31.
Proof.
  intros Hv Hb. destruct (Z.lt_ge_cases val (2 ^ 31)) as [|Hge]; [done|].
  assert (E : val / 2 ^ 31 = 1).
  { symmetry. apply Z.div_unique with (r := val - 2 ^ 31); lia. }
  assert (Ht : Z.testbit val 31 = true).
  { apply Z.testbit_true; [lia|]. now rewrite E. }
  congruence.
Qed.

Lemma clz_loop_log2 (fuel : nat) (val c : Z) :
  0 < val < 2 ^ 32 -> 31 - Z.log2 val <= Z.of_nat fuel ->
  clz_loop fuel val c = c + 31 - Z.log2 val.
Proof.
  revert val c; induction fuel as [|fuel IH]; intros val c Hv Hf.
  - assert (Z.log2 val < 32) by (apply Z.log2_lt_pow2; lia). cbn [clz_loop]. lia.
  - cbn [clz_loop]. destruct (Z.testbit val 31) eqn:Hb.
    + assert (31 <= Z.log2 val).
      { apply Z.log2_le_pow2; [lia|].
        destruct (Z.lt_ge_cases val (2 ^ 31)) as [Hlt|]; [|done].
        rewrite <- (Z.mod_small val (2 ^ 31)) in Hb by lia.
        rewrite Z.mod_pow2_bits_high in Hb by lia. discriminate. }
      assert (Z.log2 val < 32) by (apply Z.log2_lt_pow2; lia). lia.
    + pose proof (below_bit31 val ltac:(lia) Hb) as Hlt.
      assert (Hu : u32 (Z.shiftl val 1) = 2 * val).
      { unfold u32. rewrite Z.shiftl_mul_pow2 by lia. change (2 ^ 1) with 2.
        rewrite Z.mod_small; lia. }
      rewrite Hu, IH; rewrite ?Z.log2_double by lia; lia.
Qed.

Lemma count_leading_zeros_log2 (val : Z) :
  0 < val < 2 ^ 32 -> count_leading_zeros val = 31 - Z.log2 val.
Proof.
  intros Hv. unfold count_leading_zeros.
  replace (val =? 0) with false by lia.
  rewrite clz_loop_log2; [lia | exact Hv |].
  pose proof (Z.log2_nonneg val). lia.
Qed.

End Priority.

(** The scancode is a priority code: with any set of buttons of IN.0 held,
    the low nibble is 14 minus the number of the highest pressed line, the
    code that line gives when it is pressed alone. *)
Theorem scancode_priority (k0 k1 : Z) (Hk0 : 0 < k0 < 2 ^ 15) :
  Z.land (Intellect02.input_r k0 k1) 0x0f = 14 - Z.log2 k0 /\
  Z.land (Intellect02.input_r k0 k1) 0x0f =
  Z.land (Intellect02.input_r (2 ^ Z.log2 k0) k1) 0x0f.
Proof.
  assert (Hlog : 0 <= Z.log2 k0 < 15).
  { split; [apply Z.log2_nonneg | apply Z.log2_lt_pow2; lia]. }
  assert (H1 : forall k, 0 < k < 2 ^ 15 ->
    Z.land (Intellect02.input_r k k1) 0x0f = 14 - Z.log2 k).
  { intros k Hk. destruct (input_r_nibbles k k1 ltac:(lia)) as (_ & -> & _).
    rewrite count_leading_zeros_log2 by lia. lia. }
  split; [now apply H1|].
  rewrite !H1; [now rewrite Z.log2_pow2 by lia | | exact Hk0].
  split; [apply Z.pow_pos_nonneg; lia | apply Z.pow_lt_mono_r; lia].
Qed.

Lemma scancode_priority_witness :
  Z.land (Intellect02.input_r 0x2840 0) 0x0f = 14 - Z.log2 0x2840.
Proof. exact (proj1 (scancode_priority 0x2840 0 ltac:(lia))). Defined.

(** The segment wiring of the Intellect-02 is its own inverse: decoding the
    stored byte once more gives back the byte that was written. *)
Theorem digit_w_wiring_involution (s s' : Intellect02.state) (raw : Z)
    (Hraw : 0 <= raw < 256) :
  Intellect02.m_digit_data
    (Intellect02.digit_w s' (Intellect02.m_digit_data (Intellect02.digit_w s raw))) = raw.
Proof.
  unfold Intellect02.digit_w. rewrite !Intellect02_Facts.update_display_eq.
  cbn [Intellect02.m_digit_data Intellect02.set_digit_data].
  apply byte_eq; [apply bitswap8_range | exact Hraw |].
  intros j Hj. rewrite !bitswap8_testbit.
  do 8 (destruct j as [|j]; [cbn [nth_error]; rewrite bitswap8_testbit; reflexivity|]). lia.
Qed.

Lemma digit_w_wiring_involution_witness :
  Intellect02.m_digit_data
    (Intellect02.digit_w Intellect02.machine_start
       (Intellect02.m_digit_data (Intellect02.digit_w Intellect02.machine_start 0x4a))) = 0x4a.
Proof.
  exact (digit_w_wiring_involution Intellect02.machine_start Intellect02.machine_start
           0x4a ltac:(lia)).
Defined.

(** ** MK I: timers and outputs in the reachable states *)

Module MK1_More.
Import MK1 MK1_Facts MK1_Inv.

(** Induction over the reachable states. *)
Lemma mk1_reachable_invariant (P : state -> Prop) :
  P machine_start ->
  (forall s e s', wf s -> P s -> step s e = Some s' -> P s') ->
  forall s, reachable s -> P s.
Proof.
  intros H0 Hstep s [es0 Hes].
  assert (H : forall es s0, wf s0 -> P s0 -> run s0 es = Some s -> P s).
  { clear Hes. induction es as [|e es' IH]; intros s0 Hwf HP; cbn [run].
    - now intros [= <-].
    - destruct (step s0 e) as [s1|] eqn:E; [|discriminate].
      apply IH; [eapply mk1_wf_step | eapply Hstep]; eassumption. }
  exact (H es0 machine_start mk1_wf_start H0 Hes).
Qed.

Lemma mk1_step_now (s s' : state) (e : event) :
  step s e = Some s' ->
  now s' = match e with Wait dt => now s + dt | _ => now s end /\
  match e with Wait dt => 0 <= dt | _ => True end.
Proof.
  destruct e as [data|data|newval|keypad| |dt|i]; cbn [step].
  - intros [= <-]. unfold digit_data_w. now rewrite mk1_update_display_eq.
  - intros [= <-]. now rewrite digit_select_w_eq, mk1_update_display_eq.
  - intros [= <-]. destruct (Z.eq_dec newval 0) as [->|Hn]; [done|].
    now rewrite reset_switch_on.
  - now intros [= <-].
  - intros [= <-]. unfold blink. now rewrite mk1_update_display_eq.
  - destruct (0 <=? dt) eqn:E; [|discriminate]. cbn [andb].
    destruct (none_before _ _); [|discriminate]. intros [= <-]. split; [reflexivity | lia].
  - destruct (m_delay_display s !! i) as [[d|]|]; try discriminate.
    destruct (d =? now s); [|discriminate]. intros [= <-].
    rewrite mk1_delay_display_eq. now destruct (selected _ _).
Qed.

Lemma mk1_step_selected (s s' : state) (e : event) (i : nat) :
  (i < 4)%nat -> step s e = Some s' ->
  selected s' i =
  match e with
  | DigitSelectW data => negb (Z.testbit data (Z.of_nat i))
  | ResetSwitch newval => if newval =? 0 then selected s i else false
  | _ => selected s i
  end.
Proof.
  intros Hi. destruct e as [data|data|newval|keypad| |dt|j]; cbn [step].
  - intros [= <-]. unfold digit_data_w, selected. now rewrite mk1_update_display_eq.
  - intros [= <-]. rewrite selected_testbit.
    now rewrite digit_select_w_eq, mk1_update_display_eq.
  - intros [= <-]. destruct (Z.eqb_spec newval 0) as [->|Hn]; [done|].
    apply selected_ff; [exact Hi|]. now rewrite reset_switch_on.
  - now intros [= <-].
  - intros [= <-]. unfold blink, selected. now rewrite mk1_update_display_eq.
  - destruct (_ && _); [|discriminate]. now intros [= <-].
  - destruct (m_delay_display s !! j) as [[d|]|]; try discriminate.
    destruct (d =? now s); [|discriminate]. intros [= <-].
    rewrite mk1_delay_display_eq.
    now destruct (selected (set_delay_display s j None) j).
Qed.

Lemma mk1_step_timer (s s' : state) (e : event) (i : nat) :
  wf s -> (i < 4)%nat -> step s e = Some s' ->
  timer_of s' i =
  match e with
  | DigitSelectW data =>
      if selected s i && Z.testbit data (Z.of_nat i)
      then Some (Some (now s + 20000)) else timer_of s i
  | FireDisplay j => if decide (j = i) then Some None else timer_of s i
  | _ => timer_of s i
  end.
Proof.
  intros Hwf Hi. destruct e as [data|data|newval|keypad| |dt|j]; cbn [step].
  - intros [= <-]. unfold digit_data_w, timer_of. now rewrite mk1_update_display_eq.
  - intros [= <-]. rewrite digit_select_w_eq, mk1_update_display_eq.
    unfold timer_of. cbn [m_delay_display]. rewrite write_at_lookup.
    rewrite decide_True by (split; [apply elem_of_seq; lia | now rewrite (wf_timers s Hwf)]).
    unfold timer_write, adjust. now destruct (_ && _).
  - intros [= <-]. destruct (Z.eq_dec newval 0) as [->|Hn]; [done|].
    now rewrite reset_switch_on.
  - now intros [= <-].
  - intros [= <-]. unfold blink, timer_of. now rewrite mk1_update_display_eq.
  - destruct (_ && _); [|discriminate]. now intros [= <-].
  - destruct (m_delay_display s !! j) as [[d|]|] eqn:Ej; try discriminate.
    destruct (d =? now s); [|discriminate]. intros [= <-].
    assert (E : timer_of (delay_display (set_delay_display s j None) j) i =
                timer_of (set_delay_display s j None) i).
    { rewrite mk1_delay_display_eq. now destruct (selected _ _). }
    rewrite E. unfold timer_of. cbn [set_delay_display m_delay_display].
    rewrite list_lookup_insert.
    destruct (decide (j = i)) as [->|Hne].
    + rewrite decide_True; [reflexivity|]. split; [reflexivity|].
      exact (lookup_lt_Some _ _ _ Ej).
    + rewrite decide_False; [reflexivity|]. now intros [? _].
Qed.

Lemma mk1_step_digit (s s' : state) (e : event) (i : nat) :
  wf s -> (i < 4)%nat -> step s e = Some s' ->
  digit s' i =
  match e with
  | DigitDataW data => if selected s i then segments (m_blink s) data else digit s i
  | DigitSelectW data =>
      if negb (Z.testbit data (Z.of_nat i)) then segments (m_blink s) (m_digit_data s)
      else digit s i
  | ResetSwitch newval => if newval =? 0 then digit s i else 0
  | Blink => if selected s i then segments (negb (m_blink s)) (m_digit_data s)
             else digit s i
  | FireDisplay j => if decide (j = i) then (if selected s i then digit s i else 0)
                     else digit s i
  | _ => digit s i
  end.
Proof.
  intros Hwf Hi. pose proof (proj2 (Nat.ltb_lt i 4) Hi) as Hb.
  destruct e as [data|data|newval|keypad| |dt|j]; cbn [step].
  - intros [= <-]. unfold digit_data_w.
    rewrite mk1_update_display_digit by apply Hwf. now rewrite Hb.
  - intros [= <-]. rewrite digit_select_w_eq.
    rewrite mk1_update_display_digit
      by (cbn [m_out_digit]; apply Hwf).
    rewrite Hb, selected_testbit. cbn [andb m_digit_select m_blink m_digit_data].
    now destruct (negb _).
  - intros [= <-]. destruct (Z.eqb_spec newval 0) as [->|Hn]; [done|].
    rewrite reset_switch_on by done. unfold digit. cbn [m_out_digit].
    rewrite write_at_lookup.
    now rewrite decide_True
      by (split; [apply elem_of_seq; lia | now rewrite (wf_digits s Hwf)]).
  - now intros [= <-].
  - intros [= <-]. unfold blink.
    rewrite mk1_update_display_digit by apply Hwf. now rewrite Hb.
  - destruct (_ && _); [|discriminate]. now intros [= <-].
  - destruct (m_delay_display s !! j) as [[d|]|] eqn:Ej; try discriminate.
    destruct (d =? now s); [|discriminate]. intros [= <-].
    rewrite mk1_delay_display_eq.
    change (selected (set_delay_display s j None) j) with (selected s j).
    destruct (decide (j = i)) as [->|Hne].
    + destruct (selected s i); [reflexivity|].
      rewrite digit_set_out_digit. rewrite decide_True; [reflexivity|].
      split; [reflexivity|]. cbn [set_delay_display m_out_digit].
      now rewrite (wf_digits s Hwf).
    + destruct (selected s j); [reflexivity|].
      rewrite digit_set_out_digit. rewrite decide_False; [reflexivity|]. now intros [? _].
Qed.

Definition mk1_deadlines_bounded (s : state) : Prop :=
  forall i d, (i < 4)%nat -> timer_of s i = Some (Some d) -> d <= now s + 20000.

Definition lit_digits_armed (s : state) : Prop :=
  forall i, (i < 4)%nat -> selected s i = false -> digit s i <> 0 ->
  exists d, timer_of s i = Some (Some d).

Lemma mk1_deadlines_bounded_reachable (s : state) :
  reachable s -> mk1_deadlines_bounded s.
Proof.
  revert s. apply mk1_reachable_invariant.
  - intros i d Hi H. unfold timer_of in H. cbn in H.
    do 4 (destruct i as [|i]; [discriminate|]). discriminate.
  - intros s e s' Hwf IH Hstep i d Hi. unfold mk1_deadlines_bounded in IH.
    rewrite (mk1_step_timer s s' e i Hwf Hi Hstep).
    destruct (mk1_step_now s s' e Hstep) as [Hn Hdt].
    destruct e as [data|data|newval|keypad| |dt|j]; rewrite Hn;
      try (intros H; pose proof (IH i d Hi H); lia).
    + destruct (_ && _).
      * intros [= <-]. lia.
      * intros H. exact (IH i d Hi H).
    + destruct (decide (j = i)); [discriminate|]. intros H. exact (IH i d Hi H).
Qed.

Lemma lit_digits_armed_reachable (s : state) : reachable s -> lit_digits_armed s.
Proof.
  revert s. apply mk1_reachable_invariant.
  - intros i Hi Hs. do 4 (destruct i as [|i]; [discriminate|]). lia.
  - intros s e s' Hwf IH Hstep i Hi. unfold lit_digits_armed in IH.
    rewrite (mk1_step_timer s s' e i Hwf Hi Hstep), (mk1_step_selected s s' e i Hi Hstep),
      (mk1_step_digit s s' e i Hwf Hi Hstep).
    destruct e as [data|data|newval|keypad| |dt|j]; try exact (IH i Hi).
    + intros Hs. rewrite Hs. exact (IH i Hi Hs).
    + intros Hs. apply negb_false_iff in Hs. rewrite Hs. cbn [negb].
      destruct (selected s i) eqn:Es; cbn [andb]; [eauto|]. exact (IH i Hi Es).
    + destruct (newval =? 0); [exact (IH i Hi)|]. now intros _ H.
    + intros Hs. rewrite Hs. exact (IH i Hi Hs).
    + intros Hs. destruct (decide (j = i)); [|exact (IH i Hi Hs)].
      rewrite Hs. now intros H.
Qed.

(** No digit stays lit for ever: a digit that is not selected and still
    shows something has its deflicker timer armed, and the timer expires
    within 20 ms; when it fires the digit is blanked unless it was selected
    again. *)
Theorem mk1_no_stuck_digit (s : state) (i : nat)
    (Hreach : reachable s) (Hi : (i < 4)%nat)
    (Hsel : selected s i = false) (Hlit : digit s i <> 0) :
  exists d, timer_of s i = Some (Some d) /\ now s <= d <= now s + 20000 /\
    forall s', step s (FireDisplay i) = Some s' -> digit s' i = 0.
Proof.
  destruct (lit_digits_armed_reachable s Hreach i Hi Hsel Hlit) as [d Hd].
  pose proof (mk1_wf_reachable s Hreach) as Hwf.
  exists d. split; [exact Hd|]. split.
  - split; [exact (wf_display s Hwf i d Hd)|].
    exact (mk1_deadlines_bounded_reachable s Hreach i d Hi Hd).
  - intros s' Hstep. rewrite (mk1_step_digit s s' _ i Hwf Hi Hstep).
    rewrite decide_True by reflexivity. now rewrite Hsel.
Qed.

Lemma mk1_no_stuck_digit_witness :
  exists d,
    timer_of (default machine_start
                (run machine_start [DigitDataW 0x42; DigitSelectW 0x01; Wait 500])) 0
    = Some (Some d).
Proof.
  assert (H : reachable (default machine_start
    (run machine_start [DigitDataW 0x42; DigitSelectW 0x01; Wait 500])))
    by (exists [DigitDataW 0x42; DigitSelectW 0x01; Wait 500]; vm_compute; reflexivity).
  destruct (mk1_no_stuck_digit _ 0%nat H ltac:(lia) ltac:(vm_compute; reflexivity)
              ltac:(vm_compute; discriminate)) as (d & Hd & _).
  exists d. exact Hd.
Defined.

End MK1_More.

(** ** MK I: the blink phase, the decimal point and repeated writes *)

Module MK1_Display.
Import MK1 MK1_Facts MK1_Inv MK1_More.

Lemma segments_dp_alone (b : bool) (raw : Z) :
  segments b raw = 0x80 \/ 0 <= segments b raw < 0x80.
Proof.
  rewrite segments_cases.
  destruct (b && Z.odd raw); [right; lia|].
  destruct (raw =? 1); [now left|]. right.
  change 0x7f with (Z.ones 7). rewrite Z.land_ones by lia.
  apply Z.mod_pos_bound. lia.
Qed.

Lemma segments_even (b : bool) (raw : Z) :
  Z.odd raw = false -> segments b raw = segments false raw.
Proof. intros H. rewrite !segments_cases, H. now rewrite andb_false_r. Qed.

(** The decimal point is never lit together with another segment: every
    digit output is 0x80 or has bit 7 clear. *)
Theorem dp_never_with_segments (s : state) (i : nat)
    (Hreach : reachable s) (Hi : (i < 4)%nat) :
  digit s i = 0x80 \/ 0 <= digit s i < 0x80.
Proof.
  revert i Hi. revert s Hreach.
  apply (mk1_reachable_invariant
           (fun s => forall i, (i < 4)%nat -> digit s i = 0x80 \/ 0 <= digit s i < 0x80)).
  - intros i Hi. do 4 (destruct i as [|i]; [right; cbn; lia|]). lia.
  - intros s e s' Hwf IH Hstep i Hi.
    rewrite (mk1_step_digit s s' e i Hwf Hi Hstep).
    destruct e as [data|data|newval|keypad| |dt|j]; try exact (IH i Hi).
    + destruct (selected s i); [apply segments_dp_alone | exact (IH i Hi)].
    + destruct (negb _); [apply segments_dp_alone | exact (IH i Hi)].
    + destruct (newval =? 0); [exact (IH i Hi) | right; lia].
    + destruct (selected s i); [apply segments_dp_alone | exact (IH i Hi)].
    + destruct (decide (j = i)); [|exact (IH i Hi)].
      destruct (selected s i); [exact (IH i Hi) | right; lia].
Qed.

Lemma dp_never_with_segments_witness :
  digit (default machine_start
           (run machine_start [DigitDataW 0x01; Blink; DigitDataW 0x43])) 2 = 0x80 \/
  0 <= digit (default machine_start
           (run machine_start [DigitDataW 0x01; Blink; DigitDataW 0x43])) 2 < 0x80.
Proof.
  assert (H : reachable (default machine_start
    (run machine_start [DigitDataW 0x01; Blink; DigitDataW 0x43])))
    by (exists [DigitDataW 0x01; Blink; DigitDataW 0x43]; vm_compute; reflexivity).
  exact (dp_never_with_segments _ 2%nat H ltac:(lia)).
Defined.

(** Refreshing a display whose selected digits already show the decoded
    byte writes back what is there. *)
Lemma refresh_over (s : state) (out : list Z) :
  wf s -> shows s -> length out = 4%nat ->
  (forall j, selected s j = false -> out !! j = m_out_digit s !! j) ->
  foldl (write_at (digit_write s)) out (seq 0 4) = m_out_digit s.
Proof.
  intros Hwf Hsh Hlen Hout. apply list_eq. intros j.
  rewrite write_at_lookup.
  destruct (decide _) as [[Hin Hlt]|Hn].
  - unfold digit_write. destruct (selected s j) eqn:Es; [|now apply Hout].
    rewrite Hlen in Hlt. pose proof (Hsh j Hlt Es) as Hd. unfold digit in Hd.
    destruct (m_out_digit s !! j) as [x|] eqn:Ex.
    + cbn in Hd. now subst x.
    + apply lookup_ge_None_1 in Ex. rewrite (wf_digits s Hwf) in Ex. lia.
  - destruct (decide (j < 4)%nat) as [Hj|Hj].
    + exfalso. apply Hn. split; [apply elem_of_seq; lia | now rewrite Hlen].
    + rewrite !lookup_ge_None_2; [reflexivity | rewrite (wf_digits s Hwf); lia
                                  | rewrite Hlen; lia].
Qed.

Lemma update_display_fixed (s : state) : wf s -> shows s -> update_display s = s.
Proof.
  intros Hwf Hsh. rewrite mk1_update_display_eq.
  rewrite (refresh_over s (m_out_digit s) Hwf Hsh (wf_digits s Hwf)) by done.
  now destruct s.
Qed.

(** Two blink ticks in a row restore the driver state, outputs included. *)
Theorem blink_twice (s : state) (Hreach : reachable s) : blink (blink s) = s.
Proof.
  pose proof (mk1_wf_reachable s Hreach) as Hwf.
  pose proof (shows_reachable s Hreach) as Hsh.
  unfold blink.
  rewrite (mk1_update_display_eq (set_blink s (negb (m_blink s)))).
  rewrite mk1_update_display_eq.
  cbn [set_blink m_digit_select m_digit_data m_blink m_out_digit m_delay_display
    m_reset_line now].
  rewrite negb_involutive.
  set (out := foldl _ (m_out_digit s) (seq 0 4)).
  assert (E : foldl (write_at (digit_write s)) out (seq 0 4) = m_out_digit s).
  { apply (refresh_over s out Hwf Hsh).
    - unfold out. rewrite write_at_length. apply Hwf.
    - intros j Hj. unfold out. apply write_at_skip.
      unfold digit_write.
      change (selected (set_blink s (negb (m_blink s))) j) with (selected s j).
      now rewrite Hj. }
  transitivity (mkState (m_digit_select s) (m_digit_data s) (m_blink s)
                  (foldl (write_at (digit_write s)) out (seq 0 4))
                  (m_delay_display s) (m_reset_line s) (now s)).
  - reflexivity.
  - rewrite E. now destruct s.
Qed.

Lemma blink_twice_witness :
  blink (blink (default machine_start
                  (run machine_start [DigitDataW 0x03; DigitSelectW 0x0a]))) =
  default machine_start (run machine_start [DigitDataW 0x03; DigitSelectW 0x0a]).
Proof.
  apply blink_twice.
  exists [DigitDataW 0x03; DigitSelectW 0x0a]. vm_compute. reflexivity.
Defined.

(** The blink phase is visible only while bit 0 of the data byte is set:
    with an even data byte a blink tick flips [m_blink] and changes no
    output. *)
Theorem blink_even_data (s : state)
    (Hreach : reachable s) (Heven : Z.odd (m_digit_data s) = false) :
  blink s = set_blink s (negb (m_blink s)).
Proof.
  pose proof (mk1_wf_reachable s Hreach) as Hwf.
  pose proof (shows_reachable s Hreach) as Hsh.
  unfold blink. apply update_display_fixed.
  - destruct Hwf; split; assumption.
  - intros i Hi Hs. change (digit s i = segments (negb (m_blink s)) (m_digit_data s)).
    rewrite (Hsh i Hi Hs).
    rewrite (segments_even (m_blink s) _ Heven).
    now rewrite (segments_even (negb (m_blink s)) _ Heven).
Qed.

Lemma blink_even_data_witness :
  blink (default machine_start (run machine_start [DigitDataW 0x42])) =
  set_blink (default machine_start (run machine_start [DigitDataW 0x42])) true.
Proof.
  apply (blink_even_data (default machine_start (run machine_start [DigitDataW 0x42]))).
  - exists [DigitDataW 0x42]. vm_compute. reflexivity.
  - vm_compute. reflexivity.
Defined.

(** Writing the same byte a second time to the data port or to the select
    port changes nothing: the second select write sees no rising line and
    arms no timer. *)
Theorem mk1_writes_idempotent (s : state) (data : Z) :
  update_display (update_display s) = update_display s /\
  digit_data_w (digit_data_w s data) data = digit_data_w s data /\
  digit_select_w (digit_select_w s data) data = digit_select_w s data.
Proof.
  assert (H : forall s0, update_display (update_display s0) = update_display s0).
  { intros s0. rewrite (mk1_update_display_eq (update_display s0)).
    rewrite !(mk1_update_display_eq s0).
    unfold digit_write, selected.
    cbn [m_digit_select m_digit_data m_blink m_out_digit m_delay_display m_reset_line now].
    f_equal.
    apply (write_at_idem (fun i =>
      if negb (truthy (BIT (m_digit_select s0) i))
      then Some (segments (m_blink s0) (m_digit_data s0)) else None)). }
  split; [apply H|]. split.
  - unfold digit_data_w. set (s1 := set_digit_data s data).
    assert (E : set_digit_data (update_display s1) data = update_display s1)
      by (rewrite mk1_update_display_eq; reflexivity).
    rewrite E. apply H.
  - rewrite (digit_select_w_eq (digit_select_w s data)).
    set (s1 := mkState data (m_digit_data s) (m_blink s) (m_out_digit s)
       (foldl (write_at (timer_write data s)) (m_delay_display s) (seq 0 4))
       (m_reset_line s) (now s)).
    assert (E1 : digit_select_w s data = update_display s1) by apply digit_select_w_eq.
    rewrite E1.
    rewrite write_at_none.
    + assert (E : mkState data (m_digit_data (update_display s1))
                    (m_blink (update_display s1)) (m_out_digit (update_display s1))
                    (m_delay_display (update_display s1))
                    (m_reset_line (update_display s1)) (now (update_display s1))
                  = update_display s1) by (rewrite mk1_update_display_eq; reflexivity).
      rewrite E. apply H.
    + intros i. unfold timer_write. rewrite selected_testbit.
      rewrite mk1_update_display_eq. cbn [m_digit_select s1].
      now destruct (Z.testbit data (Z.of_nat i)).
Qed.

End MK1_Display.

(** ** MK I: the keypad matrix is scanned in both directions *)

Section Scan.

Variables (c : nat -> bool) (g : nat -> Z).

(** The shape of both loops of [input_r]. *)
Definition or_in (data : Z) (i : nat) : Z :=
  if c i then u8 (Z.lor data (g i)) else data.

Lemma or_in_range (l : list nat) (x : Z) :
  0 <= x < 256 -> 0 <= foldl or_in x l < 256.
Proof.
  revert x; induction l as [|i l IH]; intros x Hx; cbn [foldl]; [exact Hx|].
  apply IH. unfold or_in. destruct (c i); [apply u8_range | exact Hx].
Qed.

Lemma or_in_testbit (l : list nat) (x j : Z) :
  0 <= x < 256 -> 0 <= j < 8 ->
  Z.testbit (foldl or_in x l) j =
  Z.testbit x j || existsb (fun i => c i && Z.testbit (g i) j) l.
Proof.
  intros Hx Hj. revert x Hx; induction l as [|i l IH]; intros x Hx; cbn [foldl existsb].
  - now rewrite orb_false_r.
  - rewrite IH.
    + unfold or_in. destruct (c i); cbn [andb orb]; [|reflexivity].
      rewrite testbit_u8, Z.lor_spec by lia.
      replace (j <? 8) with true by lia. cbn [andb]. now rewrite orb_assoc.
    + unfold or_in. destruct (c i); [apply u8_range | exact Hx].
Qed.

End Scan.

(** What a keypad read returns, bit by bit, when the key lines carry keys
    on bits 4 to 7 only (as the input ports define them) : bit [i] of the
    low nibble is the written bit or any key of line [i] whose column is
    driven by a high bit of the written byte; bit [j] of the high nibble is
    the written bit or the key of column [j] on any line whose low bit is
    written high. *)
Theorem input_r_scan (s : MK1.state) (keypad : nat -> Z)
    (Hd : 0 <= MK1.m_digit_data s < 256)
    (Hk : forall i, (i < 4)%nat -> Z.land (keypad i) 0xf0 = keypad i) :
  0 <= fst (MK1.input_r s keypad) < 256 /\
  (forall i, (i < 4)%nat ->
     Z.testbit (fst (MK1.input_r s keypad)) (Z.of_nat i) =
     Z.testbit (MK1.m_digit_data s) (Z.of_nat i) ||
     truthy (Z.land (MK1.m_digit_data s) (keypad i))) /\
  (forall j, 4 <= j < 8 ->
     Z.testbit (fst (MK1.input_r s keypad)) j =
     Z.testbit (MK1.m_digit_data s) j ||
     existsb (fun i => Z.testbit (MK1.m_digit_data s) (Z.of_nat i) &&
                       Z.testbit (keypad i) j) (seq 0 4)).
Proof.
  set (d := MK1.m_digit_data s) in *.
  set (c1 := fun i : nat => truthy (Z.land d (keypad i))).
  set (g1 := fun i : nat => Z.shiftl 1 (Z.of_nat i)).
  set (c2 := fun i : nat => truthy (BIT d i)).
  assert (E : fst (MK1.input_r s keypad) =
              foldl (or_in c2 keypad) (foldl (or_in c1 g1) d (seq 0 4)) (seq 0 4))
    by reflexivity.
  rewrite E. clear E.
  pose proof (or_in_range c1 g1 (seq 0 4) d Hd) as H1.
  assert (Hlow : forall i j, (i < 4)%nat -> 0 <= j < 4 -> Z.testbit (keypad i) j = false).
  { intros i j Hi Hj. rewrite <- (Hk i Hi), Z.land_spec.
    assert (Hf : Z.testbit 0xf0 j = false).
    { assert (Hc : j = 0 \/ j = 1 \/ j = 2 \/ j = 3) by lia.
      destruct Hc as [->|[->|[->| ->]]]; reflexivity. }
    rewrite Hf. apply andb_false_r. }
  split; [now apply or_in_range|]. split.
  - intros i Hi.
    rewrite or_in_testbit, or_in_testbit by (done || lia).
    assert (E2 : existsb (fun k => c2 k && Z.testbit (keypad k) (Z.of_nat i)) (seq 0 4)
                 = false).
    { cbn [existsb seq]. rewrite !Hlow by lia. now rewrite !andb_false_r. }
    rewrite E2, orb_false_r. f_equal.
    unfold g1. cbn [existsb seq]. rewrite !testbit_bit by lia.
    do 4 (destruct i as [|i];
      [cbn [Z.of_nat Z.eqb Pos.of_succ_nat Pos.succ Pos.eqb];
       rewrite ?andb_false_r, ?andb_true_r, ?orb_false_r; reflexivity|]).
    lia.
  - intros j Hj.
    rewrite or_in_testbit, or_in_testbit by (done || lia).
    assert (E1 : existsb (fun k => c1 k && Z.testbit (g1 k) j) (seq 0 4) = false).
    { unfold g1. cbn [existsb seq]. rewrite !testbit_bit by lia.
      rewrite !(proj2 (Z.eqb_neq _ j)) by lia.
      now rewrite !andb_false_r. }
    rewrite E1, orb_false_r. f_equal.
    unfold c2. cbn [existsb seq]. now rewrite !truthy_BIT.
Qed.

Lemma input_r_scan_witness :
  Z.testbit (fst (MK1.input_r (MK1.set_digit_data MK1.machine_start 0x42)
                    (fun i => if (i =? 1)%nat then 0x40 else 0))) 1 = true.
Proof.
  exact (proj1 (proj2 (input_r_scan (MK1.set_digit_data MK1.machine_start 0x42)
           (fun i => if (i =? 1)%nat then 0x40 else 0)
           ltac:(cbn; lia)
           ltac:(intros i _; cbv beta; destruct (i =? 1)%nat; reflexivity)))
           1%nat ltac:(lia)).
Defined.

(** ** Intellect-02: the direct button lines *)

(** With IN.1 carrying its three buttons on bits 1 to 3 (bit 0 is unused),
    bit 4 of a keypad read is always high and bits 5 to 7 are the three
    buttons, active low, whatever the button field of IN.0 holds. *)
Theorem direct_buttons (k0 k1 : Z)
    (Hk0 : 0 <= k0 < 2 ^ 15) (Hk1 : Z.land k1 0x0e = k1) :
  Z.testbit (Intellect02.input_r k0 k1) 4 = true /\
  forall j, 1 <= j <= 3 ->
    Z.testbit (Intellect02.input_r k0 k1) (4 + j) = negb (Z.testbit k1 j).
Proof.
  destruct (input_r_nibbles k0 k1 Hk0) as (_ & _ & Hhigh).
  assert (H : forall n, 4 <= n < 8 ->
    Z.testbit (Intellect02.input_r k0 k1) n = negb (Z.testbit k1 (n - 4))).
  { intros n Hn.
    assert (Hf : Z.testbit 0xf0 n = true).
    { assert (Hc : n = 4 \/ n = 5 \/ n = 6 \/ n = 7) by lia.
      destruct Hc as [->|[->|[->| ->]]]; reflexivity. }
    transitivity (Z.testbit (Z.land (Intellect02.input_r k0 k1) 0xf0) n).
    - now rewrite Z.land_spec, Hf, andb_true_r.
    - rewrite Hhigh, Z.land_spec, Hf, andb_true_r.
      rewrite Z.shiftl_spec by lia. apply Z.lnot_spec. lia. }
  split.
  - rewrite H by lia. change (4 - 4) with 0.
    rewrite <- Hk1, Z.land_spec. change (Z.testbit 14 0) with false.
    now rewrite andb_false_r.
  - intros j Hj. rewrite H by lia. now replace (4 + j - 4) with j by lia.
Qed.

Lemma direct_buttons_witness :
  Z.testbit (Intellect02.input_r 0x0040 0x0a) 4 = true /\
  Z.testbit (Intellect02.input_r 0x0040 0x0a) (4 + 2) = negb (Z.testbit 0x0a 2).
Proof.
  destruct (direct_buttons 0x0040 0x0a ltac:(lia) eq_refl) as [H4 Hj].
  split; [exact H4 | exact (Hj 2 ltac:(lia))].
Defined.
